(** * Terminal Launcher: configuration parser and terminal manager

    A shallow embedding of [src/configParser.ts] (the custom-format parser)
    and of the [TerminalManager] class, followed by the properties the
    specification states about them.

    Conventions.
    - A JavaScript string is a [string]; one [ascii] stands for one code
      unit, so the model covers code units below 256.
    - An optional field [f?: T] is an [option T]; [undefined] is [None].
    - JavaScript truthiness is written out where the source relies on it:
      the empty string, [0] and [undefined] are falsy, an array never is.
    - The editor host ([vscode.window], timers) is an explicit state that
      every operation of the manager threads through. *)

From Stdlib Require Import String Ascii List ZArith Lia Bool Arith.
From Stdlib Require Import Decimal DecimalString DecimalNat.
From Stdlib Require Lists.Finite.
Import ListNotations.
Open Scope string_scope.

(** ** JavaScript string primitives used by the sources *)

Module Js.

(** [Boolean(s)] for an optional string. *)
Definition truthy (o : option string) : bool :=
  match o with
  | Some (String _ _) => true
  | _ => false
  end.

(** [a || b] on optional strings. *)
Definition or_else (a b : option string) : option string :=
  if truthy a then a else b.

(** White space and line terminators removed by [String.prototype.trim],
    among the code units below 256: TAB, LF, VT, FF, CR, SP, NBSP. *)
Definition is_white_space (c : ascii) : bool :=
  let n := nat_of_ascii c in
  (((9 <=? n) && (n <=? 13)) || (n =? 32) || (n =? 160))%nat.

Fixpoint trimStart (s : string) : string :=
  match s with
  | String c r => if is_white_space c then trimStart r else s
  | EmptyString => EmptyString
  end.

Fixpoint trimEnd (s : string) : string :=
  match s with
  | String c r =>
      match trimEnd r with
      | EmptyString => if is_white_space c then EmptyString else String c EmptyString
      | r' => String c r'
      end
  | EmptyString => EmptyString
  end.

Definition trim (s : string) : string := trimEnd (trimStart s).

Definition startsWith (p s : string) : bool := String.prefix p s.

Fixpoint endsWith (p s : string) : bool :=
  (s =? p) ||
  match s with
  | String _ r => endsWith p r
  | EmptyString => false
  end.

Fixpoint includes (p s : string) : bool :=
  String.prefix p s ||
  match s with
  | String _ r => includes p r
  | EmptyString => false
  end.

(** [s.split(sep)] for a one-character separator: never the empty list. *)
Fixpoint split (sep : ascii) (s : string) : list string :=
  match s with
  | EmptyString => [EmptyString]
  | String c r =>
      if Ascii.eqb c sep then EmptyString :: split sep r
      else match split sep r with
           | h :: t => String c h :: t
           | [] => [String c EmptyString]
           end
  end.

(** [parts.join(sep)]. *)
Definition join (sep : string) (parts : list string) : string :=
  String.concat sep parts.

Fixpoint drop_last (s : string) : string :=
  match s with
  | String c EmptyString => EmptyString
  | String c r => String c (drop_last r)
  | EmptyString => EmptyString
  end.

(** [s.slice(1, -1)]. *)
Definition slice_1_m1 (s : string) : string :=
  match s with
  | String _ r => drop_last r
  | EmptyString => EmptyString
  end.

(** [`${n}`] for a non-negative integer. *)
Definition string_of_number (n : nat) : string :=
  NilEmpty.string_of_uint (Nat.to_uint n).

(** The time [setTimeout(callback, ms)] waits, for an integer [ms]: the
    runtime sets a delay below 1 or above 2^31 - 1 to 1. *)
Definition setTimeout_delay (ms : Z) : Z :=
  if ((1 <=? ms) && (ms <=? 2147483647))%Z then ms else 1%Z.

(** The names every object literal inherits from [Object.prototype]:
    [o[key]] finds a member there when [o] has no own property [key]. *)
Definition Object_prototype : list string :=
  ["constructor"; "hasOwnProperty"; "isPrototypeOf"; "propertyIsEnumerable";
   "toLocaleString"; "toString"; "valueOf"; "__proto__";
   "__defineGetter__"; "__defineSetter__"; "__lookupGetter__";
   "__lookupSetter__"].

Definition inherited (key : string) : bool :=
  existsb (String.eqb key) Object_prototype.

End Js.

(** ** [src/types.ts] *)

Record TerminalConfig := {
  name : string;
  cwd : option string;
  command : option string;
  commands : option (list string);
  script : option string;
  commandDelay : option Z;
  color : option string;
  icon : option string;
  env : option (list (string * string));
  shellPath : option string;
  shellArgs : option (list string)
}.

(** The declared type makes [terminals] of a group mandatory, but a decoded
    JSON document is only cast to it and the manager tests the field. *)
Record TerminalGroupConfig := {
  group_name : option string;
  group_terminals : option (list TerminalConfig)
}.

Record TerminalLauncherConfig := {
  version : option string;
  groups : option (list TerminalGroupConfig);
  terminals : option (list TerminalConfig)
}.

(** ** [ConfigParser.parseCustomFormat] *)

Module ConfigParser.

(** [{ name: n }]: the object literal a header line creates. *)
Definition new_terminal (n : string) : TerminalConfig :=
  {| name := n; cwd := None; command := None; commands := None;
     script := None; commandDelay := None; color := None; icon := None;
     env := None; shellPath := None; shellArgs := None |}.

Definition set_cwd (v : string) (t : TerminalConfig) : TerminalConfig :=
  {| name := name t; cwd := Some v; command := command t;
     commands := commands t; script := script t;
     commandDelay := commandDelay t; color := color t; icon := icon t;
     env := env t; shellPath := shellPath t; shellArgs := shellArgs t |}.

Definition set_command (v : string) (t : TerminalConfig) : TerminalConfig :=
  {| name := name t; cwd := cwd t; command := Some v;
     commands := commands t; script := script t;
     commandDelay := commandDelay t; color := color t; icon := icon t;
     env := env t; shellPath := shellPath t; shellArgs := shellArgs t |}.

Definition set_commands (v : list string) (t : TerminalConfig) : TerminalConfig :=
  {| name := name t; cwd := cwd t; command := command t;
     commands := Some v; script := script t;
     commandDelay := commandDelay t; color := color t; icon := icon t;
     env := env t; shellPath := shellPath t; shellArgs := shellArgs t |}.

Definition set_script (v : string) (t : TerminalConfig) : TerminalConfig :=
  {| name := name t; cwd := cwd t; command := command t;
     commands := commands t; script := Some v;
     commandDelay := commandDelay t; color := color t; icon := icon t;
     env := env t; shellPath := shellPath t; shellArgs := shellArgs t |}.

Definition set_color (v : string) (t : TerminalConfig) : TerminalConfig :=
  {| name := name t; cwd := cwd t; command := command t;
     commands := commands t; script := script t;
     commandDelay := commandDelay t; color := Some v; icon := icon t;
     env := env t; shellPath := shellPath t; shellArgs := shellArgs t |}.

Definition set_icon (v : string) (t : TerminalConfig) : TerminalConfig :=
  {| name := name t; cwd := cwd t; command := command t;
     commands := commands t; script := script t;
     commandDelay := commandDelay t; color := color t; icon := Some v;
     env := env t; shellPath := shellPath t; shellArgs := shellArgs t |}.

(** [content.split('\n').filter(line => line.trim() &&
    !line.trim().startsWith('#'))] *)
Definition keep_line (line : string) : bool :=
  Js.truthy (Some (Js.trim line)) && negb (Js.startsWith "#" (Js.trim line)).

Definition lines_of (content : string) : list string :=
  filter keep_line (Js.split "010"%char content).

(** [trimmed.startsWith('[') && trimmed.endsWith(']')] *)
Definition is_header (trimmed : string) : bool :=
  Js.startsWith "[" trimmed && Js.endsWith "]" trimmed.

(** [const [key, ...valueParts] = trimmed.split('=')] *)
Definition key_of (trimmed : string) : string :=
  match Js.split "="%char trimmed with
  | key :: _ => key
  | [] => EmptyString
  end.

(** [valueParts.join('=').trim()] *)
Definition value_of (trimmed : string) : string :=
  match Js.split "="%char trimmed with
  | _ :: valueParts => Js.trim (Js.join "=" valueParts)
  | [] => EmptyString
  end.

(** The [switch (key.trim())] of the loop body. *)
Definition assign (key value : string) (t : TerminalConfig) : TerminalConfig :=
  let k := Js.trim key in
  if k =? "cwd" then set_cwd value t
  else if k =? "command" then set_command value t
  else if k =? "commands" then
    set_commands (map Js.trim (Js.split ";"%char value)) t
  else if k =? "script" then set_script value t
  else if k =? "color" then set_color value t
  else if k =? "icon" then set_icon value t
  else t.

(** The two mutable variables of the loop: [currentTerminal] (null or an
    object) and [config.terminals]. *)
Record Loop := {
  currentTerminal : option TerminalConfig;
  pushed : list TerminalConfig
}.

(** One iteration of [for (const line of lines)]. *)
Definition step (st : Loop) (line : string) : Loop :=
  let trimmed := Js.trim line in
  if is_header trimmed then
    {| currentTerminal := Some (new_terminal (Js.slice_1_m1 trimmed));
       pushed := match currentTerminal st with
                 | Some t => pushed st ++ [t]
                 | None => pushed st
                 end |}
  else
    match currentTerminal st with
    | Some t =>
        if Js.includes "=" trimmed then
          {| currentTerminal := Some (assign (key_of trimmed) (value_of trimmed) t);
             pushed := pushed st |}
        else st
    | None => st
    end.

(** The final [if (currentTerminal) config.terminals.push(currentTerminal)]. *)
Definition finish (st : Loop) : list TerminalConfig :=
  match currentTerminal st with
  | Some t => pushed st ++ [t]
  | None => pushed st
  end.

(** [currentTerminal = null] and [config = { terminals: [] }]. *)
Definition start : Loop := {| currentTerminal := None; pushed := [] |}.

Definition parseCustomFormat (content : string) : TerminalLauncherConfig :=
  let lines := lines_of content in
  let st := fold_left step lines start in
  {| version := None; groups := None; terminals := Some (finish st) |}.

End ConfigParser.

(** ** The [path] module of the runtime

    [path] belongs to the platform, not to the repository, and differs
    between platforms; the manager is stated over this interface. *)

Module Path.

Class Api := {
  isAbsolute : string -> bool;
  join : string -> string -> string;
  basename : string -> string
}.

(** The POSIX flavour, after the runtime's [path.posix], for the concrete
    cases of the specification. *)
Module Posix.

Definition nonempty (s : string) : bool :=
  match s with
  | EmptyString => false
  | String _ _ => true
  end.

(** [normalizeString]: the stack of kept segments, innermost first. *)
Fixpoint normalize_segments (allowAboveRoot : bool) (segs stack : list string)
  : list string :=
  match segs with
  | [] => List.rev stack
  | seg :: rest =>
      if (seg =? "") || (seg =? ".") then
        normalize_segments allowAboveRoot rest stack
      else if seg =? ".." then
        match stack with
        | top :: below =>
            if top =? ".." then
              normalize_segments allowAboveRoot rest
                (if allowAboveRoot then ".." :: stack else stack)
            else normalize_segments allowAboveRoot rest below
        | [] =>
            normalize_segments allowAboveRoot rest
              (if allowAboveRoot then [".."] else [])
        end
      else normalize_segments allowAboveRoot rest (seg :: stack)
  end.

Definition is_absolute (p : string) : bool := Js.startsWith "/" p.

Definition normalize (p : string) : string :=
  match p with
  | EmptyString => "."
  | _ =>
      let absolute := is_absolute p in
      let trailing := Js.endsWith "/" p in
      let body :=
        Js.join "/" (normalize_segments (negb absolute) (Js.split "/"%char p) []) in
      match body with
      | EmptyString =>
          if absolute then "/" else if trailing then "./" else "."
      | _ =>
          let body' := if trailing then body ++ "/" else body in
          if absolute then "/" ++ body' else body'
      end
  end.

Definition join2 (a b : string) : string :=
  match filter nonempty [a; b] with
  | [] => "."
  | parts => normalize (Js.join "/" parts)
  end.

Definition base_name (p : string) : string :=
  List.last (filter nonempty (Js.split "/"%char p)) EmptyString.

Definition api : Api :=
  {| isAbsolute := is_absolute; join := join2; basename := base_name |}.

End Posix.

End Path.

(** ** The editor host

    [vscode.window.terminals], [createTerminal], [Terminal.dispose],
    [Terminal.show], the message and quick-pick prompts and [setTimeout],
    as an explicit state with a trace of the calls made. *)

Module Vscode.

(** [new vscode.ThemeColor(id)]. The manager builds it from the entry of
    its colour table, a string, or from what the table inherits under the
    key, a member of [Object.prototype] and no string. *)
Inductive ThemeColor :=
| ThemeColor_of (id : string)
| ThemeColor_of_member (key : string).

Definition ThemeColor_eqb (a b : ThemeColor) : bool :=
  match a, b with
  | ThemeColor_of x, ThemeColor_of y => x =? y
  | ThemeColor_of_member x, ThemeColor_of_member y => x =? y
  | _, _ => false
  end.

Record TerminalOptions := {
  opt_name : string;
  opt_cwd : option string;
  opt_env : option (list (string * string));
  opt_shellPath : option string;
  opt_shellArgs : option (list string);
  opt_color : option ThemeColor;
  opt_iconPath : option string
}.

(** A terminal handle; [term_id] stands for the identity of the object. *)
Record Terminal := {
  term_id : nat;
  term_options : TerminalOptions
}.

Definition term_name (t : Terminal) : string := opt_name (term_options t).

(** A pending [terminal.sendText(text)], due at a time of the virtual clock.
    Timers are recorded, not run: a send changes nothing the manager reads. *)
Record Scheduled := {
  due : Z;
  target : nat;
  text : string
}.

Inductive Event :=
| ShowErrorMessage (message : string)
| ShowQuickPick (placeHolder : string)
| CreateTerminal (t : Terminal)
| Dispose (id : nat)
| Show (id : nat) (preserveFocus : bool).

Record State := {
  window_terminals : list Terminal;   (* vscode.window.terminals *)
  next_id : nat;
  clock : Z;                          (* milliseconds *)
  timers : list Scheduled;
  trace : list Event;
  this_terminals : list Terminal      (* TerminalManager.terminals *)
}.

(** The four entries of the quick pick. *)
Inductive QuickPickItem := ReplaceExisting | SkipExisting | RenameNew | CancelItem.

End Vscode.
Import Vscode.

(** ** A state monad for the manager *)

Definition M (A : Type) : Type := State -> A * State.

Definition ret {A} (a : A) : M A := fun s => (a, s).

Definition bind {A B} (c : M A) (k : A -> M B) : M B :=
  fun s => let (a, s') := c s in k a s'.

Notation "x <- c ;; k" := (bind c (fun x => k))
  (at level 61, c at next level, right associativity).
Notation "c ;; k" := (bind c (fun _ => k))
  (at level 61, right associativity).

Definition exec {A} (c : M A) (s : State) : State := snd (c s).

Fixpoint forEach {A} (f : A -> M unit) (l : list A) : M unit :=
  match l with
  | [] => ret tt
  | a :: rest => f a ;; forEach f rest
  end.

Definition emit (e : Event) : M unit := fun s =>
  (tt, {| window_terminals := window_terminals s; next_id := next_id s;
          clock := clock s; timers := timers s;
          trace := trace s ++ [e]; this_terminals := this_terminals s |}).

(** [await new Promise(resolve => setTimeout(resolve, ms))] *)
Definition sleep (ms : Z) : M unit := fun s =>
  (tt, {| window_terminals := window_terminals s; next_id := next_id s;
          clock := (clock s + ms)%Z; timers := timers s;
          trace := trace s; this_terminals := this_terminals s |}).

Definition add_timers (new : list Scheduled) : M unit := fun s =>
  (tt, {| window_terminals := window_terminals s; next_id := next_id s;
          clock := clock s; timers := timers s ++ new;
          trace := trace s; this_terminals := this_terminals s |}).

Definition now : M Z := fun s => (clock s, s).

(** [this.terminals.push(terminal)] *)
Definition push (t : Terminal) : M unit := fun s =>
  (tt, {| window_terminals := window_terminals s; next_id := next_id s;
          clock := clock s; timers := timers s;
          trace := trace s; this_terminals := this_terminals s ++ [t] |}).

(** [terminal.show(preserveFocus)] *)
Definition show (t : Terminal) (preserveFocus : bool) : M unit :=
  emit (Show (term_id t) preserveFocus).

(** [terminal.dispose()]: the terminal leaves the list of the window. *)
Definition dispose (t : Terminal) : M unit := fun s =>
  (tt, {| window_terminals :=
            filter (fun u => negb (term_id u =? term_id t)%nat) (window_terminals s);
          next_id := next_id s; clock := clock s; timers := timers s;
          trace := trace s ++ [Dispose (term_id t)];
          this_terminals := this_terminals s |}).

(** [vscode.window.createTerminal(options)], when the host accepts it: the
    new terminal is in [vscode.window.terminals] from then on. *)
Definition window_createTerminal (o : TerminalOptions) : M Terminal := fun s =>
  let t := {| term_id := next_id s; term_options := o |} in
  (t, {| window_terminals := window_terminals s ++ [t];
         next_id := S (next_id s); clock := clock s; timers := timers s;
         trace := trace s ++ [CreateTerminal t];
         this_terminals := this_terminals s |}).

Definition showErrorMessage (message : string) : M unit :=
  emit (ShowErrorMessage message).

(** What the manager reads from its surroundings and cannot change: the
    first workspace folder ([vscode.workspace.workspaceFolders?.[0]
    ?.uri.fsPath]) and whether the host throws on a terminal request (the
    message caught by the [try] of [createTerminal]). *)
Class Host := {
  workspaceFolder : option string;
  createTerminal_throws : TerminalOptions -> option string
}.

(** ** [TerminalManager] *)

Module TerminalManager.

(** The values [duplicateAction] ranges over. *)
Inductive DuplicateAction := Replace | Skip | Rename | Cancel | Proceed.

(** The [value] of a quick-pick entry. *)
Definition value (i : QuickPickItem) : DuplicateAction :=
  match i with
  | ReplaceExisting => Replace
  | SkipExisting => Skip
  | RenameNew => Rename
  | CancelItem => Cancel
  end.

(** What [executeTerminalCommands] does with the terminal: a direct
    [terminal.sendText] or one deferred by [setTimeout]. *)
Inductive Dispatch :=
| SendText (text : string)
| SetTimeout (delay : Z) (text : string).

Definition dispatch_text (d : Dispatch) : string :=
  match d with
  | SendText t => t
  | SetTimeout _ t => t
  end.

(** Milliseconds between the call of [executeTerminalCommands] and the
    send: none for a direct send, the time the timer waits for a deferred
    one. *)
Definition dispatch_offset (d : Dispatch) : Z :=
  match d with
  | SendText _ => 0%Z
  | SetTimeout delay _ => Js.setTimeout_delay delay
  end.

(** [o!] and template interpolation of an optional string known to be set. *)
Definition str (o : option string) : string :=
  match o with
  | Some s => s
  | None => EmptyString
  end.

Section Manager.

Context {path : Path.Api} {host : Host}.

(** [vscode.window.terminals.find(terminal => terminal.name === name)] *)
Definition findExistingTerminal (name : string) : M (option Terminal) :=
  fun s => (find (fun t => term_name t =? name) (window_terminals s), s).

(** [`${baseName} (${counter})`] *)
Definition uniqueName (baseName : string) (counter : nat) : string :=
  baseName ++ " (" ++ Js.string_of_number counter ++ ")".

(** The [while] loop of [generateUniqueTerminalName]; [fuel] bounds the
    iterations. *)
Fixpoint generateUniqueTerminalName_loop
  (fuel : nat) (baseName : string) (counter : nat) : M string :=
  existing <- findExistingTerminal (uniqueName baseName counter) ;;
  match existing, fuel with
  | Some _, S fuel' => generateUniqueTerminalName_loop fuel' baseName (S counter)
  | _, _ => ret (uniqueName baseName counter)
  end.

(** The loop leaves at a free name after at most as many rounds as there
    are live terminals ([generateUniqueTerminalName_free]), which is the
    fuel given here. *)
Definition generateUniqueTerminalName (baseName : string) : M string :=
  fun s =>
    generateUniqueTerminalName_loop (length (window_terminals s)) baseName 2 s.

(** [new vscode.ThemeColor(colorMap[color] || 'terminal.foreground')]:
    [colorMap[color]] is the own entry of the table, or else the member the
    object literal inherits under that key, both truthy; the fallback is
    for the keys found in neither place. *)
Definition getTerminalColor (color : string) : ThemeColor :=
  if color =? "red" then ThemeColor_of "terminal.ansiRed"
  else if color =? "orange" then ThemeColor_of "terminal.ansiYellow"
  else if color =? "yellow" then ThemeColor_of "terminal.ansiYellow"
  else if color =? "green" then ThemeColor_of "terminal.ansiGreen"
  else if color =? "blue" then ThemeColor_of "terminal.ansiBlue"
  else if color =? "purple" then ThemeColor_of "terminal.ansiMagenta"
  else if color =? "pink" then ThemeColor_of "terminal.ansiMagenta"
  else if color =? "black" then ThemeColor_of "terminal.ansiBlack"
  else if color =? "white" then ThemeColor_of "terminal.ansiWhite"
  else if Js.inherited color then ThemeColor_of_member color
  else ThemeColor_of "terminal.foreground".

(** [config.commands.forEach((cmd, index) => setTimeout(..., index * delay))] *)
Fixpoint forEach_command (index : nat) (delay : Z) (cmds : list string)
  : list Dispatch :=
  match cmds with
  | [] => []
  | cmd :: rest =>
      SetTimeout (Z.of_nat index * delay) cmd
        :: forEach_command (S index) delay rest
  end.

(** [config.commandDelay || 100] *)
Definition effective_delay (config : TerminalConfig) : Z :=
  match commandDelay config with
  | Some d => if (d =? 0)%Z then 100%Z else d
  | None => 100%Z
  end.

(** The sends [executeTerminalCommands(terminal, config, basePath)]
    makes on [terminal], in the order it makes them. *)
Definition executeTerminalCommands (config : TerminalConfig) (basePath : string)
  : list Dispatch :=
  if Js.truthy (script config) then
    let scriptPath :=
      if Path.isAbsolute (str (script config)) then str (script config)
      else Path.join basePath (str (script config)) in
    [SendText scriptPath]
  else
    match commands config with
    | Some (cmd :: rest) =>
        forEach_command 0 (effective_delay config) (cmd :: rest)
    | _ =>
        if Js.truthy (command config) then [SendText (str (command config))]
        else []
    end.

(** [projectBasePath || workspaceFolder?.uri.fsPath] *)
Definition basePath_of (projectBasePath : option string) : option string :=
  Js.or_else projectBasePath workspaceFolder.

(** The guard at the head of [createTerminal]. *)
Definition unresolvable (config : TerminalConfig) (projectBasePath : option string)
  : bool :=
  negb (Js.truthy (basePath_of projectBasePath))
  && Js.truthy (cwd config)
  && negb (Path.isAbsolute (str (cwd config))).

(** The constant [cwd] of [createTerminal]. *)
Definition resolve_cwd (config : TerminalConfig) (projectBasePath : option string)
  : option string :=
  if Js.truthy (cwd config) then
    if Path.isAbsolute (str (cwd config)) then cwd config
    else Some (Path.join (str (basePath_of projectBasePath)) (str (cwd config)))
  else basePath_of projectBasePath.

(** The name a request asks for, before the duplicate policy. *)
Definition effective_name (config : TerminalConfig) (projectBasePath : option string)
  : string :=
  if Js.truthy projectBasePath then
    "[" ++ Path.basename (str projectBasePath) ++ "] " ++ name config
  else name config.

Definition terminalOptions (config : TerminalConfig) (terminalName : string)
  (cwd' : option string) : TerminalOptions :=
  {| opt_name := terminalName;
     opt_cwd := cwd';
     opt_env := env config;
     opt_shellPath := shellPath config;
     opt_shellArgs := shellArgs config;
     opt_color := if Js.truthy (color config)
                  then Some (getTerminalColor (str (color config))) else None;
     opt_iconPath := if Js.truthy (icon config) then icon config else None |}.

(** The grace period before [executeTerminalCommands] runs; like the
    200 ms of the pause in a group, it is a delay [setTimeout] waits as
    given. *)
Definition grace : Z := 500%Z.

(** [setTimeout(() => this.executeTerminalCommands(terminal, config,
    cwd || basePath || ''), 500)], with the sends it leads to. *)
Definition schedule_commands (t : Terminal) (config : TerminalConfig)
  (basePath : string) : M unit :=
  t0 <- now ;;
  add_timers
    (map (fun d => {| due := (t0 + grace + dispatch_offset d)%Z;
                      target := term_id t;
                      text := dispatch_text d |})
         (executeTerminalCommands config basePath)).

(** The end of [createTerminal]: the options, the request to the host
    and the timer, under the name the duplicate policy settled on. *)
Definition create_as (config : TerminalConfig)
  (projectBasePath : option string) (terminalName : string)
  : M (option Terminal) :=
  let basePath := basePath_of projectBasePath in
  let cwd' := resolve_cwd config projectBasePath in
  let options := terminalOptions config terminalName cwd' in
  match createTerminal_throws options with
  | Some error =>
      showErrorMessage
        ("Failed to create terminal " ++ name config ++ ": " ++ error) ;;
      ret None
  | None =>
      terminal <- window_createTerminal options ;;
      schedule_commands terminal config
        (str (Js.or_else (Js.or_else cwd' basePath) (Some EmptyString))) ;;
      ret (Some terminal)
  end.

Definition createTerminal (config : TerminalConfig)
  (projectBasePath : option string) (duplicateAction : DuplicateAction)
  : M (option Terminal) :=
  if unresolvable config projectBasePath then
    showErrorMessage
      ("Cannot resolve relative path without base path: " ++ str (cwd config)) ;;
    ret None
  else
    let terminalName := effective_name config projectBasePath in
    existingTerminal <- findExistingTerminal terminalName ;;
    match existingTerminal, duplicateAction with
    | Some existing, Replace =>
        dispose existing ;;
        create_as config projectBasePath terminalName
    | Some _, Skip => ret None
    | Some _, Rename =>
        terminalName' <- generateUniqueTerminalName terminalName ;;
        create_as config projectBasePath terminalName'
    | _, _ => create_as config projectBasePath terminalName
    end.

(** The body of both creation loops: [createTerminal], then, for a
    terminal, [this.terminals.push] and [terminal.show(i === 0)]. *)
Definition launch_one (i : nat) (config : TerminalConfig)
  (projectBasePath : option string) (duplicateAction : DuplicateAction)
  : M (option Terminal) :=
  terminal <- createTerminal config projectBasePath duplicateAction ;;
  match terminal with
  | Some t => push t ;; show t (i =? 0)%nat ;; ret terminal
  | None => ret terminal
  end.

(** The [for] loop of [launchTerminalGroup], from index [i]; [len] is
    [group.terminals.length]. *)
Fixpoint launchTerminalGroup_loop (i len : nat) (ts : list TerminalConfig)
  (projectBasePath : option string) (duplicateAction : DuplicateAction)
  : M unit :=
  match ts with
  | [] => ret tt
  | config :: rest =>
      terminal <- launch_one i config projectBasePath duplicateAction ;;
      match terminal with
      | Some _ => if (i <? len - 1)%nat then sleep 200 else ret tt
      | None => ret tt
      end ;;
      launchTerminalGroup_loop (S i) len rest projectBasePath duplicateAction
  end.

Definition launchTerminalGroup (group : TerminalGroupConfig)
  (projectBasePath : option string) (duplicateAction : DuplicateAction)
  : M unit :=
  match group_terminals group with
  | None | Some [] => ret tt
  | Some ts =>
      launchTerminalGroup_loop 0 (length ts) ts projectBasePath duplicateAction
  end.

(** The [for] loop over [config.terminals] in [launchTerminals]. *)
Fixpoint launchTerminals_loop (i : nat) (ts : list TerminalConfig)
  (projectBasePath : option string) (duplicateAction : DuplicateAction)
  : M unit :=
  match ts with
  | [] => ret tt
  | config :: rest =>
      launch_one i config projectBasePath duplicateAction ;;
      launchTerminals_loop (S i) rest projectBasePath duplicateAction
  end.

(** The names [checkForDuplicateTerminals] collects. *)
Definition terminalNames (config : TerminalLauncherConfig)
  (projectBasePath : option string) : list string :=
  match groups config with
  | Some (g :: gs) =>
      flat_map
        (fun group =>
           match group_terminals group with
           | Some ts => map (fun t => effective_name t projectBasePath) ts
           | None => []
           end)
        (g :: gs)
  | _ =>
      match terminals config with
      | Some (t :: ts) =>
          map (fun t => effective_name t projectBasePath) (t :: ts)
      | _ => []
      end
  end.

(** [terminalNames.filter(name => this.findExistingTerminal(name) !==
    undefined)] *)
Definition duplicates (config : TerminalLauncherConfig)
  (projectBasePath : option string) (s : State) : list string :=
  filter
    (fun name =>
       match fst (findExistingTerminal name s) with
       | Some _ => true
       | None => false
       end)
    (terminalNames config projectBasePath).

Definition placeHolder (n : nat) : string :=
  "Found " ++ Js.string_of_number n ++ " existing terminal"
  ++ (if (1 <? n)%nat then "s" else "") ++ ". What should we do?".

(** [picked] is the answer of the quick pick, should it be shown:
    an entry, or [None] when the prompt is dismissed. *)
Definition checkForDuplicateTerminals (config : TerminalLauncherConfig)
  (projectBasePath : option string) (picked : option QuickPickItem)
  : M DuplicateAction :=
  fun s =>
    match duplicates config projectBasePath s with
    | _ :: _ =>
        (emit (ShowQuickPick
                 (placeHolder (length (duplicates config projectBasePath s)))) ;;
         ret match picked with
             | Some action => value action
             | None => Cancel
             end) s
    | [] => ret Proceed s
    end.

(** The part of [launchTerminals] after the [cancel] test. *)
Definition launch_requests (config : TerminalLauncherConfig)
  (projectBasePath : option string) (duplicateAction : DuplicateAction)
  : M unit :=
  match groups config with
  | Some (g :: gs) =>
      forEach
        (fun group => launchTerminalGroup group projectBasePath duplicateAction)
        (g :: gs)
  | _ =>
      match terminals config with
      | Some (t :: ts) =>
          launchTerminals_loop 0 (t :: ts) projectBasePath duplicateAction
      | _ => ret tt
      end
  end.

Definition launchTerminals (config : TerminalLauncherConfig)
  (projectBasePath : option string) (picked : option QuickPickItem)
  : M unit :=
  duplicateAction <- checkForDuplicateTerminals config projectBasePath picked ;;
  match duplicateAction with
  | Cancel => ret tt
  | _ => launch_requests config projectBasePath duplicateAction
  end.

(** [disposeTerminals()] *)
Definition disposeTerminals : M unit :=
  fun s =>
    let (_, s') := forEach dispose (this_terminals s) s in
    (tt, {| window_terminals := window_terminals s'; next_id := next_id s';
            clock := clock s'; timers := timers s'; trace := trace s';
            this_terminals := [] |}).

End Manager.

End TerminalManager.
Import TerminalManager.

(** A state for concrete runs: the given live terminal names, nothing else. *)
Definition named (n : string) : TerminalOptions :=
  {| opt_name := n; opt_cwd := None; opt_env := None; opt_shellPath := None;
     opt_shellArgs := None; opt_color := None; opt_iconPath := None |}.

Fixpoint live_from (i : nat) (names : list string) : list Terminal :=
  match names with
  | [] => []
  | n :: rest => {| term_id := i; term_options := named n |} :: live_from (S i) rest
  end.

Definition state_with (names : list string) : State :=
  {| window_terminals := live_from 0 names; next_id := length names;
     clock := 0; timers := []; trace := []; this_terminals := [] |}.

(** A host with the given workspace folder that accepts every request. *)
Definition host_with (folder : option string) : Host :=
  {| workspaceFolder := folder; createTerminal_throws := fun _ => None |}.

Definition simple (n : string) : TerminalConfig := ConfigParser.new_terminal n.

(** ** The parser as the specification words it

    A record is opened by a header line and owns the lines up to the next
    header; each record is built from its own lines alone. *)

Module ParserSpec.
Import ConfigParser.

Definition header (line : string) : bool := is_header (Js.trim line).

(** The lines up to the next header. *)
Fixpoint body_of (lines : list string) : list string :=
  match lines with
  | [] => []
  | l :: rest => if header l then [] else l :: body_of rest
  end.

(** One entry per header line, in order, with the lines it owns. *)
Fixpoint sections (lines : list string) : list (string * list string) :=
  match lines with
  | [] => []
  | l :: rest =>
      if header l then (l, body_of rest) :: sections rest else sections rest
  end.

(** A line inside an open record. *)
Definition apply_line (t : TerminalConfig) (line : string) : TerminalConfig :=
  let trimmed := Js.trim line in
  if Js.includes "=" trimmed
  then assign (key_of trimmed) (value_of trimmed) t
  else t.

Definition record_of (sec : string * list string) : TerminalConfig :=
  fold_left apply_line (snd sec)
    (new_terminal (Js.slice_1_m1 (Js.trim (fst sec)))).

Definition parse (content : string) : list TerminalConfig :=
  map record_of (sections (lines_of content)).

Definition has {A} (o : option A) (key : string) : list string :=
  match o with
  | Some _ => [key]
  | None => []
  end.

(** The properties set on a record besides [name]. *)
Definition keys_set (t : TerminalConfig) : list string :=
  has (cwd t) "cwd" ++ has (command t) "command"
  ++ has (commands t) "commands" ++ has (script t) "script"
  ++ has (commandDelay t) "commandDelay" ++ has (color t) "color"
  ++ has (icon t) "icon" ++ has (env t) "env"
  ++ has (shellPath t) "shellPath" ++ has (shellArgs t) "shellArgs".

(** The keys of the [key = value] lines among [lines]. *)
Definition keys_written (lines : list string) : list string :=
  map (fun l => Js.trim (key_of (Js.trim l)))
      (filter (fun l => Js.includes "=" (Js.trim l)) lines).

Definition recognized : list string :=
  ["cwd"; "command"; "commands"; "script"; "color"; "icon"].

(** *** The input as text

    What follows reads the input string itself: its lines, the lines of the
    form [[NAME]] and the lines of the form [KEY = VALUE], in the words of
    the specification and without the filter and the tests of the parser. *)

(** The pieces of the input between line feeds. *)
Definition text_lines (content : string) : list string :=
  Js.split "010"%char content.

(** A comment: the first character that is not white space is [#]. *)
Definition comment (line : string) : bool :=
  match Js.trimStart line with
  | String c _ => Ascii.eqb c "#"
  | EmptyString => false
  end.

(** NAME, for a line of the exact trimmed form [[NAME]]. *)
Definition name_in_brackets (line : string) : option string :=
  match Js.trim line with
  | String c r =>
      if Ascii.eqb c "[" && Js.endsWith "]" r then Some (Js.drop_last r) else None
  | EmptyString => None
  end.

(** The lines up to the next line of the form [[NAME]]. *)
Fixpoint block_body (lines : list string) : list string :=
  match lines with
  | [] => []
  | l :: rest =>
      match name_in_brackets l with
      | Some _ => []
      | None => l :: block_body rest
      end
  end.

(** One block per line of the form [[NAME]], in order: the name and the
    lines that follow up to the next such line. *)
Fixpoint blocks (lines : list string) : list (string * list string) :=
  match lines with
  | [] => []
  | l :: rest =>
      match name_in_brackets l with
      | Some n => (n, block_body rest) :: blocks rest
      | None => blocks rest
      end
  end.

(** The line is no comment and, trimmed, reads KEY, an equals sign and the
    rest, KEY holding no equals sign and being [k] once trimmed. *)
Definition assigns (k : string) (line : string) : Prop :=
  comment line = false
  /\ exists key rest,
       Js.trim line = key ++ "=" ++ rest
       /\ Js.includes "=" key = false
       /\ Js.trim key = k.

End ParserSpec.

(** ** The sentences of the specification about the manager

    Where a sentence speaks of a field being present or absent, the reading
    of "present" is a parameter: [given] takes the words as they stand (the
    field is there), [Js.truthy] and [filled] are the tests the code makes
    (there and not empty). *)

Module Spec.

Definition given {A} (o : option A) : bool :=
  match o with
  | Some _ => true
  | None => false
  end.

Definition filled (o : option (list string)) : bool :=
  match o with
  | Some (_ :: _) => true
  | _ => false
  end.

Inductive Source :=
| FromScript (scriptPath : string)
| FromCommands (cmds : list string)
| FromCommand (cmd : string)
| NoSource.

Definition texts_of (src : Source) : list string :=
  match src with
  | FromScript p => [p]
  | FromCommands cmds => cmds
  | FromCommand cmd => [cmd]
  | NoSource => []
  end.

Definition opt_list {A} (o : option A) : list A :=
  match o with
  | Some a => [a]
  | None => []
  end.

Inductive Resolution :=
| Resolved (cwd : option string)
| PathResolutionError.

(** The [show] calls of a piece of trace, in order. *)
Fixpoint shown (evs : list Event) : list (nat * bool) :=
  match evs with
  | [] => []
  | Show id flag :: rest => (id, flag) :: shown rest
  | _ :: rest => shown rest
  end.

(** The terminals created in a piece of trace, in order. *)
Fixpoint created (evs : list Event) : list Terminal :=
  match evs with
  | [] => []
  | CreateTerminal t :: rest => t :: created rest
  | _ :: rest => created rest
  end.

(** "The first created is brought to the foreground, all others are left
    in the background": the first terminal created is the one shown with
    the value [fg] of the argument of [show], every other one is shown
    with the opposite value or not at all. *)
Definition first_only (fg : bool) (evs : list Event) : Prop :=
  match created evs with
  | [] => shown evs = []
  | t :: others =>
      In (term_id t, fg) (shown evs)
      /\ forall u, In u others -> ~ In (term_id u, fg) (shown evs)
  end.

Section Sentences.

Context {path : Path.Api} {host : Host}.

Variable present : option string -> bool.
Variable has_commands : option (list string) -> bool.

(** Priority [script > commands > command] among the sources present. *)
Definition source_by (config : TerminalConfig) (basePath : string) : Source :=
  if present (script config) then
    FromScript (if Path.isAbsolute (str (script config))
                then str (script config)
                else Path.join basePath (str (script config)))
  else if has_commands (commands config) then
    FromCommands (match commands config with Some cmds => cmds | None => [] end)
  else if present (command config) then FromCommand (str (command config))
  else NoSource.

(** [basePath], or the first workspace folder when it is absent. *)
Definition base_by (projectBasePath : option string) : option string :=
  if present projectBasePath then projectBasePath else workspaceFolder.

(** An absolute [cwd] verbatim, a relative one joined to the base and an
    error when there is none, an absent one the base. *)
Definition resolution_by (config : TerminalConfig)
  (projectBasePath : option string) : Resolution :=
  if present (cwd config) then
    if Path.isAbsolute (str (cwd config)) then Resolved (cwd config)
    else if present (base_by projectBasePath) then
      Resolved (Some (Path.join (str (base_by projectBasePath)) (str (cwd config))))
    else PathResolutionError
  else Resolved (base_by projectBasePath).

End Sentences.

(** What [createTerminal] makes of [cwd]. *)
Definition resolution {path : Path.Api} {host : Host}
  (config : TerminalConfig) (projectBasePath : option string) : Resolution :=
  if unresolvable config projectBasePath then PathResolutionError
  else Resolved (resolve_cwd config projectBasePath).

(** [commandDelay], 100 when the field is absent. *)
Definition delay_when_absent (config : TerminalConfig) : Z :=
  match commandDelay config with
  | Some d => d
  | None => 100%Z
  end.

(** A terminal made from the request [config]: its options are those of
    the request, under the name the request asks for or a renaming of it. *)
Definition made_from {path : Path.Api} {host : Host}
  (projectBasePath : option string) (config : TerminalConfig) (t : Terminal) : Prop :=
  exists terminalName,
    term_options t
      = terminalOptions config terminalName (resolve_cwd config projectBasePath)
    /\ (terminalName = effective_name config projectBasePath
        \/ exists n, terminalName = uniqueName (effective_name config projectBasePath) n).

(** The terminals are made from requests of the list, one each, in the
    order of the list; requests may be left out. *)
Inductive launched_from {path : Path.Api} {host : Host}
  (projectBasePath : option string)
  : list TerminalConfig -> list Terminal -> Prop :=
| launched_nil : launched_from projectBasePath [] []
| launched_skip config configs ts :
    launched_from projectBasePath configs ts ->
    launched_from projectBasePath (config :: configs) ts
| launched_take config configs t ts :
    made_from projectBasePath config t ->
    launched_from projectBasePath configs ts ->
    launched_from projectBasePath (config :: configs) (t :: ts).

Definition unflagged (ts : list Terminal) : list (nat * bool) :=
  map (fun u => (term_id u, false)) ts.

(** [show(true)] for the first terminal, [show(false)] for the others. *)
Definition flag_first (ts : list Terminal) : list (nat * bool) :=
  match ts with
  | [] => []
  | t :: others => (term_id t, true) :: unflagged others
  end.

(** The names held by the live terminals. *)
Definition live_names (s : State) : list string :=
  map term_name (window_terminals s).

(** The requests of the groups, in declared order. *)
Definition group_requests (gs : list TerminalGroupConfig) : list TerminalConfig :=
  flat_map (fun g => match group_terminals g with Some ts => ts | None => [] end) gs.

(** The live terminals and the next identity: all that the outcome of a
    request depends on, besides the host. *)
Definition same_live (s s' : State) : Prop :=
  window_terminals s = window_terminals s' /\ next_id s = next_id s'.

(** "Launch the requests of the list in declared order": each request of
    the list is asked of [createTerminal], one after the other, none left
    out, each in the state the ones before it have left.  The terminals
    obtained, in that order, and the state left. *)
Fixpoint asked_in_turn {path : Path.Api} {host : Host}
  (projectBasePath : option string) (duplicateAction : DuplicateAction)
  (configs : list TerminalConfig) (s : State) : list Terminal * State :=
  match configs with
  | [] => ([], s)
  | config :: rest =>
      let r := createTerminal config projectBasePath duplicateAction s in
      let rs := asked_in_turn projectBasePath duplicateAction rest (snd r) in
      ((opt_list (fst r) ++ fst rs)%list, snd rs)
  end.

(** Every terminal created in the piece of trace is shown by the very
    next event, and nothing is shown elsewhere. *)
Fixpoint shown_at_once (evs : list Event) : bool :=
  match evs with
  | [] => true
  | CreateTerminal t :: rest =>
      match rest with
      | Show id _ :: rest' => (id =? term_id t)%nat && shown_at_once rest'
      | _ => false
      end
  | Show _ _ :: _ => false
  | _ :: rest => shown_at_once rest
  end.

End Spec.
Import Spec.

(** ** Concrete inputs *)

Module Sample.

Definition LF : string := String "010"%char EmptyString.

(** A POSIX platform with no workspace folder open. *)
#[export] Instance posix : Path.Api := Path.Posix.api.
#[export] Instance no_workspace : Host := host_with None.

Definition request (n : string) (script' : option string)
  (commands' : option (list string)) (command' : option string)
  (commandDelay' : option Z) (cwd' : option string) : TerminalConfig :=
  {| name := n; cwd := cwd'; command := command'; commands := commands';
     script := script'; commandDelay := commandDelay'; color := None;
     icon := None; env := None; shellPath := None; shellArgs := None |}.

(** A record of the custom format with the three sources written, the
    script left empty. *)
Definition all_three_text : string :=
  "[A]" ++ LF ++ "script =" ++ LF ++ "commands = a" ++ LF ++ "command = c".

Definition all_three : TerminalConfig :=
  request "A" (Some "") (Some ["a"]) (Some "c") None None.

Definition empty_command : TerminalConfig :=
  request "A" None (Some []) (Some "") None None.

Definition single_command : TerminalConfig :=
  request "A" None (Some []) (Some "ls") None None.

Definition zero_delay : TerminalConfig :=
  request "A" None (Some ["a"; "b"]) None (Some 0%Z) None.

Definition default_delay : TerminalConfig :=
  request "A" None (Some ["a"; "b"]) None None None.

Definition empty_cwd : TerminalConfig :=
  request "A" None None None None (Some "").

Definition relative_cwd : TerminalConfig :=
  request "A" None None None None (Some "./x").

Definition absolute_cwd : TerminalConfig :=
  request "A" None None None None (Some "/abs").

Definition group_of (ts : list TerminalConfig) : TerminalGroupConfig :=
  {| group_name := None; group_terminals := Some ts |}.

(** Two groups of one terminal each. *)
Definition two_groups : TerminalLauncherConfig :=
  {| version := None;
     groups := Some [group_of [simple "A"]; group_of [simple "B"]];
     terminals := None |}.

(** A group and an ungrouped list, both filled. *)
Definition both_filled : TerminalLauncherConfig :=
  {| version := None;
     groups := Some [group_of [simple "A"; simple "B"]];
     terminals := Some [simple "C"] |}.

Definition ungrouped (ts : list TerminalConfig) : TerminalLauncherConfig :=
  {| version := None; groups := None; terminals := Some ts |}.

Definition terminal (i : nat) (n : string) : Terminal :=
  {| term_id := i; term_options := named n |}.

End Sample.

(** ** [ConfigInitializer]: the configurations the wizard builds

    The prompts are answered beforehand: an input box gives a string or
    nothing, a quick pick gives the [value] of the entry picked or nothing.
    The labels of the entries, which only the display uses, are left out. *)

Module ConfigInitializer.

(** The [value]s of [this.colors] and of [this.icons]. *)
Definition colors : list string :=
  ["blue"; "green"; "red"; "yellow"; "orange"; "purple"; "pink"; "black"; "white"].

Definition icons : list string :=
  ["terminal"; "console"; "server"; "globe"; "database"; "browser"; "beaker";
   "bug"; "code"; "file-code"; "folder"; "folder-opened"; "play"; "run";
   "tools"; "gear"; "package"; "search"].

(** The answers to the prompts for one terminal. *)
Record Answers := {
  ans_name : option string;
  ans_color : option string;
  ans_icon : option string;
  ans_cwd : option string;
  ans_command : option string
}.

(** [...(text && text.trim() && { key: text.trim() })] *)
Definition trimmed_field (text : option string) : option string :=
  if Js.truthy text && Js.truthy (Some (Js.trim (str text)))
  then Some (Js.trim (str text))
  else None.

(** The object literal both setups build from the answers. *)
Definition terminal_of (n : string) (a : Answers) : TerminalConfig :=
  {| name := n;
     cwd := trimmed_field (ans_cwd a);
     command := trimmed_field (ans_command a);
     commands := None;
     script := None;
     commandDelay := None;
     color := ans_color a;
     icon := ans_icon a;
     env := None;
     shellPath := None;
     shellArgs := None |}.

Definition quickSetup (a : Answers) : option TerminalLauncherConfig :=
  if Js.truthy (ans_name a) then
    Some {| version := Some "1.0";
            groups := None;
            terminals := Some [terminal_of (str (ans_name a)) a] |}
  else None.

(** One round of the [while (addMore)] loop of [advancedSetup]: the answers
    for a terminal and the answer to "what next". *)
Record Round := {
  answers : Answers;
  continueAdding : option bool
}.

(** The loop, over the rounds the user goes through; when the rounds run
    out the next name prompt is dismissed. *)
Fixpoint advancedSetup_loop (rounds : list Round) (terminals : list TerminalConfig)
  : list TerminalConfig :=
  match rounds with
  | [] => terminals
  | r :: rest =>
      if Js.truthy (ans_name (answers r)) then
        let terminals' :=
          (terminals ++ [terminal_of (str (ans_name (answers r))) (answers r)])%list in
        match continueAdding r with
        | Some true => advancedSetup_loop rest terminals'
        | _ => terminals'
        end
      else terminals
  end.

Definition advancedSetup (groupName : option string) (rounds : list Round)
  : option TerminalLauncherConfig :=
  if Js.truthy groupName then
    match advancedSetup_loop rounds [] with
    | [] => None
    | terminals =>
        Some {| version := Some "1.0";
                groups := Some [{| group_name := groupName;
                                   group_terminals := Some terminals |}];
                terminals := None |}
    end
  else None.

Definition example_terminal (n : string) (cwd' command' : option string)
  (commands' : option (list string)) (color' icon' : string) : TerminalConfig :=
  {| name := n; cwd := cwd'; command := command'; commands := commands';
     script := None; commandDelay := None; color := Some color';
     icon := Some icon'; env := None; shellPath := None; shellArgs := None |}.

Definition createExampleTemplate : TerminalLauncherConfig :=
  {| version := Some "1.0";
     groups :=
       Some [{| group_name := Some "Full Stack Development";
                group_terminals :=
                  Some [example_terminal "Backend API" (Some "./backend") None
                          (Some ["npm install"; "npm run dev"]) "blue" "server";
                        example_terminal "Frontend UI" (Some "./frontend")
                          (Some "npm start") None "green" "browser";
                        example_terminal "Database" (Some "./")
                          (Some "docker-compose up db") None "orange" "database"] |}];
     terminals :=
       Some [example_terminal "Tests" None (Some "npm test -- --watch") None
               "yellow" "beaker"] |}.

End ConfigInitializer.

(** ** Bookkeeping of a launch *)

Module Ledger.

(** The events of the trace of [s'] past those of [s]. *)
Definition events_since (s s' : State) : list Event :=
  skipn (length (trace s)) (trace s').

(** [s'] comes after [s]: its trace continues that of [s]. *)
Definition extends (s s' : State) : Prop :=
  trace s' = (trace s ++ events_since s s')%list.

Definition tracked (registry : list Terminal) (u : Terminal) : bool :=
  existsb (fun t => (term_id t =? term_id u)%nat) registry.

(** Every live terminal was handed out before [next_id]. *)
Definition ids_below (s : State) : Prop :=
  forall t, In t (window_terminals s) -> term_id t < next_id s.

(** The terminals created between [s] and [s'], in order. *)
Definition born (s s' : State) : list Terminal := created (events_since s s').

(** What a launch keeps in order, whatever the policy: the registry grows
    by the terminals created, which get the next identities; a live
    terminal was live before or was created; the new timers are for
    terminals created; the clock does not go back. *)
Definition books (s s' : State) : Prop :=
  extends s s'
  /\ this_terminals s' = (this_terminals s ++ born s s')%list
  /\ map term_id (born s s') = seq (next_id s) (length (born s s'))
  /\ next_id s' = next_id s + length (born s s')
  /\ (forall t, In t (window_terminals s') ->
                In t (window_terminals s) \/ In t (born s s'))
  /\ (exists new,
        timers s' = (timers s ++ new)%list
        /\ Forall (fun tm => In (target tm) (map term_id (born s s'))) new)
  /\ (clock s <= clock s')%Z.

(** Under a policy other than replace: the live terminals are those live
    before, then those created. *)
Definition keeps_live (s s' : State) : Prop :=
  extends s s'
  /\ window_terminals s' = (window_terminals s ++ born s s')%list.

(** Live names stay distinct and no live terminal goes away. *)
Definition keeps_distinct (s s' : State) : Prop :=
  incl (window_terminals s) (window_terminals s')
  /\ (NoDup (live_names s) -> NoDup (live_names s')).

(** The requests a launch goes through: those of the groups when there is
    a group, those of the ungrouped list otherwise. *)
Definition requests (config : TerminalLauncherConfig) : list TerminalConfig :=
  match groups config with
  | Some (g :: gs) => group_requests (g :: gs)
  | _ => match terminals config with
         | Some ts => ts
         | None => []
         end
  end.

(** [cwd || basePath || '']: what [createTerminal] hands to
    [executeTerminalCommands] as the base of a relative script. *)
Definition script_base {path : Path.Api} {host : Host}
  (config : TerminalConfig) (projectBasePath : option string) : string :=
  str (Js.or_else (Js.or_else (resolve_cwd config projectBasePath)
                              (basePath_of projectBasePath))
                  (Some EmptyString)).

(** The options of the terminal a request asks for. *)
Definition options_of {path : Path.Api} {host : Host}
  (base : option string) (c : TerminalConfig) : TerminalOptions :=
  terminalOptions c (effective_name c base) (resolve_cwd c base).

(** The timer a dispatch of [executeTerminalCommands] becomes once the
    grace period has started at [t0]. *)
Definition timer_of (t0 : Z) (t : Terminal) (d : Dispatch) : Scheduled :=
  {| due := (t0 + grace + dispatch_offset d)%Z;
     target := term_id t;
     text := dispatch_text d |}.

(** The value the last line of [body] with the key [key] gives it, [acc]
    when there is none. *)
Definition assigned_from (key : string) (acc : option string) (body : list string)
  : option string :=
  fold_left
    (fun acc l =>
       if Js.includes "=" (Js.trim l)
          && (Js.trim (ConfigParser.key_of (Js.trim l)) =? key)
       then Some (ConfigParser.value_of (Js.trim l))
       else acc)
    body acc.

Definition last_assigned (key : string) (body : list string) : option string :=
  assigned_from key None body.

(** [value.split(';').map(cmd => cmd.trim())] *)
Definition commands_of (value : string) : list string :=
  map Js.trim (Js.split ";"%char value).

(** The pairs of distinct colours that [getTerminalColor] sends to the
    same colour of the host. *)
Definition collapsing (c1 c2 : string) : bool :=
  ((c1 =? "orange") && (c2 =? "yellow")) || ((c1 =? "yellow") && (c2 =? "orange"))
  || ((c1 =? "purple") && (c2 =? "pink")) || ((c1 =? "pink") && (c2 =? "purple")).

(** "A pause of 200 ms follows each terminal created, except one created
    from the last entry": the entries of a group before its last one,
    launched in order from the index [i], with the pause after each entry
    that gives a terminal. *)
Fixpoint launched_with_pauses {path : Path.Api} {host : Host}
  (base : option string) (action : DuplicateAction) (i : nat)
  (front : list TerminalConfig) (s : State) : State :=
  match front with
  | [] => s
  | config :: rest =>
      let r := launch_one i config base action s in
      launched_with_pauses base action (S i) rest
        (match fst r with
         | Some _ => exec (sleep 200) (snd r)
         | None => snd r
         end)
  end.

End Ledger.
Import Ledger.

(** ** Further concrete inputs *)

Module Cases.
Import Sample ConfigInitializer.

(** A record of the custom format with a list of two commands. *)
Definition commands_text : string := "[A]" ++ LF ++ "commands = a; b".

(** A relative script in a relative working directory. *)
Definition script_request : TerminalConfig :=
  request "A" (Some "run.sh") None None None (Some "./backend").

(** A group without terminals beside a filled ungrouped list. *)
Definition empty_group : TerminalLauncherConfig :=
  {| version := None;
     groups := Some [group_of []];
     terminals := Some [simple "C"] |}.

(** Answers with a blank working directory and a padded command. *)
Definition quick_answers : Answers :=
  {| ans_name := Some "Dev"; ans_color := Some "blue"; ans_icon := None;
     ans_cwd := Some "  "; ans_command := Some " npm run dev " |}.

Definition answers_for (n : string) : Answers :=
  {| ans_name := Some n; ans_color := None; ans_icon := None;
     ans_cwd := None; ans_command := None |}.

(** Two terminals, then a dismissed "what next", then a round never asked. *)
Definition three_rounds : list Round :=
  [{| answers := answers_for "Api"; continueAdding := Some true |};
   {| answers := answers_for "Web"; continueAdding := None |};
   {| answers := answers_for "Db"; continueAdding := Some true |}].

End Cases.

(** * Properties *)

(** ** The custom-format parser *)

Section ParserProperties.
Import ConfigParser ParserSpec.

Ltac one_field o :=
  unfold keys_set; cbn [cwd command commands script commandDelay color icon
    env shellPath shellArgs set_cwd set_command set_commands set_script
    set_color set_icon];
  repeat rewrite in_app_iff; destruct o; cbn [has In]; tauto.

Lemma keys_set_cwd v t k :
  In k (keys_set (set_cwd v t)) <-> "cwd" = k \/ In k (keys_set t).
Proof. one_field (cwd t). Qed.

Lemma keys_set_command v t k :
  In k (keys_set (set_command v t)) <-> "command" = k \/ In k (keys_set t).
Proof. one_field (command t). Qed.

Lemma keys_set_commands v t k :
  In k (keys_set (set_commands v t)) <-> "commands" = k \/ In k (keys_set t).
Proof. one_field (commands t). Qed.

Lemma keys_set_script v t k :
  In k (keys_set (set_script v t)) <-> "script" = k \/ In k (keys_set t).
Proof. one_field (script t). Qed.

Lemma keys_set_color v t k :
  In k (keys_set (set_color v t)) <-> "color" = k \/ In k (keys_set t).
Proof. one_field (color t). Qed.

Lemma keys_set_icon v t k :
  In k (keys_set (set_icon v t)) <-> "icon" = k \/ In k (keys_set t).
Proof. one_field (icon t). Qed.

(** An assignment adds its key when the key is a recognized one, and
    nothing otherwise. *)
Lemma keys_set_assign (key value k : string) (t : TerminalConfig) :
  In k (keys_set (assign key value t)) <->
  In k (keys_set t) \/ (k = Js.trim key /\ In k recognized).
Proof.
  unfold assign, recognized.
  destruct (String.eqb_spec (Js.trim key) "cwd") as [e|n1];
    [rewrite e, keys_set_cwd; cbn [In]; intuition (subst; auto)|].
  destruct (String.eqb_spec (Js.trim key) "command") as [e|n2];
    [rewrite e, keys_set_command; cbn [In]; intuition (subst; auto)|].
  destruct (String.eqb_spec (Js.trim key) "commands") as [e|n3];
    [rewrite e, keys_set_commands; cbn [In]; intuition (subst; auto)|].
  destruct (String.eqb_spec (Js.trim key) "script") as [e|n4];
    [rewrite e, keys_set_script; cbn [In]; intuition (subst; auto)|].
  destruct (String.eqb_spec (Js.trim key) "color") as [e|n5];
    [rewrite e, keys_set_color; cbn [In]; intuition (subst; auto)|].
  destruct (String.eqb_spec (Js.trim key) "icon") as [e|n6];
    [rewrite e, keys_set_icon; cbn [In]; intuition (subst; auto)|].
  cbn [In]. intuition (subst; congruence).
Qed.

Lemma keys_set_apply_line (t : TerminalConfig) (line k : string) :
  In k (keys_set (apply_line t line)) <->
  In k (keys_set t) \/ (In k (keys_written [line]) /\ In k recognized).
Proof.
  unfold apply_line, keys_written. cbn [filter].
  destruct (Js.includes "=" (Js.trim line)); cbn [map In].
  - rewrite keys_set_assign. intuition (subst; auto).
  - tauto.
Qed.

Lemma keys_written_cons (l : string) (ls : list string) (k : string) :
  In k (keys_written (l :: ls)) <->
  In k (keys_written [l]) \/ In k (keys_written ls).
Proof.
  unfold keys_written. cbn [filter].
  destruct (Js.includes "=" (Js.trim l)); cbn [map In]; tauto.
Qed.

Lemma keys_set_fold (body : list string) (t : TerminalConfig) (k : string) :
  In k (keys_set (fold_left apply_line body t)) <->
  In k (keys_set t) \/ (In k (keys_written body) /\ In k recognized).
Proof.
  revert t. induction body as [|l body IH]; intros t; cbn [fold_left].
  - unfold keys_written; cbn. tauto.
  - rewrite IH, keys_set_apply_line, (keys_written_cons l body). tauto.
Qed.

(** The loop of the parser, from any state: the open record takes the
    lines up to the next header, the later ones are built on their own. *)
Lemma fold_step_sections (lines : list string) (st : Loop) :
  finish (fold_left step lines st) =
  (pushed st
   ++ match currentTerminal st with
      | Some t => [fold_left apply_line (body_of lines) t]
      | None => []
      end
   ++ map record_of (sections lines))%list.
Proof.
  revert st. induction lines as [|l rest IH]; intros st.
  - cbn. unfold finish. destruct (currentTerminal st); cbn.
    + reflexivity.
    + now rewrite app_nil_r.
  - cbn [fold_left body_of sections]. rewrite IH. unfold step, header.
    destruct (is_header (Js.trim l)) eqn:Hh.
    + cbn [currentTerminal pushed map fold_left]. unfold record_of.
      cbn [fst snd].
      destruct (currentTerminal st); cbn; now rewrite <- ?app_assoc.
    + destruct (currentTerminal st) as [t|] eqn:Hc.
      * cbn [fold_left]. unfold apply_line at 3.
        destruct (Js.includes "=" (Js.trim l)) eqn:Hi.
        -- reflexivity.
        -- now rewrite Hc.
      * now rewrite Hc.
Qed.

Lemma sections_count (lines : list string) :
  length (sections lines) = length (filter header lines)
  /\ map fst (sections lines) = filter header lines.
Proof.
  induction lines as [|l rest [IH1 IH2]]; cbn; [auto|].
  destruct (header l); cbn; auto using f_equal.
Qed.

Lemma name_assign key value t : name (assign key value t) = name t.
Proof.
  unfold assign.
  repeat match goal with
         | |- context [String.eqb ?a ?b] => destruct (String.eqb a b)
         end; reflexivity.
Qed.

Lemma name_fold (body : list string) (t : TerminalConfig) :
  name (fold_left apply_line body t) = name t.
Proof.
  revert t. induction body as [|l body IH]; intros t; cbn [fold_left]; [easy|].
  rewrite IH. unfold apply_line.
  destruct (Js.includes "=" (Js.trim l)); [apply name_assign | reflexivity].
Qed.

(** Nothing is pushed before a record is open. *)
Lemma pushed_needs_open (lines : list string) (st : Loop) :
  (currentTerminal st = None -> pushed st = []) ->
  currentTerminal (fold_left step lines st) = None ->
  pushed (fold_left step lines st) = [].
Proof.
  revert st. induction lines as [|l rest IH]; intros st Hst; cbn [fold_left]; [easy|].
  apply IH. unfold step.
  destruct (is_header (Js.trim l)); [discriminate|].
  destruct (currentTerminal st) eqn:Hc.
  - destruct (Js.includes "=" (Js.trim l)); cbn; [discriminate | congruence].
  - rewrite Hc. exact Hst.
Qed.

(** While the loop runs, the record still open is the only one not yet in
    the output. *)
Lemma pushed_is_all_but_open (pre : list string) :
  pushed (fold_left step pre start) = removelast (map record_of (sections pre)).
Proof.
  pose proof (fold_step_sections pre start) as H. cbn in H. rewrite <- H.
  unfold finish.
  destruct (currentTerminal (fold_left step pre start)) eqn:Hc.
  - now rewrite removelast_last.
  - rewrite (pushed_needs_open pre start); auto.
Qed.

(** The loop of the parser, section by section of the lines it keeps. *)
Lemma parseCustomFormat_by_sections (content : string) :
  terminals (parseCustomFormat content) = Some (parse content)
  /\ parse content = map record_of (sections (lines_of content))
  /\ groups (parseCustomFormat content) = None
  /\ map fst (sections (lines_of content)) = filter header (lines_of content)
  /\ (forall n,
        pushed (fold_left step (firstn n (lines_of content)) start)
          = removelast (map record_of (sections (firstn n (lines_of content)))))
  /\ (forall sec,
        name (record_of sec) = Js.slice_1_m1 (Js.trim (fst sec))
        /\ forall k, In k (keys_set (record_of sec)) <->
                     In k (keys_written (snd sec)) /\ In k recognized).
Proof.
  split; [|split; [|split; [|split; [|split]]]].
  - unfold parseCustomFormat, parse. cbn [terminals]. f_equal.
    now rewrite fold_step_sections.
  - reflexivity.
  - reflexivity.
  - apply sections_count.
  - intros n. apply pushed_is_all_but_open.
  - intros sec. split.
    + unfold record_of. now rewrite name_fold.
    + intros k. unfold record_of. rewrite keys_set_fold.
      cbn. tauto.
Qed.

End ParserProperties.

(** ** Command dispatch *)

Section DispatchProperties.

Context {path : Path.Api} {host : Host}.

Lemma forEach_command_texts (i : nat) (delay : Z) (cmds : list string) :
  map dispatch_text (forEach_command i delay cmds) = cmds.
Proof.
  revert i. induction cmds as [|c cmds IH]; intros i; cbn; [easy|].
  now rewrite IH.
Qed.

Lemma forEach_command_nth (k : nat) (delay : Z) (cmds : list string) (i : nat) :
  nth_error (forEach_command k delay cmds) i
  = option_map (SetTimeout (Z.of_nat (k + i) * delay)) (nth_error cmds i).
Proof.
  revert k i. induction cmds as [|c cmds IH]; intros k [|i]; cbn; try easy.
  - now rewrite Nat.add_0_r.
  - rewrite IH. now replace (S k + i)%nat with (k + S i)%nat by lia.
Qed.

Lemma forEach_command_length (k : nat) (delay : Z) (cmds : list string) :
  length (forEach_command k delay cmds) = length cmds.
Proof.
  revert k. induction cmds as [|c cmds IH]; intros k; cbn; [easy|].
  now rewrite IH.
Qed.

(** C2, amended. Command dispatch sends text from exactly one source, the
    first in the order script, commands, command that is present and not
    empty (a non-empty string, a non-empty list): a non-empty script alone
    is sent, as its resolved path, whatever the other two fields hold; and
    when each of the three is absent or empty nothing is sent. *)
Theorem dispatch_by_priority (config : TerminalConfig) (basePath : string) :
  map dispatch_text (executeTerminalCommands config basePath)
    = texts_of (source_by Js.truthy filled config basePath)
  /\ (Js.truthy (script config) = true ->
      executeTerminalCommands config basePath
        = [SendText (if Path.isAbsolute (str (script config))
                     then str (script config)
                     else Path.join basePath (str (script config)))])
  /\ (Js.truthy (script config) = false ->
      filled (commands config) = false ->
      Js.truthy (command config) = false ->
      executeTerminalCommands config basePath = []).
Proof.
  unfold executeTerminalCommands, source_by.
  destruct (Js.truthy (script config)); [cbn; intuition discriminate|].
  destruct (commands config) as [[|c cmds]|]; cbn [filled].
  - destruct (Js.truthy (command config)); cbn; intuition discriminate.
  - rewrite forEach_command_texts. cbn. intuition discriminate.
  - destruct (Js.truthy (command config)); cbn; intuition discriminate.
Qed.

(** C10, amended. For every TerminalConfig with no script, whose commands
    field is the empty list and whose command field is present and not the
    empty string, command dispatch sends the single command: the empty
    list neither takes priority over command nor suppresses it. *)
Theorem empty_commands_fall_through
  (config : TerminalConfig) (basePath cmd : string) :
  script config = None ->
  commands config = Some [] ->
  command config = Some cmd ->
  cmd <> EmptyString ->
  executeTerminalCommands config basePath = [SendText cmd].
Proof.
  intros Hs Hc Hm Hne. unfold executeTerminalCommands.
  rewrite Hs, Hc, Hm. cbn. destruct cmd; [contradiction | reflexivity].
Qed.

(** X25. For a request whose effective source is commands (no non-empty
    script, a non-empty list) and whose commandDelay d is an integer other
    than 0, or is absent, d being 100 then: the entries are handed to one
    timer each, in array order, the i-th with the argument i * d; a timer
    waits its argument when that lies between 1 and 2^31 - 1 and 1 ms
    otherwise, from the end of the grace period; so with d at least 1 and
    every argument within that bound, the i-th entry, for i at least 1, is
    due i * d ms after the grace period, and the first 1 ms after it. *)
Theorem commands_spaced_by_delay
  (config : TerminalConfig) (basePath : string) (cmds : list string) (d : Z) :
  Js.truthy (script config) = false ->
  commands config = Some cmds ->
  cmds <> [] ->
  (commandDelay config = Some d /\ d <> 0%Z)
  \/ (commandDelay config = None /\ d = 100%Z) ->
  map dispatch_text (executeTerminalCommands config basePath) = cmds
  /\ (forall i cmd, nth_error cmds i = Some cmd ->
        nth_error (executeTerminalCommands config basePath) i
          = Some (SetTimeout (Z.of_nat i * d) cmd))
  /\ (forall t s i cmd, nth_error cmds i = Some cmd ->
        nth_error (timers (exec (schedule_commands t config basePath) s))
                  (length (timers s) + i)
          = Some {| due := clock s + 500
                           + (if ((1 <=? Z.of_nat i * d)
                                  && (Z.of_nat i * d <=? 2147483647))%Z
                              then Z.of_nat i * d else 1);
                    target := term_id t; text := cmd |})
  /\ ((1 <= d)%Z -> (Z.of_nat (length cmds - 1) * d <= 2147483647)%Z ->
      forall t s i cmd, nth_error cmds i = Some cmd ->
        nth_error (timers (exec (schedule_commands t config basePath) s))
                  (length (timers s) + i)
          = Some {| due := clock s + 500
                           + (if (i =? 0)%nat then 1 else Z.of_nat i * d);
                    target := term_id t; text := cmd |}).
Proof.
  intros Hs Hc Hne Hd.
  assert (Hdelay : effective_delay config = d).
  { unfold effective_delay.
    destruct Hd as [[-> Hd] | [-> ->]]; [|reflexivity].
    destruct (Z.eqb_spec d 0); [contradiction | reflexivity]. }
  assert (He : executeTerminalCommands config basePath
               = forEach_command 0 d cmds).
  { unfold executeTerminalCommands. rewrite Hs, Hc, Hdelay.
    destruct cmds; [contradiction | reflexivity]. }
  assert (Hdue : forall t s i cmd, nth_error cmds i = Some cmd ->
        nth_error (timers (exec (schedule_commands t config basePath) s))
                  (length (timers s) + i)
          = Some {| due := clock s + 500 + Js.setTimeout_delay (Z.of_nat i * d);
                    target := term_id t; text := cmd |}).
  { intros t s i cmd Hi. unfold exec, schedule_commands, bind, now, add_timers.
    cbn [snd timers]. rewrite nth_error_app2 by lia.
    replace (length (timers s) + i - length (timers s))%nat with i by lia.
    rewrite nth_error_map, He, forEach_command_nth, Hi. reflexivity. }
  split; [|split; [|split]].
  - rewrite He. apply forEach_command_texts.
  - intros i cmd Hi. rewrite He, forEach_command_nth, Hi. reflexivity.
  - exact Hdue.
  - intros H1 Hmax t s i cmd Hi. rewrite (Hdue t s i cmd Hi).
    do 3 f_equal. unfold Js.setTimeout_delay.
    assert (Hlt : (i < length cmds)%nat).
    { apply nth_error_Some. rewrite Hi. discriminate. }
    destruct i as [|i]; [reflexivity|]. cbn [Nat.eqb].
    assert (Hle : (Z.of_nat (S i) * d <= Z.of_nat (length cmds - 1) * d)%Z)
      by (apply Z.mul_le_mono_nonneg_r; lia).
    destruct (Z.leb_spec 1 (Z.of_nat (S i) * d)); [|nia].
    destruct (Z.leb_spec (Z.of_nat (S i) * d) 2147483647); [reflexivity | lia].
Qed.

End DispatchProperties.

(** ** The manager: what one request does to the state *)

Section RequestProperties.

Context {path : Path.Api} {host : Host}.

Lemma shown_app (a b : list Event) : shown (a ++ b) = (shown a ++ shown b)%list.
Proof.
  induction a as [|[] a IH]; cbn; try easy. now rewrite IH.
Qed.

Lemma created_app (a b : list Event) :
  created (a ++ b) = (created a ++ created b)%list.
Proof.
  induction a as [|[] a IH]; cbn; try easy. now rewrite IH.
Qed.

Lemma generateUniqueTerminalName_loop_state fuel baseName counter s :
  snd (generateUniqueTerminalName_loop fuel baseName counter s) = s.
Proof.
  revert counter. induction fuel as [|fuel IH]; intros counter; cbn;
    unfold bind, findExistingTerminal, ret;
    destruct (find _ (window_terminals s)); cbn; auto.
Qed.

Lemma generateUniqueTerminalName_state baseName s :
  snd (generateUniqueTerminalName baseName s) = s.
Proof. apply generateUniqueTerminalName_loop_state. Qed.

(** [create_as] appends its events to the trace; it creates at most one
    terminal, with the options of the request under the given name, and
    shows none. *)
Lemma create_as_events config base terminalName s :
  exists evs,
    trace (snd (create_as config base terminalName s)) = (trace s ++ evs)%list
    /\ shown evs = []
    /\ created evs = opt_list (fst (create_as config base terminalName s))
    /\ forall t, fst (create_as config base terminalName s) = Some t ->
         term_options t
           = terminalOptions config terminalName (resolve_cwd config base).
Proof.
  unfold create_as.
  destruct (createTerminal_throws _) as [err|]; cbn.
  - eexists; split; [reflexivity|]. cbn. intuition discriminate.
  - eexists; split; [reflexivity|]. cbn. repeat split.
    intros t [= <-]. reflexivity.
Qed.

(** [createTerminal] case by case, the monad unfolded. *)
Lemma createTerminal_eq config base action s :
  createTerminal config base action s =
  if unresolvable config base then
    (None, snd (showErrorMessage
                  ("Cannot resolve relative path without base path: "
                   ++ str (cwd config)) s))
  else
    match find (fun t => term_name t =? effective_name config base)
               (window_terminals s), action with
    | Some existing, Replace =>
        create_as config base (effective_name config base)
          (snd (dispose existing s))
    | Some _, Skip => (None, s)
    | Some _, Rename =>
        create_as config base
          (fst (generateUniqueTerminalName (effective_name config base) s)) s
    | _, _ => create_as config base (effective_name config base) s
    end.
Proof.
  unfold createTerminal.
  destruct (unresolvable config base); [reflexivity|].
  unfold bind, findExistingTerminal.
  destruct (find _ (window_terminals s)) as [existing|]; [|reflexivity].
  destruct action; try reflexivity.
  pose proof (generateUniqueTerminalName_state (effective_name config base) s) as Hs.
  destruct (generateUniqueTerminalName (effective_name config base) s) as [n' s1].
  cbn in Hs. now subst s1.
Qed.

Lemma generateUniqueTerminalName_shape baseName s :
  exists n, fst (generateUniqueTerminalName baseName s) = uniqueName baseName n.
Proof.
  unfold generateUniqueTerminalName.
  generalize (length (window_terminals s)) as fuel. generalize 2 as counter.
  intros counter fuel. revert counter.
  induction fuel as [|fuel IH]; intros counter; cbn;
    unfold bind, findExistingTerminal, ret;
    destruct (find _ (window_terminals s)); cbn; eauto.
Qed.

Lemma createTerminal_events config base action s :
  exists evs,
    trace (snd (createTerminal config base action s)) = (trace s ++ evs)%list
    /\ shown evs = []
    /\ created evs = opt_list (fst (createTerminal config base action s))
    /\ forall t, fst (createTerminal config base action s) = Some t ->
         made_from base config t.
Proof.
  rewrite createTerminal_eq.
  destruct (unresolvable config base).
  { eexists; split; [reflexivity|]. cbn. intuition discriminate. }
  set (n := effective_name config base).
  assert (Hplain : forall n', (n' = n \/ exists k, n' = uniqueName n k) ->
    exists evs,
    trace (snd (create_as config base n' s)) = (trace s ++ evs)%list
    /\ shown evs = []
    /\ created evs = opt_list (fst (create_as config base n' s))
    /\ forall t, fst (create_as config base n' s) = Some t ->
         made_from base config t).
  { intros n' Hn'.
    destruct (create_as_events config base n' s) as (evs & H1 & H2 & H3 & H4).
    exists evs. repeat split; auto. intros t Ht. exists n'. auto. }
  destruct (find _ (window_terminals s)) as [existing|]; [|apply Hplain; auto].
  destruct action; try (apply Hplain; auto).
  - (* replace *)
    destruct (create_as_events config base n (snd (dispose existing s)))
      as (evs & H1 & H2 & H3 & H4).
    exists (Dispose (term_id existing) :: evs).
    rewrite H1. cbn. rewrite <- app_assoc. repeat split; auto.
    intros t Hr. exists n. auto.
  - (* skip *)
    exists []. cbn. rewrite app_nil_r. intuition discriminate.
  - (* rename *)
    right. apply generateUniqueTerminalName_shape.
Qed.

Lemma launch_one_result i config base action s :
  fst (launch_one i config base action s)
  = fst (createTerminal config base action s).
Proof.
  unfold launch_one, bind.
  destruct (createTerminal config base action s) as [[t|] s1]; reflexivity.
Qed.

(** One round of a creation loop: what [createTerminal] appended, then the
    [show] of the terminal, if there is one, with [i === 0]. *)
Lemma launch_one_events i config base action s :
  exists evs,
    trace (snd (launch_one i config base action s)) = (trace s ++ evs)%list
    /\ created evs = opt_list (fst (createTerminal config base action s))
    /\ shown evs
       = map (fun t => (term_id t, (i =? 0)%nat))
             (opt_list (fst (createTerminal config base action s)))
    /\ launched_from base [config] (created evs).
Proof.
  destruct (createTerminal_events config base action s)
    as (evs & H1 & H2 & H3 & H4).
  unfold launch_one, bind.
  destruct (createTerminal config base action s) as [[t|] s1]; cbn in *.
  - exists (evs ++ [Show (term_id t) (i =? 0)%nat])%list.
    rewrite H1, app_assoc, shown_app, created_app, H2, H3. cbn.
    repeat split. apply launched_take; [auto | constructor].
  - exists evs. rewrite H3. repeat split; auto. apply launched_skip. constructor.
Qed.

Lemma launched_from_app base cs1 cs2 ts1 ts2 :
  launched_from base cs1 ts1 -> launched_from base cs2 ts2 ->
  launched_from base (cs1 ++ cs2) (ts1 ++ ts2).
Proof.
  induction 1; intros H2; cbn; auto; now constructor; auto.
Qed.

End RequestProperties.

(** ** The rename policy *)

Section RenameProperties.

Context {path : Path.Api} {host : Host}.

Lemma append_inj_l (a x y : string) : a ++ x = a ++ y -> x = y.
Proof. induction a as [|c a IH]; cbn; [easy|]. intros [= H]. auto. Qed.

Lemma append_char_inj_r (c : ascii) (x : string) :
  forall y, x ++ String c "" = y ++ String c "" -> x = y.
Proof.
  induction x as [|a x IH]; intros [|b y]; cbn; try easy.
  - intros [= _ H]. destruct y; discriminate.
  - intros [= _ H]. destruct x; discriminate.
  - intros [= -> H]. f_equal. auto.
Qed.

Lemma string_of_number_inj (n m : nat) :
  Js.string_of_number n = Js.string_of_number m -> n = m.
Proof.
  unfold Js.string_of_number. intros H.
  apply (f_equal NilEmpty.uint_of_string) in H.
  rewrite !NilEmpty.usu in H. injection H as H.
  apply (f_equal Nat.of_uint) in H.
  now rewrite !DecimalNat.Unsigned.of_to in H.
Qed.

Lemma uniqueName_inj (baseName : string) (n m : nat) :
  uniqueName baseName n = uniqueName baseName m -> n = m.
Proof.
  unfold uniqueName. intros H.
  apply append_inj_l, append_inj_l, append_char_inj_r in H.
  now apply string_of_number_inj.
Qed.

Lemma find_name_none (n : string) (l : list Terminal) :
  find (fun t => term_name t =? n) l = None <-> ~ In n (map term_name l).
Proof.
  induction l as [|t l IH]; cbn; [tauto|].
  destruct (String.eqb_spec (term_name t) n) as [->|Hne].
  - split; [discriminate | tauto].
  - rewrite IH. tauto.
Qed.

(** As many consecutive candidates as are all taken fit among the live
    names, for they are distinct. *)
Lemma taken_candidates_bound (baseName : string) (names : list string) (c k : nat) :
  (forall m, c <= m < c + k -> In (uniqueName baseName m) names) ->
  k <= length names.
Proof.
  intros H.
  rewrite <- (length_seq k c), <- (length_map (uniqueName baseName)).
  apply NoDup_incl_length.
  - apply Finite.Injective_map_NoDup_in; [|apply seq_NoDup].
    intros n m _ _. apply uniqueName_inj.
  - intros x Hx. apply in_map_iff in Hx as (m & <- & Hm).
    apply in_seq in Hm. apply H. lia.
Qed.

(** The loop from [counter] with [fuel] rounds left: it stops at the
    first candidate that is free, or at the last one it may try. *)
Lemma generateUniqueTerminalName_loop_spec (baseName : string) (s : State) :
  forall fuel counter,
  exists n,
    counter <= n <= counter + fuel
    /\ fst (generateUniqueTerminalName_loop fuel baseName counter s)
       = uniqueName baseName n
    /\ (forall m, counter <= m < n -> In (uniqueName baseName m) (live_names s))
    /\ (n < counter + fuel -> ~ In (uniqueName baseName n) (live_names s)).
Proof.
  induction fuel as [|fuel IH]; intros counter; cbn;
    unfold bind, findExistingTerminal;
    destruct (find _ (window_terminals s)) eqn:Hf; cbn.
  - exists counter. repeat split; try lia; intros; lia.
  - exists counter. repeat split; try lia; intros; lia.
  - destruct (IH (S counter)) as (n & Hn & Hr & Htaken & Hfree).
    exists n. repeat split; try lia; auto.
    + intros m Hm. destruct (Nat.eq_dec m counter) as [->|Hne].
      * destruct (in_dec string_dec (uniqueName baseName counter) (live_names s))
          as [Hin|Hnot]; [exact Hin|].
        apply find_name_none in Hnot. congruence.
      * apply Htaken. lia.
    + intros Hlt. apply Hfree. lia.
  - exists counter. repeat split; try lia; intros; try lia.
    now apply find_name_none.
Qed.

(** The name [generateUniqueTerminalName] returns: the candidate of the
    smallest counter from 2 on that no live terminal holds.  The loop of
    the source ends, the rounds given to the model are enough. *)
Lemma generateUniqueTerminalName_free (baseName : string) (s : State) :
  exists n,
    2 <= n
    /\ fst (generateUniqueTerminalName baseName s) = uniqueName baseName n
    /\ ~ In (uniqueName baseName n) (live_names s)
    /\ (forall m, 2 <= m < n -> In (uniqueName baseName m) (live_names s)).
Proof.
  unfold generateUniqueTerminalName.
  destruct (generateUniqueTerminalName_loop_spec baseName s
              (length (window_terminals s)) 2) as (n & Hn & Hr & Htaken & Hfree).
  exists n. repeat split; auto; try lia.
  intros Hin.
  destruct (Nat.eq_dec n (2 + length (window_terminals s))) as [He|Hne].
  - assert (Hb : S (length (window_terminals s)) <= length (live_names s)).
    { apply (taken_candidates_bound baseName _ 2). intros m Hm.
      destruct (Nat.eq_dec m n) as [->|]; [exact Hin | apply Htaken; lia]. }
    unfold live_names in Hb. rewrite length_map in Hb. lia.
  - apply Hfree; [lia | exact Hin].
Qed.

(** More rounds change nothing. *)
Lemma generateUniqueTerminalName_fuel (baseName : string) (s : State) (fuel : nat) :
  length (window_terminals s) <= fuel ->
  fst (generateUniqueTerminalName_loop fuel baseName 2 s)
  = fst (generateUniqueTerminalName baseName s).
Proof.
  intros Hfuel.
  destruct (generateUniqueTerminalName_free baseName s) as (n & H2 & -> & Hn & Hm).
  destruct (generateUniqueTerminalName_loop_spec baseName s fuel 2)
    as (k & Hk & -> & Htaken & Hfree).
  f_equal.
  destruct (Nat.lt_trichotomy k n) as [Hlt|[->|Hgt]]; [|reflexivity|].
  - exfalso.
    destruct (Nat.eq_dec k (2 + fuel)) as [He|Hne].
    + assert (Hb : S fuel <= length (live_names s)).
      { apply (taken_candidates_bound baseName _ 2). intros m Hm'.
        apply Hm. lia. }
      unfold live_names in Hb. rewrite length_map in Hb. lia.
    + apply Hfree; [lia|]. apply Hm. lia.
  - exfalso. apply Hn. apply Htaken. lia.
Qed.

(** Under the rename policy a request disposes of nothing; the terminal
    it creates joins the live ones under a name none of them holds. *)
Lemma createTerminal_rename_live config base s :
  window_terminals (snd (createTerminal config base Rename s))
    = (window_terminals s ++ opt_list (fst (createTerminal config base Rename s)))%list
  /\ forall t, fst (createTerminal config base Rename s) = Some t ->
       ~ In (term_name t) (live_names s).
Proof.
  rewrite createTerminal_eq.
  destruct (unresolvable config base).
  { cbn. rewrite app_nil_r. split; [easy | discriminate]. }
  assert (Hcreate : forall n, ~ In n (live_names s) ->
    window_terminals (snd (create_as config base n s))
      = (window_terminals s ++ opt_list (fst (create_as config base n s)))%list
    /\ forall t, fst (create_as config base n s) = Some t ->
         ~ In (term_name t) (live_names s)).
  { intros n Hn. unfold create_as.
    destruct (createTerminal_throws _); cbn.
    - rewrite app_nil_r. split; [easy | discriminate].
    - split; [easy|]. intros t [= <-]. exact Hn. }
  destruct (find _ (window_terminals s)) eqn:Hf.
  - destruct (generateUniqueTerminalName_free (effective_name config base) s)
      as (n & _ & -> & Hn & _).
    now apply Hcreate.
  - apply Hcreate. now apply find_name_none.
Qed.

(** Under the skip policy a terminal is created only under a name no live
    terminal holds. *)
Lemma createTerminal_skip_fresh config base s t :
  fst (createTerminal config base Skip s) = Some t ->
  term_name t = effective_name config base
  /\ ~ In (term_name t) (live_names s).
Proof.
  rewrite createTerminal_eq.
  destruct (unresolvable config base); [discriminate|].
  destruct (find _ (window_terminals s)) eqn:Hf; [discriminate|].
  unfold create_as. destruct (createTerminal_throws _); [discriminate|].
  cbn. intros [= <-]. cbn. split; [reflexivity|]. now apply find_name_none.
Qed.

(** C3. When the rename policy is applied to a request whose effective
    name is held by a live terminal, the terminal created has the name
    [base (N)] for the smallest N among 2, 3, 4, ... such that no live
    terminal holds that name; as every terminal created joins the live
    ones at once and the rename policy disposes of none, the live names
    include those created earlier in the batch, and names that were
    distinct stay distinct. *)
Theorem rename_takes_smallest_free config base s existing t :
  find (fun u => term_name u =? effective_name config base) (window_terminals s)
    = Some existing ->
  fst (createTerminal config base Rename s) = Some t ->
  (exists n,
     2 <= n
     /\ term_name t = uniqueName (effective_name config base) n
     /\ ~ In (uniqueName (effective_name config base) n) (live_names s)
     /\ forall m, 2 <= m < n ->
          In (uniqueName (effective_name config base) m) (live_names s))
  /\ window_terminals (snd (createTerminal config base Rename s))
     = (window_terminals s ++ [t])%list
  /\ (NoDup (live_names s) ->
      NoDup (live_names (snd (createTerminal config base Rename s)))).
Proof.
  intros Hf Ht.
  destruct (createTerminal_rename_live config base s) as [Hlive Hfresh].
  rewrite Ht in Hlive. cbn in Hlive.
  split; [|split; [exact Hlive|]].
  - rewrite createTerminal_eq in Ht.
    destruct (unresolvable config base); [discriminate|].
    rewrite Hf in Ht.
    destruct (generateUniqueTerminalName_free (effective_name config base) s)
      as (n & H2 & Hr & Hn & Hm).
    exists n. repeat split; auto.
    rewrite Hr in Ht. unfold create_as in Ht.
    destruct (createTerminal_throws _); [discriminate|].
    cbn in Ht. injection Ht as <-. reflexivity.
  - intros Hnd. unfold live_names. rewrite Hlive, map_app. cbn.
    apply NoDup_app; auto.
    + repeat constructor. intros [].
    + intros a Ha [<-|[]]. now apply (Hfresh t).
Qed.

End RenameProperties.

(** ** The manager: the creation loops *)

(** ** What the outcome of a request depends on, and the events it leaves *)

Section Outcomes.

Context {path : Path.Api} {host : Host}.

Lemma same_live_refl s : same_live s s.
Proof. now split. Qed.

Lemma same_live_sym s s' : same_live s s' -> same_live s' s.
Proof. intros [A B]. now split. Qed.

Lemma same_live_trans s1 s2 s3 :
  same_live s1 s2 -> same_live s2 s3 -> same_live s1 s3.
Proof. intros [A B] [C D]. split; congruence. Qed.

Lemma create_as_same_live config base n s s' :
  same_live s s' ->
  fst (create_as config base n s) = fst (create_as config base n s')
  /\ same_live (snd (create_as config base n s)) (snd (create_as config base n s')).
Proof.
  intros [W N]. unfold create_as.
  destruct (createTerminal_throws _) as [err|]; cbn.
  - split; [reflexivity | now split].
  - rewrite W, N. split; [reflexivity | now split].
Qed.

Lemma generateUniqueTerminalName_loop_same_live baseName s s' :
  window_terminals s = window_terminals s' ->
  forall fuel counter,
    fst (generateUniqueTerminalName_loop fuel baseName counter s)
    = fst (generateUniqueTerminalName_loop fuel baseName counter s').
Proof.
  intros W. induction fuel as [|fuel IH]; intros counter; cbn;
    unfold bind, findExistingTerminal; rewrite W;
    destruct (find _ (window_terminals s')); cbn; auto.
Qed.

(** The outcome of a request, and the live terminals it leaves, depend on
    the state through the live terminals and the next identity alone. *)
Lemma createTerminal_same_live config base action s s' :
  same_live s s' ->
  fst (createTerminal config base action s)
  = fst (createTerminal config base action s')
  /\ same_live (snd (createTerminal config base action s))
               (snd (createTerminal config base action s')).
Proof.
  intros H. pose proof H as [W N]. rewrite !createTerminal_eq.
  destruct (unresolvable config base).
  - cbn. split; [reflexivity | now split].
  - rewrite W.
    destruct (find _ (window_terminals s')) as [existing|];
      [|now apply create_as_same_live].
    destruct action; try now apply create_as_same_live.
    + apply create_as_same_live. cbn. rewrite W, N. now split.
    + cbn. split; [reflexivity | exact H].
    + unfold generateUniqueTerminalName.
      rewrite (generateUniqueTerminalName_loop_same_live _ s s' W), W.
      now apply create_as_same_live.
Qed.

Lemma launch_one_same_live i config base action s :
  same_live (snd (launch_one i config base action s))
            (snd (createTerminal config base action s)).
Proof.
  unfold launch_one, bind.
  destruct (createTerminal config base action s) as [[t|] s1]; cbn;
    now split.
Qed.

Lemma asked_in_turn_same_live base action configs :
  forall s s', same_live s s' ->
    fst (asked_in_turn base action configs s)
    = fst (asked_in_turn base action configs s')
    /\ same_live (snd (asked_in_turn base action configs s))
                 (snd (asked_in_turn base action configs s')).
Proof.
  induction configs as [|config rest IH]; intros s s' H; cbn; [now split|].
  destruct (createTerminal_same_live config base action s s' H) as [E L].
  destruct (IH _ _ L) as [E' L']. rewrite E, E'. now split.
Qed.

Lemma asked_in_turn_app base action a b s :
  fst (asked_in_turn base action (a ++ b) s)
  = (fst (asked_in_turn base action a s)
     ++ fst (asked_in_turn base action b (snd (asked_in_turn base action a s))))%list
  /\ snd (asked_in_turn base action (a ++ b) s)
     = snd (asked_in_turn base action b (snd (asked_in_turn base action a s))).
Proof.
  revert s. induction a as [|config rest IH]; intros s; cbn; [now split|].
  destruct (IH (snd (createTerminal config base action s))) as [E1 E2].
  rewrite E1, E2, app_assoc. now split.
Qed.

(** The events of [create_as]: an error message, or the creation. *)
Lemma create_as_trace config base n s :
  exists pre,
    trace (snd (create_as config base n s))
    = (trace s ++ pre
       ++ map CreateTerminal (opt_list (fst (create_as config base n s))))%list
    /\ created pre = [] /\ shown pre = [].
Proof.
  unfold create_as.
  destruct (createTerminal_throws _) as [err|]; cbn.
  - eexists [_]. cbn. split; [reflexivity | now split].
  - exists []. now cbn.
Qed.

(** The events of a request: when it gives a terminal, its creation comes
    last, after at most a dispose; when it gives none, nothing is created. *)
Lemma createTerminal_trace config base action s :
  exists pre,
    trace (snd (createTerminal config base action s))
    = (trace s ++ pre
       ++ map CreateTerminal
            (opt_list (fst (createTerminal config base action s))))%list
    /\ created pre = [] /\ shown pre = [].
Proof.
  rewrite createTerminal_eq.
  destruct (unresolvable config base).
  - eexists [_]. cbn. split; [reflexivity | now split].
  - destruct (find _ (window_terminals s)) as [existing|];
      [|apply create_as_trace].
    destruct action; try apply create_as_trace.
    + destruct (create_as_trace config base (effective_name config base)
                  (snd (dispose existing s))) as (pre & T & C & S).
      exists (Dispose (term_id existing) :: pre). rewrite T. cbn.
      rewrite <- app_assoc. now cbn.
    + exists []. cbn. now rewrite app_nil_r.
Qed.

(** The events of one round of a loop: a terminal is shown right after
    its creation. *)
Lemma launch_one_trace i config base action s :
  exists pre,
    trace (snd (launch_one i config base action s))
    = (trace s ++ pre
       ++ match fst (createTerminal config base action s) with
          | Some t => [CreateTerminal t; Show (term_id t) (i =? 0)%nat]
          | None => []
          end)%list
    /\ created pre = [] /\ shown pre = [].
Proof.
  destruct (createTerminal_trace config base action s) as (pre & T & C & S).
  exists pre. split; [|now split].
  unfold launch_one, bind.
  destruct (createTerminal config base action s) as [[t|] s1];
    cbn [fst snd opt_list map] in *.
  - cbn. rewrite T, <- !app_assoc. reflexivity.
  - exact T.
Qed.

Lemma shown_at_once_quiet (pre evs : list Event) :
  created pre = [] -> shown pre = [] ->
  shown_at_once (pre ++ evs) = shown_at_once evs.
Proof.
  induction pre as [|e pre IH]; intros C S; [reflexivity|].
  destruct e; cbn in *; try discriminate; auto.
Qed.

Lemma shown_at_once_round (pre evs : list Event) (r : option Terminal) (flag : bool) :
  created pre = [] -> shown pre = [] ->
  shown_at_once
    ((pre ++ match r with
             | Some t => [CreateTerminal t; Show (term_id t) flag]
             | None => []
             end) ++ evs)
  = shown_at_once evs.
Proof.
  intros C S. rewrite <- app_assoc, shown_at_once_quiet by assumption.
  destruct r as [t|]; [|reflexivity].
  cbn. now rewrite Nat.eqb_refl.
Qed.

End Outcomes.

Section LoopProperties.

Context {path : Path.Api} {host : Host}.

Variable base : option string.
Variable action : DuplicateAction.

Lemma launchTerminals_loop_cons i config rest s :
  exec (launchTerminals_loop i (config :: rest) base action) s
  = exec (launchTerminals_loop (S i) rest base action)
         (snd (launch_one i config base action s)).
Proof.
  unfold exec. cbn [launchTerminals_loop]. unfold bind.
  now destruct (launch_one i config base action s).
Qed.

(** After a round of the group loop the trace is that of [launch_one]:
    the pause between two terminals leaves no event. *)
Lemma launchTerminalGroup_loop_cons i len config rest s :
  exists s1,
    exec (launchTerminalGroup_loop i len (config :: rest) base action) s
    = exec (launchTerminalGroup_loop (S i) len rest base action) s1
    /\ trace s1 = trace (snd (launch_one i config base action s))
    /\ window_terminals s1
       = window_terminals (snd (launch_one i config base action s)).
Proof.
  unfold exec. cbn [launchTerminalGroup_loop]. unfold bind.
  destruct (launch_one i config base action s) as [[t|] s1]; cbn [snd].
  - destruct (i <? len - 1)%nat; cbn; eexists; repeat split; reflexivity.
  - eexists; repeat split; reflexivity.
Qed.

Lemma unflagged_round i r :
  1 <= i ->
  map (fun t : Terminal => (term_id t, (i =? 0)%nat)) r = unflagged r.
Proof.
  intros Hi. unfold unflagged. apply map_ext. intros t.
  destruct i; [lia | reflexivity].
Qed.

(** The ungrouped loop from index [i]: its terminals come from the
    requests, in order, each shown once, right after its creation; past
    index 0 the argument of [show] is [false]. *)
Lemma launchTerminals_loop_events ts :
  forall i s, exists evs,
    trace (exec (launchTerminals_loop i ts base action) s) = (trace s ++ evs)%list
    /\ launched_from base ts (created evs)
    /\ map fst (shown evs) = map term_id (created evs)
    /\ (1 <= i -> shown evs = unflagged (created evs)).
Proof.
  induction ts as [|config rest IH]; intros i s.
  - exists []. cbn. rewrite app_nil_r. repeat split; constructor.
  - rewrite launchTerminals_loop_cons.
    destruct (launch_one_events i config base action s) as (e1 & A1 & A2 & A3 & A4).
    destruct (IH (S i) (snd (launch_one i config base action s)))
      as (e2 & B1 & B2 & B3 & B4).
    exists (e1 ++ e2)%list. rewrite B1, A1, app_assoc, created_app, shown_app.
    repeat split.
    + apply (launched_from_app base [config] rest); assumption.
    + rewrite !map_app, B3, A3, A2, map_map. reflexivity.
    + intros Hi. rewrite B4 by lia. rewrite A3, A2, unflagged_round by lia.
      unfold unflagged. now rewrite map_app.
Qed.

Lemma launchTerminalGroup_loop_events len ts :
  forall i s, exists evs,
    trace (exec (launchTerminalGroup_loop i len ts base action) s)
      = (trace s ++ evs)%list
    /\ launched_from base ts (created evs)
    /\ map fst (shown evs) = map term_id (created evs)
    /\ (1 <= i -> shown evs = unflagged (created evs)).
Proof.
  induction ts as [|config rest IH]; intros i s.
  - exists []. cbn. rewrite app_nil_r. repeat split; constructor.
  - destruct (launchTerminalGroup_loop_cons i len config rest s) as (s1 & E & T & _).
    rewrite E.
    destruct (launch_one_events i config base action s) as (e1 & A1 & A2 & A3 & A4).
    destruct (IH (S i) s1) as (e2 & B1 & B2 & B3 & B4).
    exists (e1 ++ e2)%list. rewrite B1, T, A1, app_assoc, created_app, shown_app.
    repeat split.
    + apply (launched_from_app base [config] rest); assumption.
    + rewrite !map_app, B3, A3, A2, map_map. reflexivity.
    + intros Hi. rewrite B4 by lia. rewrite A3, A2, unflagged_round by lia.
      unfold unflagged. now rewrite map_app.
Qed.

Lemma createTerminal_unresolvable config s :
  unresolvable config base = true ->
  createTerminal config base action s
  = (None, snd (showErrorMessage
                  ("Cannot resolve relative path without base path: "
                   ++ str (cwd config)) s)).
Proof. intros H. rewrite createTerminal_eq, H. reflexivity. Qed.

(** C4, amended. With an empty string counted as absent, for [cwd] and
    for the base path alike: an absolute cwd is used verbatim; a relative
    cwd is joined to basePath, or to the first workspace folder when
    basePath is absent; an absent cwd resolves to that same base; a
    terminal that is created has the resolved directory as its cwd; and
    when cwd is relative and there is neither a basePath nor a workspace
    folder, the request alone fails, with an error message and no other
    change of the state, and both loops go on with the remaining requests. *)
Theorem cwd_resolution config :
  resolution config base = resolution_by Js.truthy config base
  /\ (forall s t, fst (createTerminal config base action s) = Some t ->
        resolution config base = Resolved (opt_cwd (term_options t)))
  /\ (resolution config base = PathResolutionError ->
      forall s,
        let failed :=
          snd (showErrorMessage
                 ("Cannot resolve relative path without base path: "
                  ++ str (cwd config)) s) in
        createTerminal config base action s = (None, failed)
        /\ (forall i rest,
              exec (launchTerminals_loop i (config :: rest) base action) s
              = exec (launchTerminals_loop (S i) rest base action) failed)
        /\ (forall i len rest,
              exec (launchTerminalGroup_loop i len (config :: rest) base action) s
              = exec (launchTerminalGroup_loop (S i) len rest base action) failed)).
Proof.
  split; [|split].
  - unfold resolution, resolution_by, unresolvable, resolve_cwd, base_by,
      basePath_of, Js.or_else.
    destruct (Js.truthy (cwd config)), (Path.isAbsolute (str (cwd config)));
      destruct (Js.truthy base) eqn:Hb; rewrite ?Hb; cbn;
      try destruct (Js.truthy workspaceFolder); reflexivity.
  - intros s t Ht. unfold resolution.
    destruct (unresolvable config base) eqn:Hu.
    + rewrite createTerminal_unresolvable in Ht by assumption. discriminate.
    + destruct (createTerminal_events config base action s) as (_ & _ & _ & _ & H).
      destruct (H t Ht) as (n & -> & _). reflexivity.
  - unfold resolution. intros Hr s.
    destruct (unresolvable config base) eqn:Hu; [|discriminate].
    cbv zeta. split; [now apply createTerminal_unresolvable|]. split.
    + intros i rest. rewrite launchTerminals_loop_cons. unfold launch_one, bind.
      now rewrite createTerminal_unresolvable.
    + intros i len rest. unfold exec. cbn [launchTerminalGroup_loop].
      unfold launch_one, bind. now rewrite createTerminal_unresolvable.
Qed.

(** The ungrouped loop asks for every entry of its list, in order, and
    shows each terminal right after its creation. *)
Lemma launchTerminals_loop_in_turn ts :
  forall i s s0, same_live s s0 ->
  exists evs,
    trace (exec (launchTerminals_loop i ts base action) s) = (trace s ++ evs)%list
    /\ created evs = fst (asked_in_turn base action ts s0)
    /\ same_live (exec (launchTerminals_loop i ts base action) s)
                 (snd (asked_in_turn base action ts s0))
    /\ shown_at_once evs = true.
Proof.
  induction ts as [|config rest IH]; intros i s s0 H.
  - exists []. cbn. rewrite app_nil_r. auto.
  - rewrite launchTerminals_loop_cons.
    destruct (launch_one_trace i config base action s) as (pre & T & C & Sh).
    destruct (createTerminal_same_live config base action s s0 H) as [E L].
    pose proof (same_live_trans _ _ _
                  (launch_one_same_live i config base action s) L) as L1.
    destruct (IH (S i) _ _ L1) as (evs & T2 & C2 & L2 & P2).
    exists ((pre ++ match fst (createTerminal config base action s) with
                    | Some t => [CreateTerminal t; Show (term_id t) (i =? 0)%nat]
                    | None => []
                    end) ++ evs)%list.
    split; [|split; [|split]].
    + rewrite T2, T. now rewrite <- !app_assoc.
    + rewrite !created_app, C, C2. cbn [asked_in_turn fst]. rewrite <- E.
      now destruct (fst (createTerminal config base action s)).
    + exact L2.
    + now rewrite shown_at_once_round.
Qed.

Lemma launchTerminalGroup_loop_step i len config rest s :
  exists s1,
    exec (launchTerminalGroup_loop i len (config :: rest) base action) s
    = exec (launchTerminalGroup_loop (S i) len rest base action) s1
    /\ trace s1 = trace (snd (launch_one i config base action s))
    /\ same_live s1 (snd (launch_one i config base action s)).
Proof.
  unfold exec. cbn [launchTerminalGroup_loop]. unfold bind.
  destruct (launch_one i config base action s) as [[t|] s1]; cbn [snd].
  - destruct (i <? len - 1)%nat; cbn; eexists; repeat split; reflexivity.
  - eexists; repeat split; reflexivity.
Qed.

(** So does the loop of a group, whatever the pauses. *)
Lemma launchTerminalGroup_loop_in_turn len ts :
  forall i s s0, same_live s s0 ->
  exists evs,
    trace (exec (launchTerminalGroup_loop i len ts base action) s)
      = (trace s ++ evs)%list
    /\ created evs = fst (asked_in_turn base action ts s0)
    /\ same_live (exec (launchTerminalGroup_loop i len ts base action) s)
                 (snd (asked_in_turn base action ts s0))
    /\ shown_at_once evs = true.
Proof.
  induction ts as [|config rest IH]; intros i s s0 H.
  - exists []. cbn. rewrite app_nil_r. auto.
  - destruct (launchTerminalGroup_loop_step i len config rest s)
      as (s1 & E1 & T1 & L0).
    rewrite E1.
    destruct (launch_one_trace i config base action s) as (pre & T & C & Sh).
    destruct (createTerminal_same_live config base action s s0 H) as [E L].
    pose proof (same_live_trans _ _ _ L0
                  (same_live_trans _ _ _
                     (launch_one_same_live i config base action s) L)) as L1.
    destruct (IH (S i) _ _ L1) as (evs & T2 & C2 & L2 & P2).
    exists ((pre ++ match fst (createTerminal config base action s) with
                    | Some t => [CreateTerminal t; Show (term_id t) (i =? 0)%nat]
                    | None => []
                    end) ++ evs)%list.
    split; [|split; [|split]].
    + rewrite T2, T1, T. now rewrite <- !app_assoc.
    + rewrite !created_app, C, C2. cbn [asked_in_turn fst]. rewrite <- E.
      now destruct (fst (createTerminal config base action s)).
    + exact L2.
    + now rewrite shown_at_once_round.
Qed.

(** The arguments of [show] in a list whose first entry gives a terminal. *)
Lemma first_entry_flags config rest s t :
  fst (createTerminal config base action s) = Some t ->
  (exists evs,
     trace (exec (launchTerminals_loop 0 (config :: rest) base action) s)
       = (trace s ++ evs)%list
     /\ hd_error (created evs) = Some t
     /\ shown evs = flag_first (created evs))
  /\ (forall group, group_terminals group = Some (config :: rest) ->
      exists evs,
        trace (exec (launchTerminalGroup group base action) s)
          = (trace s ++ evs)%list
        /\ hd_error (created evs) = Some t
        /\ shown evs = flag_first (created evs)).
Proof.
  intros Ht.
  destruct (launch_one_events 0 config base action s) as (e1 & A1 & A2 & A3 & _).
  rewrite Ht in A2, A3. cbn in A2, A3.
  split.
  - rewrite launchTerminals_loop_cons.
    destruct (launchTerminals_loop_events rest 1
                (snd (launch_one 0 config base action s)))
      as (e2 & B1 & _ & _ & B4).
    exists (e1 ++ e2)%list.
    rewrite B1, A1, app_assoc, created_app, shown_app, A2, A3, B4 by lia.
    now cbn.
  - intros group Hg. unfold launchTerminalGroup. rewrite Hg.
    destruct (launchTerminalGroup_loop_cons 0 (length (config :: rest))
                config rest s) as (s1 & E & T & _).
    rewrite E.
    destruct (launchTerminalGroup_loop_events (length (config :: rest)) rest 1 s1)
      as (e2 & B1 & _ & _ & B4).
    exists (e1 ++ e2)%list.
    rewrite B1, T, A1, app_assoc, created_app, shown_app, A2, A3, B4 by lia.
    now cbn.
Qed.

(** C7, amended. In the ungrouped list, and in each group on its own,
    when the first entry of the list is successfully created, that
    terminal is the one shown with the argument [true] and every other
    terminal created from the same list is shown with [false], each right
    after its creation: in the events of the list every creation is
    followed at once by the [show] of the terminal created, and there is
    no other [show]. *)
Theorem first_entry_flagged config rest s t :
  fst (createTerminal config base action s) = Some t ->
  (exists evs,
     trace (exec (launchTerminals_loop 0 (config :: rest) base action) s)
       = (trace s ++ evs)%list
     /\ hd_error (created evs) = Some t
     /\ shown evs = flag_first (created evs)
     /\ shown_at_once evs = true)
  /\ (forall group, group_terminals group = Some (config :: rest) ->
      exists evs,
        trace (exec (launchTerminalGroup group base action) s)
          = (trace s ++ evs)%list
        /\ hd_error (created evs) = Some t
        /\ shown evs = flag_first (created evs)
        /\ shown_at_once evs = true).
Proof.
  intros Ht. destruct (first_entry_flags config rest s t Ht) as [U G]. split.
  - destruct U as (evs & T & H1 & H2).
    destruct (launchTerminals_loop_in_turn (config :: rest) 0 s s
                (same_live_refl s)) as (evs' & T' & _ & _ & P).
    exists evs. repeat split; try assumption.
    rewrite T in T'. apply app_inv_head in T'. now subst.
  - intros group Hg. destruct (G group Hg) as (evs & T & H1 & H2).
    exists evs. repeat split; try assumption.
    unfold launchTerminalGroup in T. rewrite Hg in T.
    destruct (launchTerminalGroup_loop_in_turn (length (config :: rest))
                (config :: rest) 0 s s (same_live_refl s))
      as (evs' & T' & _ & _ & P).
    rewrite T in T'. apply app_inv_head in T'. now subst.
Qed.

End LoopProperties.

(** ** A batch under the rename policy *)

Section RenameBatch.

Context {path : Path.Api} {host : Host}.

Variable base : option string.

Lemma launch_one_live i config action s :
  window_terminals (snd (launch_one i config base action s))
  = window_terminals (snd (createTerminal config base action s)).
Proof.
  unfold launch_one, bind.
  destruct (createTerminal config base action s) as [[t|] s1]; reflexivity.
Qed.

Lemma rename_step config s :
  NoDup (live_names s) ->
  NoDup (live_names (snd (createTerminal config base Rename s)))
  /\ incl (window_terminals s)
          (window_terminals (snd (createTerminal config base Rename s))).
Proof.
  intros Hnd.
  destruct (createTerminal_rename_live config base s) as [Hlive Hfresh].
  unfold live_names. rewrite Hlive. split; [|apply incl_appl, incl_refl].
  rewrite map_app. apply NoDup_app; auto.
  - destruct (fst (createTerminal config base Rename s)); cbn;
      repeat constructor. intros [].
  - intros a Ha Hb.
    destruct (fst (createTerminal config base Rename s)) as [t|]; cbn in Hb;
      [|contradiction].
    destruct Hb as [<-|[]]. now apply (Hfresh t).
Qed.

(** Through a whole loop under the rename policy no live terminal goes
    away and no two live terminals come to share a name: a terminal is
    never created under a name held by a terminal that was live before
    the batch or was created earlier in it. *)
Lemma launchTerminals_loop_rename ts :
  forall i s,
    NoDup (live_names s) ->
    NoDup (live_names (exec (launchTerminals_loop i ts base Rename) s))
    /\ incl (window_terminals s)
            (window_terminals (exec (launchTerminals_loop i ts base Rename) s)).
Proof.
  induction ts as [|config rest IH]; intros i s Hnd.
  - split; [exact Hnd | apply incl_refl].
  - rewrite launchTerminals_loop_cons.
    destruct (rename_step config s Hnd) as [H1 H2].
    destruct (IH (S i) (snd (launch_one i config base Rename s))) as [H3 H4].
    + unfold live_names. now rewrite launch_one_live.
    + split; [exact H3|]. rewrite launch_one_live in H4.
      eapply incl_tran; eassumption.
Qed.

Lemma launchTerminalGroup_loop_rename len ts :
  forall i s,
    NoDup (live_names s) ->
    NoDup (live_names (exec (launchTerminalGroup_loop i len ts base Rename) s))
    /\ incl (window_terminals s)
            (window_terminals
               (exec (launchTerminalGroup_loop i len ts base Rename) s)).
Proof.
  induction ts as [|config rest IH]; intros i s Hnd.
  - split; [exact Hnd | apply incl_refl].
  - destruct (launchTerminalGroup_loop_cons base Rename i len config rest s)
      as (s1 & E & _ & W).
    rewrite E. rewrite launch_one_live in W.
    destruct (rename_step config s Hnd) as [H1 H2].
    destruct (IH (S i) s1) as [H3 H4].
    + unfold live_names. now rewrite W.
    + split; [exact H3|]. rewrite W in H4. eapply incl_tran; eassumption.
Qed.

End RenameBatch.

(** ** The manager: a whole launch *)

Section LaunchProperties.

Context {path : Path.Api} {host : Host}.

Lemma launchTerminalGroup_events base action group s :
  exists evs,
    trace (exec (launchTerminalGroup group base action) s) = (trace s ++ evs)%list
    /\ launched_from base (group_requests [group]) (created evs)
    /\ map fst (shown evs) = map term_id (created evs).
Proof.
  unfold launchTerminalGroup, group_requests. cbn [flat_map].
  rewrite app_nil_r.
  destruct (group_terminals group) as [[|config rest]|].
  - exists []. cbn. rewrite app_nil_r. repeat split; constructor.
  - destruct (launchTerminalGroup_loop_events base action
                (length (config :: rest)) (config :: rest) 0 s)
      as (evs & H1 & H2 & H3 & _).
    exists evs. auto.
  - exists []. cbn. rewrite app_nil_r. repeat split; constructor.
Qed.

Lemma forEach_group_events base action gs :
  forall s, exists evs,
    trace (exec (forEach (fun group => launchTerminalGroup group base action) gs) s)
      = (trace s ++ evs)%list
    /\ launched_from base (group_requests gs) (created evs)
    /\ map fst (shown evs) = map term_id (created evs).
Proof.
  induction gs as [|g gs IH]; intros s.
  - exists []. cbn. rewrite app_nil_r. repeat split; constructor.
  - unfold exec. cbn [forEach]. unfold bind.
    destruct (launchTerminalGroup_events base action g s) as (e1 & A1 & A2 & A3).
    unfold exec in A1.
    destruct (launchTerminalGroup g base action s) as [u s1]. cbn [snd] in A1.
    destruct (IH s1) as (e2 & B1 & B2 & B3). unfold exec in B1.
    exists (e1 ++ e2)%list. rewrite B1, A1, app_assoc, created_app, shown_app.
    repeat split.
    + pose proof (launched_from_app base _ _ _ _ A2 B2) as H.
      unfold group_requests in *. cbn [flat_map] in *.
      now rewrite app_nil_r in H.
    + now rewrite !map_app, A3, B3.
Qed.

(** The check before a launch creates nothing: it leaves the state as it
    is but for the prompt it may show. *)
Lemma checkForDuplicateTerminals_state config base picked s :
  checkForDuplicateTerminals config base picked s
  = match duplicates config base s with
    | [] => (Proceed, s)
    | _ :: _ =>
        (match picked with Some item => value item | None => Cancel end,
         snd (emit (ShowQuickPick
                      (placeHolder (length (duplicates config base s)))) s))
    end.
Proof.
  unfold checkForDuplicateTerminals.
  destruct (duplicates config base s); reflexivity.
Qed.

Lemma checkForDuplicateTerminals_events config base picked s :
  exists evs,
    trace (snd (checkForDuplicateTerminals config base picked s))
      = (trace s ++ evs)%list
    /\ created evs = [] /\ shown evs = [].
Proof.
  rewrite checkForDuplicateTerminals_state.
  destruct (duplicates config base s).
  - exists []. cbn. now rewrite app_nil_r.
  - eexists; split; [reflexivity|]. now cbn.
Qed.

Lemma launchTerminals_eq config base picked s :
  launchTerminals config base picked s
  = match fst (checkForDuplicateTerminals config base picked s) with
    | Cancel => (tt, snd (checkForDuplicateTerminals config base picked s))
    | _ => launch_requests config base
             (fst (checkForDuplicateTerminals config base picked s))
             (snd (checkForDuplicateTerminals config base picked s))
    end.
Proof.
  unfold launchTerminals, bind.
  destruct (checkForDuplicateTerminals config base picked s) as [[] s1];
    reflexivity.
Qed.

(** With groups to launch, the ungrouped list is never read. *)
Lemma launchTerminals_ignores_ungrouped config g gs base picked s ungrouped :
  groups config = Some (g :: gs) ->
  launchTerminals
    {| version := version config; groups := groups config;
       terminals := ungrouped |} base picked s
  = launchTerminals config base picked s.
Proof.
  intros Hg.
  unfold launchTerminals, checkForDuplicateTerminals, duplicates,
    terminalNames, launch_requests.
  cbn [groups terminals]. rewrite Hg. reflexivity.
Qed.

(** The terminals a launch creates are made from requests of one list
    only, in the order of that list. *)
Lemma launchTerminals_one_list config base picked s :
  exists evs,
    trace (exec (launchTerminals config base picked) s) = (trace s ++ evs)%list
    /\ match groups config with
       | Some (g :: gs) =>
           launched_from base (group_requests (g :: gs)) (created evs)
           /\ forall ungrouped,
                launchTerminals
                  {| version := version config; groups := groups config;
                     terminals := ungrouped |} base picked s
                = launchTerminals config base picked s
       | _ =>
           launched_from base
             (match terminals config with Some ts => ts | None => [] end)
             (created evs)
       end.
Proof.
  assert (Hskip : forall cs, launched_from base cs []).
  { induction cs; constructor; auto. }
  destruct (checkForDuplicateTerminals_events config base picked s)
    as (e0 & C1 & C2 & C3).
  set (a := fst (checkForDuplicateTerminals config base picked s)) in *.
  set (s1 := snd (checkForDuplicateTerminals config base picked s)) in *.
  assert (Hrun : exists evs,
    trace (snd (launch_requests config base a s1)) = (trace s ++ evs)%list
    /\ launched_from base
         (match groups config with
          | Some (g :: gs) => group_requests (g :: gs)
          | _ => match terminals config with Some ts => ts | None => [] end
          end) (created evs)).
  { unfold launch_requests.
    destruct (groups config) as [[|g gs]|].
    - destruct (terminals config) as [[|t ts]|].
      + exists e0. cbn. rewrite C2. auto.
      + destruct (launchTerminals_loop_events base a (t :: ts) 0 s1)
          as (evs & H1 & H2 & _).
        exists (e0 ++ evs)%list. unfold exec in H1.
        rewrite H1, C1, app_assoc, created_app, C2. auto.
      + exists e0. cbn. rewrite C2. auto.
    - destruct (forEach_group_events base a (g :: gs) s1) as (evs & H1 & H2 & _).
      exists (e0 ++ evs)%list. unfold exec in H1.
      rewrite H1, C1, app_assoc, created_app, C2. auto.
    - destruct (terminals config) as [[|t ts]|].
      + exists e0. cbn. rewrite C2. auto.
      + destruct (launchTerminals_loop_events base a (t :: ts) 0 s1)
          as (evs & H1 & H2 & _).
        exists (e0 ++ evs)%list. unfold exec in H1.
        rewrite H1, C1, app_assoc, created_app, C2. auto.
      + exists e0. cbn. rewrite C2. auto. }
  assert (Hall : exists evs,
    trace (exec (launchTerminals config base picked) s) = (trace s ++ evs)%list
    /\ launched_from base
         (match groups config with
          | Some (g :: gs) => group_requests (g :: gs)
          | _ => match terminals config with Some ts => ts | None => [] end
          end) (created evs)).
  { unfold exec. rewrite launchTerminals_eq. fold a s1.
    destruct a; try exact Hrun.
    exists e0. cbn [snd]. rewrite C2. auto. }
  destruct Hall as (evs & H1 & H2). exists evs. split; [exact H1|].
  destruct (groups config) as [[|g gs]|] eqn:Hg; try exact H2.
  split; [exact H2|].
  intros ungrouped. rewrite <- Hg.
  now apply launchTerminals_ignores_ungrouped with g gs.
Qed.

(** A group asks for every entry of its list, in order. *)
Lemma launchTerminalGroup_in_turn base action group s s0 :
  same_live s s0 ->
  exists evs,
    trace (exec (launchTerminalGroup group base action) s) = (trace s ++ evs)%list
    /\ created evs
       = fst (asked_in_turn base action
                (match group_terminals group with Some ts => ts | None => [] end)
                s0)
    /\ same_live (exec (launchTerminalGroup group base action) s)
                 (snd (asked_in_turn base action
                         (match group_terminals group with
                          | Some ts => ts
                          | None => []
                          end) s0)).
Proof.
  intros H. unfold launchTerminalGroup.
  destruct (group_terminals group) as [[|config rest]|].
  - exists []. cbn. rewrite app_nil_r. auto.
  - destruct (launchTerminalGroup_loop_in_turn base action
                (length (config :: rest)) (config :: rest) 0 s s0 H)
      as (evs & T & C & L & _).
    exists evs. auto.
  - exists []. cbn. rewrite app_nil_r. auto.
Qed.

(** The groups are taken in declared order, each with all its entries. *)
Lemma forEach_group_in_turn base action gs :
  forall s s0, same_live s s0 ->
  exists evs,
    trace (exec (forEach (fun group => launchTerminalGroup group base action) gs) s)
      = (trace s ++ evs)%list
    /\ created evs = fst (asked_in_turn base action (group_requests gs) s0).
Proof.
  induction gs as [|g gs IH]; intros s s0 H.
  - exists []. cbn. now rewrite app_nil_r.
  - destruct (launchTerminalGroup_in_turn base action g s s0 H)
      as (e1 & T1 & C1 & L1).
    unfold exec in *. cbn [forEach]. unfold bind.
    destruct (launchTerminalGroup g base action s) as [u s1]. cbn [snd] in *.
    destruct (IH s1 _ L1) as (e2 & T2 & C2).
    exists (e1 ++ e2)%list. rewrite T2, T1, app_assoc, created_app, C1, C2.
    split; [reflexivity|].
    unfold group_requests. cbn [flat_map].
    now rewrite (proj1 (asked_in_turn_app base action _ _ s0)).
Qed.

(** The check before the launch leaves the live terminals as they are. *)
Lemma checkForDuplicateTerminals_same_live config base picked s :
  same_live (snd (checkForDuplicateTerminals config base picked s)) s.
Proof.
  rewrite checkForDuplicateTerminals_state.
  destruct (duplicates config base s); now split.
Qed.

(** After the check, every request of the list of the launch is asked
    for, in order. *)
Lemma launch_requests_in_turn config base answer s1 s0 :
  same_live s1 s0 ->
  exists e1,
    trace (exec (launch_requests config base answer) s1) = (trace s1 ++ e1)%list
    /\ created e1
       = fst (asked_in_turn base answer
                (match groups config with
                 | Some (g :: gs) => group_requests (g :: gs)
                 | _ => match terminals config with
                        | Some ts => ts
                        | None => []
                        end
                 end) s0).
Proof.
  intros L. unfold launch_requests.
  assert (Hempty : exists e1,
            trace (exec (ret tt) s1) = (trace s1 ++ e1)%list
            /\ created e1 = fst (asked_in_turn base answer [] s0)).
  { exists []. cbn. now rewrite app_nil_r. }
  assert (Hlist : forall ts, exists e1,
            trace (exec (launchTerminals_loop 0 ts base answer) s1)
            = (trace s1 ++ e1)%list
            /\ created e1 = fst (asked_in_turn base answer ts s0)).
  { intros ts.
    destruct (launchTerminals_loop_in_turn base answer ts 0 s1 s0 L)
      as (e1 & T1 & C1 & _).
    exists e1. now split. }
  destruct (groups config) as [[|g gs]|].
  - destruct (terminals config) as [[|t ts]|]; auto.
  - now apply forEach_group_in_turn.
  - destruct (terminals config) as [[|t ts]|]; auto.
Qed.

(** C1. For every configuration, a launch is about one list only: when
    groups is non-empty, the terminals of the groups in declared order,
    and the launch is the same whatever the ungrouped list holds, so that
    no entry of it is ever launched; when groups is empty or absent, the
    ungrouped list.  Unless the answer of the check is cancel, every
    request of that list is asked of [createTerminal], in the order of the
    list, under that answer, and the terminals created are exactly those
    these requests give, in that order; each is made from its request. *)
Theorem launchTerminals_groups_exclusive config base picked s :
  exists evs,
    trace (exec (launchTerminals config base picked) s) = (trace s ++ evs)%list
    /\ match groups config with
       | Some (g :: gs) =>
           launched_from base (group_requests (g :: gs)) (created evs)
           /\ created evs
              = match fst (checkForDuplicateTerminals config base picked s) with
                | Cancel => []
                | answer =>
                    fst (asked_in_turn base answer (group_requests (g :: gs)) s)
                end
           /\ forall ungrouped,
                launchTerminals
                  {| version := version config; groups := groups config;
                     terminals := ungrouped |} base picked s
                = launchTerminals config base picked s
       | _ =>
           launched_from base
             (match terminals config with Some ts => ts | None => [] end)
             (created evs)
           /\ created evs
              = match fst (checkForDuplicateTerminals config base picked s) with
                | Cancel => []
                | answer =>
                    fst (asked_in_turn base answer
                           (match terminals config with
                            | Some ts => ts
                            | None => []
                            end) s)
                end
       end.
Proof.
  destruct (launchTerminals_one_list config base picked s) as (evs & T & H).
  exists evs. split; [exact T|].
  destruct (checkForDuplicateTerminals_events config base picked s)
    as (e0 & T0 & C0 & _).
  pose proof (checkForDuplicateTerminals_same_live config base picked s) as L0.
  assert (Hall :
    created evs
    = match fst (checkForDuplicateTerminals config base picked s) with
      | Cancel => []
      | answer =>
          fst (asked_in_turn base answer
                 (match groups config with
                  | Some (g :: gs) => group_requests (g :: gs)
                  | _ => match terminals config with
                         | Some ts => ts
                         | None => []
                         end
                  end) s)
      end).
  { destruct (launch_requests_in_turn config base
                (fst (checkForDuplicateTerminals config base picked s)) _ s L0)
      as (e1 & T1 & C1).
    unfold exec in T, T1. rewrite launchTerminals_eq in T.
    destruct (fst (checkForDuplicateTerminals config base picked s));
      cbn [snd] in T;
      try (rewrite T1, T0, <- app_assoc in T; apply app_inv_head in T;
           subst evs; now rewrite created_app, C0).
    rewrite T0 in T. apply app_inv_head in T. now subst. }
  destruct (groups config) as [[|g gs]|] eqn:Hg.
  - split; [exact H | exact Hall].
  - destruct H as [H Hu]. split; [exact H|]. split; [exact Hall | exact Hu].
  - split; [exact H | exact Hall].
Qed.



(** C9. If the prompt is shown (some requested name is live) and is
    dismissed without a selection, the launch ends there: the state is the
    one before the launch but for the record of the prompt, so that no
    terminal was created. *)
Theorem dismissed_prompt_cancels config base s :
  duplicates config base s <> [] ->
  fst (checkForDuplicateTerminals config base None s) = Cancel
  /\ exec (launchTerminals config base None) s
     = {| window_terminals := window_terminals s;
          next_id := next_id s;
          clock := clock s;
          timers := timers s;
          trace := trace s
                   ++ [ShowQuickPick
                         (placeHolder (length (duplicates config base s)))];
          this_terminals := this_terminals s |}.
Proof.
  intros Hd. unfold exec. rewrite launchTerminals_eq.
  rewrite checkForDuplicateTerminals_state.
  destruct (duplicates config base s) as [|d ds]; [contradiction|].
  split; reflexivity.
Qed.

(** [disposeTerminals] empties the registry, and does nothing else when
    the registry is already empty. *)
Lemma disposeTerminals_clears s :
  this_terminals (exec disposeTerminals s) = []
  /\ (this_terminals s = [] -> exec disposeTerminals s = s).
Proof.
  unfold exec, disposeTerminals. split.
  - now destruct (forEach dispose (this_terminals s) s).
  - intros H. rewrite H. cbn. rewrite <- H. now destruct s.
Qed.

End LaunchProperties.

(** ** Concrete runs *)

Section Runs.
Import Sample.

(** C2, as stated, fails: the parser reads a record in which script,
    commands and command are all present, the script being the empty
    string; dispatch sends the entry of commands, where the sentence has
    the script path sent.  In the same way an empty commands list gives way
    to the command, and an empty command is not sent. *)
Lemma all_present_but_commands_sent :
  terminals (ConfigParser.parseCustomFormat all_three_text) = Some [all_three]
  /\ given (script all_three) = true
  /\ given (commands all_three) = true
  /\ given (command all_three) = true
  /\ map dispatch_text (executeTerminalCommands all_three "/w") = ["a"]
  /\ texts_of (source_by given given all_three "/w") = ["/w"]
  /\ map dispatch_text (executeTerminalCommands all_three "/w")
     <> texts_of (source_by given given all_three "/w")
  /\ map dispatch_text (executeTerminalCommands single_command "/w") = ["ls"]
  /\ texts_of (source_by given given single_command "/w") = []
  /\ map dispatch_text (executeTerminalCommands empty_command "/w") = []
  /\ texts_of (source_by given filled empty_command "/w") = [EmptyString].
Proof. repeat split; try reflexivity. discriminate. Qed.

(** C10, as stated, fails: with no script, an empty commands list and a
    command field holding the empty string, nothing is sent. *)
Lemma empty_command_not_sent :
  script empty_command = None
  /\ commands empty_command = Some []
  /\ command empty_command = Some EmptyString
  /\ executeTerminalCommands empty_command "/w" = []
  /\ executeTerminalCommands empty_command "/w" <> [SendText EmptyString].
Proof. repeat split; try reflexivity. discriminate. Qed.

Lemma empty_commands_fall_through_witness :
  executeTerminalCommands single_command "/w" = [SendText "ls"].
Proof.
  apply (empty_commands_fall_through single_command "/w" "ls");
    [reflexivity | reflexivity | reflexivity | discriminate].
Defined.

(** C6. With commandDelay 0, which the documentation gives as the delay
    between commands, and the commands a and b, the code hands b to a
    timer with the argument 100 and not 1 * 0: [commandDelay || 100] takes
    the 0 for an absent field.  The terminal launched from that request
    has a due 1 ms and b due 100 ms after the grace period. *)
Lemma zero_delay_replaced :
  commandDelay zero_delay = Some 0%Z
  /\ commands zero_delay = Some ["a"; "b"]
  /\ executeTerminalCommands zero_delay "/w"
     = [SetTimeout 0 "a"; SetTimeout 100 "b"]
  /\ nth_error (executeTerminalCommands zero_delay "/w") 1
     = Some (SetTimeout 100 "b")
  /\ nth_error (executeTerminalCommands zero_delay "/w") 1
     <> Some (SetTimeout (Z.of_nat 1 * delay_when_absent zero_delay) "b")
  /\ timers (snd (createTerminal zero_delay None Proceed (state_with [])))
     = [{| due := 501; target := 0; text := "a" |};
        {| due := 600; target := 0; text := "b" |}].
Proof. repeat split; try reflexivity. discriminate. Qed.

Lemma commands_spaced_by_delay_witness :
  map dispatch_text (executeTerminalCommands default_delay "/w") = ["a"; "b"]
  /\ nth_error (executeTerminalCommands default_delay "/w") 1
     = Some (SetTimeout 100 "b")
  /\ nth_error
       (timers (exec (schedule_commands (terminal 0 "A") default_delay "/w")
                     (state_with [])))
       1
     = Some {| due := 600; target := 0; text := "b" |}.
Proof.
  destruct (commands_spaced_by_delay default_delay "/w" ["a"; "b"] 100)
    as (H1 & H2 & _ & H4);
    [reflexivity | reflexivity | discriminate | right; split; reflexivity |].
  split; [exact H1|]. split; [exact (H2 1 "b" eq_refl)|].
  refine (H4 _ _ (terminal 0 "A") (state_with []) 1 "b" eq_refl);
    [lia | cbn; lia].
Defined.

(** C4, as stated, fails: an empty cwd is not absolute and there is
    neither a base path nor a workspace folder, yet the request does not
    fail: the terminal is created, with no cwd.  In the same way an empty
    base path is passed over for the workspace folder. *)
Lemma empty_cwd_not_an_error :
  cwd empty_cwd = Some EmptyString
  /\ Path.isAbsolute EmptyString = false
  /\ resolution_by given empty_cwd None = PathResolutionError
  /\ resolution empty_cwd None = Resolved None
  /\ createTerminal empty_cwd None Proceed (state_with [])
     = (Some (terminal 0 "A"),
        {| window_terminals := [terminal 0 "A"]; next_id := 1; clock := 0;
           timers := []; trace := [CreateTerminal (terminal 0 "A")];
           this_terminals := [] |})
  /\ resolution empty_cwd None <> resolution_by given empty_cwd None
  /\ @resolution posix (host_with (Some "/ws")) relative_cwd (Some EmptyString)
     = Resolved (Some "/ws/x")
  /\ @resolution_by posix (host_with (Some "/ws")) given relative_cwd
       (Some EmptyString)
     = Resolved (Some "x").
Proof. repeat split; try reflexivity. discriminate. Qed.

(** The cases of the specification: [./x] under [/root], an absolute
    path, no cwd; and a relative cwd with nothing to join it to. *)
Example cwd_cases :
  resolution relative_cwd (Some "/root") = Resolved (Some "/root/x")
  /\ resolution absolute_cwd (Some "/root") = Resolved (Some "/abs")
  /\ resolution (simple "A") (Some "/root") = Resolved (Some "/root")
  /\ @resolution posix (host_with (Some "/ws")) relative_cwd None
     = Resolved (Some "/ws/x")
  /\ resolution relative_cwd None = PathResolutionError
  /\ trace (exec (launchTerminals (ungrouped [relative_cwd; simple "B"]) None None)
                 (state_with []))
     = [ShowErrorMessage "Cannot resolve relative path without base path: ./x";
        CreateTerminal (terminal 0 "B"); Show 0 false].
Proof. repeat split. Qed.

(** C7, as stated, fails: with two groups of one terminal each, both
    terminals are shown with the same argument, whichever of its two
    values is read as bringing to the foreground. *)
Lemma each_group_shows_its_first :
  shown (trace (exec (launchTerminals two_groups None None) (state_with [])))
    = [(0, true); (1, true)]
  /\ map term_name
       (created (trace (exec (launchTerminals two_groups None None)
                             (state_with []))))
     = ["A"; "B"]
  /\ ~ exists fg,
        first_only fg
          (trace (exec (launchTerminals two_groups None None) (state_with []))).
Proof.
  repeat split.
  intros [[|] H]; vm_compute in H.
  - destruct H as [_ H]. apply (H (terminal 1 "B")); auto.
  - destruct H as [[H|[H|[]]] _]; discriminate.
Qed.

Lemma first_entry_flagged_witness :
  exists evs,
    trace (exec (launchTerminalGroup (group_of [simple "A"; simple "B"])
                   None Proceed) (state_with []))
      = (trace (state_with []) ++ evs)%list
    /\ hd_error (created evs) = Some (terminal 0 "A")
    /\ shown evs = flag_first (created evs)
    /\ shown_at_once evs = true.
Proof.
  refine (proj2 (first_entry_flagged None Proceed (simple "A") [simple "B"]
                   (state_with []) (terminal 0 "A") _) _ _);
    reflexivity.
Defined.

(** The case of the specification: the live names are [X] and [X (2)]. *)
Lemma rename_takes_smallest_free_witness :
  term_name (terminal 2 "X (3)") = "X (3)"
  /\ fst (createTerminal (simple "X") None Rename (state_with ["X"; "X (2)"]))
     = Some (terminal 2 "X (3)")
  /\ exists n,
       2 <= n
       /\ term_name (terminal 2 "X (3)") = uniqueName "X" n
       /\ ~ In (uniqueName "X" n) (live_names (state_with ["X"; "X (2)"]))
       /\ forall m, 2 <= m < n ->
            In (uniqueName "X" m) (live_names (state_with ["X"; "X (2)"])).
Proof.
  split; [reflexivity|]. split; [reflexivity|].
  exact (proj1 (rename_takes_smallest_free (simple "X") None
                  (state_with ["X"; "X (2)"]) (terminal 0 "X")
                  (terminal 2 "X (3)") eq_refl eq_refl)).
Defined.

Lemma dismissed_prompt_cancels_witness :
  exec (launchTerminals (ungrouped [simple "A"; simple "B"]) None None)
       (state_with ["A"])
  = {| window_terminals := [terminal 0 "A"]; next_id := 1; clock := 0;
       timers := [];
       trace := [ShowQuickPick "Found 1 existing terminal. What should we do?"];
       this_terminals := [] |}.
Proof.
  refine (proj2 (dismissed_prompt_cancels (ungrouped [simple "A"; simple "B"])
                   None (state_with ["A"]) _)).
  vm_compute. discriminate.
Defined.

(** A group and an ungrouped list both filled: the terminals of the
    group are created, the ungrouped entry is not. *)
Example groups_win_over_ungrouped :
  map term_name
    (created (trace (exec (launchTerminals both_filled None None) (state_with []))))
  = ["A"; "B"]
  /\ clock (exec (launchTerminals both_filled None None) (state_with [])) = 200%Z.
Proof. split; reflexivity. Qed.

(** One ungrouped request with a command and no base path: one terminal
    named [A], one text, due when the grace period is over. *)
Example single_request_run :
  exec (launchTerminals
          (ungrouped [request "A" None None (Some "echo hi") None None])
          None None) (state_with [])
  = {| window_terminals := [terminal 0 "A"]; next_id := 1; clock := 0;
       timers := [{| due := 500; target := 0; text := "echo hi" |}];
       trace := [CreateTerminal (terminal 0 "A"); Show 0 true];
       this_terminals := [terminal 0 "A"] |}.
Proof. reflexivity. Qed.

(** The four answers of the prompt when [A] is live and [A], [B] are
    requested. *)
Example answers_run :
  trace (exec (launchTerminals (ungrouped [simple "A"; simple "B"]) None
                 (Some CancelItem)) (state_with ["A"]))
    = [ShowQuickPick "Found 1 existing terminal. What should we do?"]
  /\ map term_name
       (window_terminals
          (exec (launchTerminals (ungrouped [simple "A"; simple "B"]) None
                   (Some SkipExisting)) (state_with ["A"])))
     = ["A"; "B"]
  /\ shown (trace (exec (launchTerminals (ungrouped [simple "A"; simple "B"]) None
                          (Some SkipExisting)) (state_with ["A"])))
     = [(1, false)]
  /\ window_terminals
       (exec (launchTerminals (ungrouped [simple "A"; simple "B"]) None
                (Some ReplaceExisting)) (state_with ["A"]))
     = [terminal 1 "A"; terminal 2 "B"]
  /\ map term_name
       (window_terminals
          (exec (launchTerminals (ungrouped [simple "A"; simple "B"]) None
                   (Some RenameNew)) (state_with ["A"])))
     = ["A"; "A (2)"; "B"].
Proof. repeat split. Qed.

(** The custom format: comments and blank lines dropped, [commands]
    split on [;], a key outside the record ignored. *)
Example parse_run :
  terminals
    (ConfigParser.parseCustomFormat
       ("cwd = /nowhere" ++ LF ++ "# servers" ++ LF ++ "[Backend]" ++ LF
        ++ "  cwd = ./backend" ++ LF ++ LF ++ "commands = a ; b;c " ++ LF
        ++ "[Empty]" ++ LF ++ "[Frontend]" ++ LF ++ "colour = blue" ++ LF
        ++ "command = npm start --x=1"))
  = Some [request "Backend" None (Some ["a"; "b"; "c"]) None None (Some "./backend");
          simple "Empty";
          request "Frontend" None None (Some "npm start --x=1") None None].
Proof. reflexivity. Qed.

(** A creation that is not followed at once by its [show] is told apart
    from one that is, though both give the same lists of terminals created
    and shown. *)
Example show_must_follow_creation :
  shown_at_once
    [CreateTerminal (terminal 0 "A"); Show 0 true;
     CreateTerminal (terminal 1 "B"); Show 1 false] = true
  /\ shown_at_once
       [CreateTerminal (terminal 0 "A"); CreateTerminal (terminal 1 "B");
        Show 0 true; Show 1 false] = false
  /\ fst (asked_in_turn None Proceed [simple "A"; simple "B"] (state_with []))
     = [terminal 0 "A"; terminal 1 "B"]
  /\ map fst (ParserSpec.blocks (ParserSpec.text_lines all_three_text)) = ["A"].
Proof. repeat split. Qed.

(** The edges of the runtime: a timer argument below 1 or above
    2^31 - 1 waits 1 ms, so with a negative commandDelay every entry is due
    1 ms after the grace period; a colour that names a member of
    [Object.prototype] finds that member and not the fallback. *)
Example runtime_edges :
  map Js.setTimeout_delay [-50; 0; 1; 200; 500; 2147483647; 2147483648]%Z
  = [1; 1; 1; 200; 500; 2147483647; 1]%Z
  /\ map due
       (timers
          (snd (createTerminal
                  (request "A" None (Some ["a"; "b"; "c"]) None (Some (-50)%Z) None)
                  None Proceed (state_with []))))
     = [501; 501; 501]%Z
  /\ getTerminalColor "constructor" = ThemeColor_of_member "constructor"
  /\ getTerminalColor "teal" = ThemeColor_of "terminal.foreground"
  /\ getTerminalColor "pink" = ThemeColor_of "terminal.ansiMagenta".
Proof. repeat split. Qed.

End Runs.

(** * Further properties *)

(** ** The custom format, line by line *)

Section ParserLines.
Import ConfigParser ParserSpec.

Lemma split_nonempty (sep : ascii) (s : string) : Js.split sep s <> [].
Proof.
  destruct s as [|c r]; cbn; [discriminate|].
  destruct (Ascii.eqb c sep); [discriminate|].
  destruct (Js.split sep r); discriminate.
Qed.

Lemma includes_char_cons (sep c : ascii) (r : string) :
  Js.includes (String sep "") (String c r)
  = Ascii.eqb sep c || Js.includes (String sep "") r.
Proof.
  cbn. destruct (Ascii.ascii_dec sep c) as [->|Hne].
  - rewrite Ascii.eqb_refl. now destruct r.
  - destruct (Ascii.eqb_spec sep c); [contradiction | reflexivity].
Qed.

(** A string with no separator is its own single part; otherwise the
    first part ends at the first separator and the split goes on behind. *)
Lemma split_first (sep : ascii) (s : string) :
  (Js.includes (String sep "") s = false /\ Js.split sep s = [s])
  \/ exists k rest,
       s = k ++ String sep rest
       /\ Js.includes (String sep "") k = false
       /\ Js.includes (String sep "") s = true
       /\ Js.split sep s = k :: Js.split sep rest.
Proof.
  induction s as [|c r IH].
  - left. split; reflexivity.
  - rewrite includes_char_cons. cbn [Js.split].
    destruct (Ascii.eqb_spec c sep) as [->|Hne].
    + right. exists "", r. rewrite Ascii.eqb_refl. repeat split.
    + assert (Hsc : Ascii.eqb sep c = false).
      { destruct (Ascii.eqb_spec sep c); congruence. }
      rewrite Hsc. cbn [orb].
      destruct IH as [[Hn Hs]|(k & rest & -> & Hk & Hi & Hs)].
      * left. rewrite Hs. split; [exact Hn | reflexivity].
      * right. exists (String c k), rest. rewrite Hs.
        rewrite includes_char_cons, Hsc, Hk. repeat split. exact Hi.
Qed.

Lemma join_cons (sep a : string) (l : list string) :
  l <> [] -> Js.join sep (a :: l) = a ++ sep ++ Js.join sep l.
Proof. destruct l; [contradiction | reflexivity]. Qed.

(** Joining the parts with the separator gives the string back. *)
Lemma join_split (sep : ascii) (s : string) :
  Js.join (String sep "") (Js.split sep s) = s.
Proof.
  induction s as [|c r IH]; [reflexivity|].
  cbn [Js.split]. pose proof (split_nonempty sep r) as Hne.
  destruct (Ascii.eqb c sep) eqn:Hc.
  - apply Ascii.eqb_eq in Hc as ->.
    rewrite join_cons by exact Hne. now rewrite IH.
  - destruct (Js.split sep r) as [|h t]; [contradiction|].
    rewrite <- IH. destruct t; reflexivity.
Qed.

(** X1. A line with an equals sign is cut at the first one: the key holds
    none, and the value is all that follows, later equals signs included,
    trimmed. *)
Theorem key_value_cut_at_first_equals (trimmed : string) :
  Js.includes "=" trimmed = true ->
  exists rest,
    trimmed = key_of trimmed ++ "=" ++ rest
    /\ Js.includes "=" (key_of trimmed) = false
    /\ value_of trimmed = Js.trim rest.
Proof.
  intros Hi. unfold key_of, value_of.
  destruct (split_first "="%char trimmed) as [[Hn _]|(k & rest & E & Hk & _ & Hs)].
  - congruence.
  - rewrite Hs. exists rest. repeat split; auto.
    now rewrite (join_split "="%char rest).
Qed.

Lemma split_app (sep : ascii) (a b : string) :
  Js.split sep (a ++ String sep b) = (Js.split sep a ++ Js.split sep b)%list.
Proof.
  induction a as [|c a IH]; cbn.
  - now rewrite Ascii.eqb_refl.
  - destruct (Ascii.eqb c sep); [now rewrite IH|].
    rewrite IH. pose proof (split_nonempty sep a) as Hne.
    destruct (Js.split sep a); [contradiction | reflexivity].
Qed.

(** The kept lines of two texts put one after the other. *)
Lemma lines_of_app (a b : string) :
  lines_of (a ++ String "010" b) = (lines_of a ++ lines_of b)%list.
Proof. unfold lines_of. now rewrite split_app, filter_app. Qed.

Lemma lines_of_single (line : string) :
  Js.includes (String "010" "") line = false ->
  lines_of line = if keep_line line then [line] else [].
Proof.
  intros Hn. unfold lines_of.
  destruct (split_first "010"%char line) as [[_ ->]|(k & rest & _ & _ & Hi & _)].
  - reflexivity.
  - congruence.
Qed.

Lemma parse_by_lines (a b : string) :
  lines_of a = lines_of b -> parseCustomFormat a = parseCustomFormat b.
Proof. unfold parseCustomFormat. now intros ->. Qed.

(** X2. A blank line or a comment line (its trimmed form empty or starting
    with [#]) put between two lines of the input changes nothing of the
    result. *)
Theorem comment_lines_ignored (a dropped b : string) :
  Js.includes (String "010" "") dropped = false ->
  keep_line dropped = false ->
  parseCustomFormat (a ++ String "010" (dropped ++ String "010" b))
  = parseCustomFormat (a ++ String "010" b).
Proof.
  intros Hn Hk. apply parse_by_lines.
  rewrite !lines_of_app, (lines_of_single dropped Hn), Hk. reflexivity.
Qed.

Lemma sections_no_header (pre rest : list string) :
  (forall l, In l pre -> header l = false) ->
  sections (pre ++ rest) = sections rest.
Proof.
  induction pre as [|l pre IH]; intros H; cbn; [reflexivity|].
  rewrite (H l) by now left. apply IH. intros l' Hl. apply H. now right.
Qed.

Lemma parse_sections (content : string) :
  parseCustomFormat content
  = {| version := None; groups := None;
       terminals := Some (map record_of (sections (lines_of content))) |}.
Proof.
  unfold parseCustomFormat. f_equal. f_equal.
  now rewrite fold_step_sections.
Qed.

(** X3. Whatever stands before the first header is dropped without an
    error: an input none of whose lines is a header gives the empty
    terminal list, and such a text put in front of another one leaves the
    result of the other. *)
Theorem lines_before_first_header_dropped (a b : string) :
  (forall l, In l (lines_of a) -> header l = false) ->
  parseCustomFormat a = {| version := None; groups := None; terminals := Some [] |}
  /\ parseCustomFormat (a ++ String "010" b) = parseCustomFormat b.
Proof.
  intros H. split.
  - rewrite parse_sections.
    rewrite <- (app_nil_r (lines_of a)), sections_no_header by exact H.
    reflexivity.
  - rewrite !parse_sections, lines_of_app, sections_no_header by exact H.
    reflexivity.
Qed.

End ParserLines.

(** ** The custom format, field by field *)

Section ParserFields.
Import ConfigParser ParserSpec.

Context {path : Path.Api}.

Ltac by_key :=
  repeat match goal with
         | |- context [String.eqb ?a ?b] =>
             lazymatch a with
             | String _ _ => fail
             | EmptyString => fail
             | _ => let e := fresh "e" in
                    destruct (String.eqb_spec a b) as [e|?];
                    [rewrite e in *; cbn|]
             end
         end;
  try reflexivity; try congruence.

Ltac one_line :=
  unfold assigned_from; cbn [fold_left]; unfold apply_line, assign;
  destruct (Js.includes "=" _); cbn [andb]; [|reflexivity];
  by_key.

Lemma cwd_line t l : cwd (apply_line t l) = assigned_from "cwd" (cwd t) [l].
Proof. one_line. Qed.

Lemma command_line t l :
  command (apply_line t l) = assigned_from "command" (command t) [l].
Proof. one_line. Qed.

Lemma script_line t l :
  script (apply_line t l) = assigned_from "script" (script t) [l].
Proof. one_line. Qed.

Lemma color_line t l : color (apply_line t l) = assigned_from "color" (color t) [l].
Proof. one_line. Qed.

Lemma icon_line t l : icon (apply_line t l) = assigned_from "icon" (icon t) [l].
Proof. one_line. Qed.

Lemma commands_line t l acc :
  commands t = option_map commands_of acc ->
  commands (apply_line t l)
  = option_map commands_of (assigned_from "commands" acc [l]).
Proof.
  intros H. unfold assigned_from; cbn [fold_left]; unfold apply_line, assign.
  destruct (Js.includes "=" _); cbn [andb]; [|exact H].
  by_key; cbn; try exact H; congruence.
Qed.

Lemma untouched_line t l :
  commandDelay (apply_line t l) = commandDelay t
  /\ env (apply_line t l) = env t
  /\ shellPath (apply_line t l) = shellPath t
  /\ shellArgs (apply_line t l) = shellArgs t.
Proof.
  unfold apply_line, assign. destruct (Js.includes "=" _); [|auto].
  repeat match goal with
         | |- context [String.eqb ?a ?b] => destruct (String.eqb a b)
         end; auto.
Qed.

Lemma field_fold (f : TerminalConfig -> option string) (key : string) :
  (forall t l, f (apply_line t l) = assigned_from key (f t) [l]) ->
  forall body t, f (fold_left apply_line body t) = assigned_from key (f t) body.
Proof.
  intros Hline. induction body as [|l body IH]; intros t; [reflexivity|].
  cbn [fold_left]. rewrite IH, Hline. reflexivity.
Qed.

Lemma commands_fold body :
  forall t acc,
    commands t = option_map commands_of acc ->
    commands (fold_left apply_line body t)
    = option_map commands_of (assigned_from "commands" acc body).
Proof.
  induction body as [|l body IH]; intros t acc H; [exact H|].
  cbn [fold_left]. apply (IH _ (assigned_from "commands" acc [l])).
  now apply commands_line.
Qed.

Lemma untouched_fold body :
  forall t,
    commandDelay (fold_left apply_line body t) = commandDelay t
    /\ env (fold_left apply_line body t) = env t
    /\ shellPath (fold_left apply_line body t) = shellPath t
    /\ shellArgs (fold_left apply_line body t) = shellArgs t.
Proof.
  induction body as [|l body IH]; intros t; [auto|].
  cbn [fold_left]. destruct (IH (apply_line t l)) as (A & B & C & D).
  destruct (untouched_line t l) as (A' & B' & C' & D').
  repeat split; congruence.
Qed.

Lemma assigned_from_kept key v body :
  exists v', assigned_from key (Some v) body = Some v'.
Proof.
  revert v. induction body as [|l body IH]; intros v; [now exists v|].
  unfold assigned_from in *. cbn [fold_left].
  destruct (_ && _); apply IH.
Qed.

Lemma assigned_from_written key acc body :
  In key (keys_written body) -> exists v, assigned_from key acc body = Some v.
Proof.
  revert acc. induction body as [|l body IH]; intros acc H; [contradiction|].
  apply keys_written_cons in H.
  unfold assigned_from. cbn [fold_left]. fold (assigned_from key).
  destruct H as [H|H]; [|now apply IH].
  unfold keys_written in H. cbn [filter] in H.
  destruct (Js.includes "=" (Js.trim l)); [|contradiction].
  destruct H as [<-|[]]. cbn [andb]. rewrite String.eqb_refl.
  apply assigned_from_kept.
Qed.

(** X4. Each terminal of the result of the custom format has, for any of
    the keys cwd, command, script, color and icon, the value of the last
    line of its record with that key, and none when there is no such line;
    its commands are that value for the key commands cut at [;], each part
    trimmed; commandDelay, env, shellPath and shellArgs are never set. *)
Theorem record_fields_last_assignment (content : string) :
  exists records,
    terminals (parseCustomFormat content) = Some records
    /\ Forall2
         (fun sec r =>
            name r = Js.slice_1_m1 (Js.trim (fst sec))
            /\ cwd r = last_assigned "cwd" (snd sec)
            /\ command r = last_assigned "command" (snd sec)
            /\ script r = last_assigned "script" (snd sec)
            /\ color r = last_assigned "color" (snd sec)
            /\ icon r = last_assigned "icon" (snd sec)
            /\ commands r
               = option_map commands_of (last_assigned "commands" (snd sec))
            /\ commandDelay r = None /\ env r = None
            /\ shellPath r = None /\ shellArgs r = None)
         (sections (lines_of content)) records.
Proof.
  rewrite parse_sections. eexists. split; [reflexivity|].
  induction (sections (lines_of content)) as [|sec secs IH]; constructor; auto.
  unfold record_of, last_assigned.
  set (t0 := new_terminal (Js.slice_1_m1 (Js.trim (fst sec)))).
  destruct (untouched_fold (snd sec) t0) as (A & B & C & D).
  repeat split; auto.
  - now rewrite name_fold.
  - apply (field_fold cwd "cwd" cwd_line).
  - apply (field_fold command "command" command_line).
  - apply (field_fold script "script" script_line).
  - apply (field_fold color "color" color_line).
  - apply (field_fold icon "icon" icon_line).
  - now apply commands_fold.
Qed.

Lemma endsWith_appended (p x : string) : Js.endsWith p (x ++ p) = true.
Proof.
  induction x as [|c x IH].
  - change ("" ++ p) with p.
    destruct p; cbn [Js.endsWith]; now rewrite String.eqb_refl.
  - change (String c x ++ p) with (String c (x ++ p)).
    cbn [Js.endsWith]. rewrite IH. apply orb_true_r.
Qed.

Lemma drop_last_appended (c : ascii) (x : string) :
  Js.drop_last (x ++ String c "") = x.
Proof.
  induction x as [|a x IH]; [reflexivity|].
  cbn. destruct x; cbn in *; [reflexivity|]. now rewrite IH.
Qed.

(** X5. A one-line input whose trimmed form is [[NAME]] gives one terminal
    named NAME, letter for letter: white space and brackets inside the
    outer brackets are kept, and no other field is set. *)
Theorem header_names_verbatim (line n : string) :
  Js.includes (String "010" "") line = false ->
  Js.trim line = "[" ++ n ++ "]" ->
  parseCustomFormat line
  = {| version := None; groups := None; terminals := Some [new_terminal n] |}.
Proof.
  intros Hn Ht.
  assert (Hh : is_header (Js.trim line) = true).
  { rewrite Ht. unfold is_header. apply andb_true_intro. split.
    - unfold Js.startsWith. cbn. now destruct (n ++ "]").
    - change ("[" ++ n ++ "]") with (String "[" (n ++ "]")).
      cbn [Js.endsWith]. rewrite endsWith_appended. apply orb_true_r. }
  unfold parseCustomFormat. rewrite (lines_of_single line Hn).
  assert (Hk : keep_line line = true).
  { unfold keep_line. rewrite Ht. apply andb_true_intro. split; [reflexivity|].
    unfold Js.startsWith. cbn. reflexivity. }
  rewrite Hk. cbn [fold_left]. unfold step. rewrite Hh. cbn.
  rewrite Ht. cbn. now rewrite drop_last_appended.
Qed.

(** X6. In the custom format a line with the key commands always gives a
    non-empty list, a blank value giving one empty entry; so a record with
    such a line and no script has the entries of that list sent, and never
    its command. *)
Theorem commands_line_always_dispatched
  (content : string) (sec : string * list string) :
  In sec (sections (lines_of content)) ->
  In "commands" (keys_written (snd sec)) ->
  Js.truthy (script (record_of sec)) = false ->
  exists records c cs,
    terminals (parseCustomFormat content) = Some records
    /\ In (record_of sec) records
    /\ commands (record_of sec) = Some (c :: cs)
    /\ forall basePath,
         map dispatch_text (executeTerminalCommands (record_of sec) basePath)
         = c :: cs.
Proof.
  intros Hsec Hkey Hscript.
  destruct (assigned_from_written "commands" None (snd sec) Hkey) as (v & Hv).
  assert (Hc : commands (record_of sec) = Some (commands_of v)).
  { unfold record_of.
    rewrite (commands_fold (snd sec) _ None) by reflexivity.
    now rewrite Hv. }
  pose proof (split_nonempty ";"%char v) as Hne.
  unfold commands_of in Hc.
  destruct (Js.split ";"%char v) as [|p ps]; [contradiction|]. cbn [map] in Hc.
  exists (map record_of (sections (lines_of content))), (Js.trim p), (map Js.trim ps).
  rewrite parse_sections. repeat split; auto.
  - now apply in_map.
  - intros basePath. unfold executeTerminalCommands.
    rewrite Hscript, Hc. apply forEach_command_texts.
Qed.

End ParserFields.

(** ** Induction over a launch *)

Section Since.

Lemma events_since_app (s s' : State) (evs : list Event) :
  trace s' = (trace s ++ evs)%list -> events_since s s' = evs.
Proof.
  intros H. unfold events_since. rewrite H, skipn_app, skipn_all, Nat.sub_diag.
  reflexivity.
Qed.

Lemma extends_by (s s' : State) (evs : list Event) :
  trace s' = (trace s ++ evs)%list -> extends s s'.
Proof. intros H. unfold extends. now rewrite (events_since_app s s' evs H). Qed.

Lemma extends_refl (s : State) : extends s s /\ events_since s s = [].
Proof.
  assert (H : trace s = (trace s ++ [])%list) by now rewrite app_nil_r.
  split; [exact (extends_by s s [] H) | exact (events_since_app s s [] H)].
Qed.

Lemma extends_trans (s1 s2 s3 : State) :
  extends s1 s2 -> extends s2 s3 ->
  extends s1 s3
  /\ events_since s1 s3 = (events_since s1 s2 ++ events_since s2 s3)%list.
Proof.
  unfold extends. intros H12 H23.
  assert (H : trace s3
              = (trace s1 ++ events_since s1 s2 ++ events_since s2 s3)%list).
  { rewrite H23, H12 at 1. now rewrite <- app_assoc. }
  split; [exact (extends_by _ _ _ H) | exact (events_since_app _ _ _ H)].
Qed.

Lemma born_trans (s1 s2 s3 : State) :
  extends s1 s2 -> extends s2 s3 ->
  born s1 s3 = (born s1 s2 ++ born s2 s3)%list.
Proof.
  intros H12 H23. unfold born.
  destruct (extends_trans s1 s2 s3 H12 H23) as [_ ->]. apply created_app.
Qed.

End Since.

Section LaunchInduction.

Context {path : Path.Api} {host : Host}.

Variable base : option string.
Variable action : DuplicateAction.
Variable R : State -> State -> Prop.

Hypothesis R_refl : forall s, R s s.
Hypothesis R_trans : forall s1 s2 s3, R s1 s2 -> R s2 s3 -> R s1 s3.
Hypothesis R_one :
  forall i config s, R s (snd (launch_one i config base action s)).
Hypothesis R_sleep : forall s, R s (snd (sleep 200 s)).

Lemma induction_ungrouped ts :
  forall i s, R s (exec (launchTerminals_loop i ts base action) s).
Proof.
  induction ts as [|config rest IH]; intros i s; [apply R_refl|].
  rewrite launchTerminals_loop_cons. eapply R_trans; [apply R_one | apply IH].
Qed.

Lemma induction_group_loop len ts :
  forall i s, R s (exec (launchTerminalGroup_loop i len ts base action) s).
Proof.
  induction ts as [|config rest IH]; intros i s; [apply R_refl|].
  unfold exec. cbn [launchTerminalGroup_loop]. unfold bind.
  pose proof (R_one i config s) as H1.
  destruct (launch_one i config base action s) as [[t|] s1]; cbn [snd] in *.
  - destruct (i <? len - 1)%nat.
    + pose proof (R_sleep s1) as H2.
      destruct (sleep 200 s1) as [u s2]. cbn [snd] in H2.
      eapply R_trans; [exact H1|]. eapply R_trans; [exact H2 | apply IH].
    + cbn. eapply R_trans; [exact H1 | apply IH].
  - cbn. eapply R_trans; [exact H1 | apply IH].
Qed.

Lemma induction_group group s :
  R s (exec (launchTerminalGroup group base action) s).
Proof.
  unfold launchTerminalGroup.
  destruct (group_terminals group) as [[|config rest]|]; try apply R_refl.
  apply induction_group_loop.
Qed.

Lemma induction_groups gs :
  forall s,
    R s (exec (forEach (fun group => launchTerminalGroup group base action) gs) s).
Proof.
  induction gs as [|g gs IH]; intros s; [apply R_refl|].
  unfold exec. cbn [forEach]. unfold bind.
  pose proof (induction_group g s) as H1. unfold exec in H1.
  destruct (launchTerminalGroup g base action s) as [u s1]. cbn [snd] in H1.
  eapply R_trans; [exact H1 | apply IH].
Qed.

Lemma induction_requests config s :
  R s (exec (launch_requests config base action) s).
Proof.
  unfold launch_requests.
  destruct (groups config) as [[|g gs]|];
    try apply induction_groups;
    destruct (terminals config) as [[|t ts]|];
    try apply R_refl; apply induction_ungrouped.
Qed.

End LaunchInduction.

(** ** One request, field by field of the state *)

Section RequestLedger.

Context {path : Path.Api} {host : Host}.

Lemma create_as_state config base n s :
  let r := fst (create_as config base n s) in
  let s' := snd (create_as config base n s) in
  this_terminals s' = this_terminals s
  /\ next_id s' = next_id s + length (opt_list r)
  /\ (forall t, r = Some t ->
        term_id t = next_id s
        /\ term_options t = terminalOptions config n (resolve_cwd config base))
  /\ clock s' = clock s
  /\ timers s'
     = (timers s
        ++ match r with
           | Some t =>
               map (timer_of (clock s) t)
                   (executeTerminalCommands config (script_base config base))
           | None => []
           end)%list
  /\ window_terminals s' = (window_terminals s ++ opt_list r)%list
  /\ (r = None <-> createTerminal_throws
                    (terminalOptions config n (resolve_cwd config base)) <> None).
Proof.
  unfold create_as.
  destruct (createTerminal_throws _) as [err|] eqn:Ht; cbn.
  - rewrite !app_nil_r, Nat.add_0_r. repeat split; try discriminate; auto.
  - repeat split; try lia; try discriminate; try congruence;
      match goal with H : Some _ = Some _ |- _ => now injection H as <- end.
Qed.

(** What a request leaves alone and what it adds. *)
Lemma createTerminal_state config base action s :
  let r := fst (createTerminal config base action s) in
  let s' := snd (createTerminal config base action s) in
  this_terminals s' = this_terminals s
  /\ next_id s' = next_id s + length (opt_list r)
  /\ (forall t, r = Some t -> term_id t = next_id s)
  /\ clock s' = clock s
  /\ timers s'
     = (timers s
        ++ match r with
           | Some t =>
               map (timer_of (clock s) t)
                   (executeTerminalCommands config (script_base config base))
           | None => []
           end)%list
  /\ (forall t, In t (window_terminals s') ->
                In t (window_terminals s) \/ r = Some t)
  /\ (action <> Replace ->
      window_terminals s' = (window_terminals s ++ opt_list r)%list).
Proof.
  cbv zeta. rewrite createTerminal_eq.
  destruct (unresolvable config base).
  { cbn. rewrite !app_nil_r, Nat.add_0_r.
    repeat split; try discriminate; auto. }
  assert (Hplain : forall n,
    let r := fst (create_as config base n s) in
    let s' := snd (create_as config base n s) in
    this_terminals s' = this_terminals s
    /\ next_id s' = next_id s + length (opt_list r)
    /\ (forall t, r = Some t -> term_id t = next_id s)
    /\ clock s' = clock s
    /\ timers s'
       = (timers s
          ++ match r with
             | Some t =>
                 map (timer_of (clock s) t)
                     (executeTerminalCommands config (script_base config base))
             | None => []
             end)%list
    /\ (forall t, In t (window_terminals s') ->
                  In t (window_terminals s) \/ r = Some t)
    /\ (action <> Replace ->
        window_terminals s' = (window_terminals s ++ opt_list r)%list)).
  { intros n. cbv zeta.
    destruct (create_as_state config base n s) as (A & B & C & D & E & F & _).
    repeat split; auto.
    - intros t Ht. now apply C.
    - intros t Ht. rewrite F in Ht. apply in_app_or in Ht.
      destruct Ht as [Ht|Ht]; [now left|]. right.
      destruct (fst (create_as config base n s)); cbn in Ht;
        [destruct Ht as [->|[]]; reflexivity | contradiction]. }
  destruct (find _ (window_terminals s)) as [existing|]; [|apply Hplain].
  destruct action; try apply Hplain.
  - (* replace *)
    destruct (create_as_state config base (effective_name config base)
                (snd (dispose existing s))) as (A & B & C & D & E & F & _).
    cbn [dispose snd this_terminals next_id clock timers window_terminals] in *.
    repeat split; auto.
    + intros t Ht. now apply C.
    + intros t Ht. rewrite F in Ht. apply in_app_or in Ht.
      destruct Ht as [Ht|Ht].
      * left. apply filter_In in Ht. tauto.
      * right.
        destruct (fst (create_as config base (effective_name config base) _));
          cbn in Ht; [destruct Ht as [->|[]]; reflexivity | contradiction].
    + congruence.
  - (* skip *)
    cbn. rewrite !app_nil_r, Nat.add_0_r. repeat split; try discriminate; auto.
Qed.

Lemma launch_one_state i config base action s :
  let r := fst (createTerminal config base action s) in
  let s1 := snd (createTerminal config base action s) in
  let s' := snd (launch_one i config base action s) in
  this_terminals s' = (this_terminals s1 ++ opt_list r)%list
  /\ next_id s' = next_id s1
  /\ clock s' = clock s1
  /\ timers s' = timers s1
  /\ window_terminals s' = window_terminals s1.
Proof.
  cbv zeta. unfold launch_one, bind.
  destruct (createTerminal config base action s) as [[t|] s1]; cbn.
  - repeat split.
  - rewrite app_nil_r. repeat split.
Qed.

Lemma launch_one_born i config base action s :
  extends s (snd (launch_one i config base action s))
  /\ born s (snd (launch_one i config base action s))
     = opt_list (fst (createTerminal config base action s)).
Proof.
  destruct (launch_one_events i config base action s) as (evs & A1 & A2 & _).
  split; [exact (extends_by _ _ _ A1)|].
  unfold born. now rewrite (events_since_app _ _ _ A1).
Qed.

Lemma books_refl s : books s s.
Proof.
  destruct (extends_refl s) as [He Hn].
  unfold books, born. rewrite Hn. cbn. rewrite app_nil_r, Nat.add_0_r.
  repeat split; auto; try lia.
  exists []. now rewrite app_nil_r.
Qed.

Lemma books_trans s1 s2 s3 : books s1 s2 -> books s2 s3 -> books s1 s3.
Proof.
  intros (E1 & T1 & I1 & N1 & W1 & (new1 & M1 & F1) & C1)
         (E2 & T2 & I2 & N2 & W2 & (new2 & M2 & F2) & C2).
  pose proof (born_trans s1 s2 s3 E1 E2) as Hb.
  destruct (extends_trans s1 s2 s3 E1 E2) as [E3 _].
  unfold books. rewrite Hb.
  repeat split; auto.
  - now rewrite T2, T1, app_assoc.
  - rewrite map_app, length_app, seq_app, I1, I2, N1. reflexivity.
  - rewrite length_app. lia.
  - intros t Ht. rewrite in_app_iff.
    destruct (W2 t Ht) as [H|H]; [|tauto].
    destruct (W1 t H); tauto.
  - exists (new1 ++ new2)%list. split; [now rewrite M2, M1, app_assoc|].
    apply Forall_app. split; eapply Forall_impl; try eassumption;
      intros tm Htm; rewrite map_app, in_app_iff; tauto.
  - lia.
Qed.

Lemma books_one base action i config s :
  books s (snd (launch_one i config base action s)).
Proof.
  destruct (launch_one_born i config base action s) as [He Hb].
  destruct (launch_one_state i config base action s) as (T & N & C & M & W).
  destruct (createTerminal_state config base action s)
    as (T' & N' & I' & C' & M' & W' & _).
  cbv zeta in *. unfold books. rewrite Hb.
  repeat split; auto.
  - now rewrite T, T'.
  - destruct (fst (createTerminal config base action s)) as [t|]; cbn; [|easy].
    now rewrite (I' t eq_refl).
  - now rewrite N, N'.
  - intros t Ht. rewrite W in Ht. destruct (W' t Ht) as [H|H]; [now left|].
    right. rewrite H. now left.
  - eexists. split; [rewrite M, M'; reflexivity|].
    destruct (fst (createTerminal config base action s)) as [t|]; [|constructor].
    apply Forall_forall. intros tm Htm. apply in_map_iff in Htm as (d & <- & _).
    now left.
  - rewrite C, C'. lia.
Qed.

Lemma books_sleep s : books s (snd (sleep 200 s)).
Proof.
  assert (E : trace (snd (sleep 200 s)) = (trace s ++ [])%list)
    by (cbn; now rewrite app_nil_r).
  unfold books, born. rewrite (events_since_app _ _ _ E). cbn.
  rewrite app_nil_r, Nat.add_0_r.
  repeat split; auto; try lia; try exact (extends_by _ _ _ E).
  exists []. now rewrite app_nil_r.
Qed.

Lemma books_prompt p s :
  books s (snd (emit (ShowQuickPick p) s))
  /\ born s (snd (emit (ShowQuickPick p) s)) = [].
Proof.
  assert (E : trace (snd (emit (ShowQuickPick p) s))
              = (trace s ++ [ShowQuickPick p])%list) by reflexivity.
  assert (B : born s (snd (emit (ShowQuickPick p) s)) = []).
  { unfold born. now rewrite (events_since_app _ _ _ E). }
  split; [|exact B].
  unfold books. rewrite B. cbn. rewrite app_nil_r, Nat.add_0_r.
  repeat split; auto; try lia; try exact (extends_by _ _ _ E).
  exists []. now rewrite app_nil_r.
Qed.

(** The check leaves the state as it is or adds the prompt to the trace. *)
Lemma books_check config base picked s :
  books s (snd (checkForDuplicateTerminals config base picked s))
  /\ born s (snd (checkForDuplicateTerminals config base picked s)) = []
  /\ window_terminals (snd (checkForDuplicateTerminals config base picked s))
     = window_terminals s.
Proof.
  rewrite checkForDuplicateTerminals_state.
  destruct (duplicates config base s).
  - cbn [snd]. destruct (extends_refl s) as [_ Hn].
    split; [apply books_refl|]. split; [unfold born; now rewrite Hn | reflexivity].
  - destruct (books_prompt (placeHolder (length (s0 :: l))) s) as [A B].
    split; [exact A|]. split; [exact B | reflexivity].
Qed.

(** The state after a launch: that of the check when it answers cancel,
    that of the requests under its answer otherwise. *)
Lemma launchTerminals_exec config base picked s :
  exec (launchTerminals config base picked) s
  = match fst (checkForDuplicateTerminals config base picked s) with
    | Cancel => snd (checkForDuplicateTerminals config base picked s)
    | _ => exec (launch_requests config base
                   (fst (checkForDuplicateTerminals config base picked s)))
                (snd (checkForDuplicateTerminals config base picked s))
    end.
Proof.
  unfold exec. rewrite launchTerminals_eq.
  now destruct (fst (checkForDuplicateTerminals config base picked s)).
Qed.

Lemma books_launch config base picked s :
  books s (exec (launchTerminals config base picked) s).
Proof.
  rewrite launchTerminals_exec.
  destruct (books_check config base picked s) as (Hc & _ & _).
  assert (H : forall a,
    books s (exec (launch_requests config base a)
                  (snd (checkForDuplicateTerminals config base picked s)))).
  { intros a. eapply books_trans; [exact Hc|].
    apply induction_requests.
    - apply books_refl.
    - apply books_trans.
    - intros i c s0. apply books_one.
    - apply books_sleep. }
  destruct (fst (checkForDuplicateTerminals config base picked s)); auto.
Qed.

End RequestLedger.

(** ** The registry, the live terminals and the timers through a launch *)

Section LaunchLedger.

Context {path : Path.Api} {host : Host}.

(** X7. Whatever the answer of the prompt, a launch pushes on the registry
    the terminals it creates, in the order of their creation, and nothing
    else: what the registry held before stays in front, the handles of
    terminals replaced or closed since included; and the terminals created
    are new ones, each with an identity of its own. *)
Theorem launch_registers_created config base picked s :
  let s' := exec (launchTerminals config base picked) s in
  trace s' = (trace s ++ events_since s s')%list
  /\ this_terminals s' = (this_terminals s ++ created (events_since s s'))%list
  /\ map term_id (created (events_since s s'))
     = seq (next_id s) (length (created (events_since s s')))
  /\ next_id s' = next_id s + length (created (events_since s s')).
Proof.
  destruct (books_launch config base picked s) as (E & T & I & N & _).
  cbv zeta. repeat split; assumption.
Qed.

(** X8. A launch cancels no pending timer, and every timer it adds is for
    a terminal it has created: no text is ever scheduled for a terminal
    that was live before the launch (the identities of the live terminals
    being below the next one to hand out). *)
Theorem launch_schedules_for_created_only config base picked s :
  ids_below s ->
  let s' := exec (launchTerminals config base picked) s in
  exists new,
    timers s' = (timers s ++ new)%list
    /\ Forall (fun tm =>
                 (exists t, In t (created (events_since s s'))
                            /\ target tm = term_id t)
                 /\ forall u, In u (window_terminals s) -> target tm <> term_id u)
              new.
Proof.
  intros Hids.
  destruct (books_launch config base picked s)
    as (E & T & I & N & W & (new & M & F) & C).
  cbv zeta. exists new. split; [exact M|].
  eapply Forall_impl; [|exact F]. intros tm Htm. cbv beta in Htm.
  assert (Hs : In (target tm)
                 (seq (next_id s)
                    (length (born s (exec (launchTerminals config base picked) s)))))
    by now rewrite <- I.
  apply in_seq in Hs.
  apply in_map_iff in Htm as (t & Ht & Hin). split.
  - exists t. split; [exact Hin | now symmetry].
  - intros u Hu Heq. specialize (Hids u Hu). lia.
Qed.

Lemma keeps_live_refl s : keeps_live s s.
Proof.
  destruct (extends_refl s) as [He Hn]. split; [exact He|].
  unfold born. rewrite Hn. cbn. now rewrite app_nil_r.
Qed.

Lemma keeps_live_trans s1 s2 s3 :
  keeps_live s1 s2 -> keeps_live s2 s3 -> keeps_live s1 s3.
Proof.
  intros [E1 W1] [E2 W2]. split; [apply (extends_trans s1 s2 s3 E1 E2)|].
  now rewrite (born_trans s1 s2 s3 E1 E2), W2, W1, app_assoc.
Qed.

Lemma keeps_live_one base action i config s :
  action <> Replace -> keeps_live s (snd (launch_one i config base action s)).
Proof.
  intros Ha.
  destruct (launch_one_born i config base action s) as [He Hb].
  destruct (launch_one_state i config base action s) as (_ & _ & _ & _ & W).
  destruct (createTerminal_state config base action s)
    as (_ & _ & _ & _ & _ & _ & W').
  cbv zeta in *. split; [exact He|]. now rewrite Hb, W, W'.
Qed.

Lemma keeps_live_sleep s : keeps_live s (snd (sleep 200 s)).
Proof.
  assert (E : trace (snd (sleep 200 s)) = (trace s ++ [])%list)
    by (cbn; now rewrite app_nil_r).
  split; [exact (extends_by _ _ _ E)|].
  unfold born. rewrite (events_since_app _ _ _ E). cbn. now rewrite app_nil_r.
Qed.

Lemma keeps_live_launch config base picked s :
  picked <> Some ReplaceExisting ->
  keeps_live s (exec (launchTerminals config base picked) s).
Proof.
  intros Hp. rewrite launchTerminals_exec.
  destruct (books_check config base picked s) as ((Ec & _) & Bc & Wc).
  assert (Hc : keeps_live s (snd (checkForDuplicateTerminals config base picked s))).
  { split; [exact Ec|]. rewrite Bc, Wc. now rewrite app_nil_r. }
  assert (Ha : fst (checkForDuplicateTerminals config base picked s) <> Replace).
  { rewrite checkForDuplicateTerminals_state.
    destruct (duplicates config base s); [discriminate|].
    destruct picked as [[]|]; cbn; congruence. }
  assert (H : keeps_live s
    (exec (launch_requests config base
             (fst (checkForDuplicateTerminals config base picked s)))
          (snd (checkForDuplicateTerminals config base picked s)))).
  { eapply keeps_live_trans; [exact Hc|].
    apply induction_requests.
    - apply keeps_live_refl.
    - apply keeps_live_trans.
    - intros i c s0. now apply keeps_live_one.
    - apply keeps_live_sleep. }
  destruct (fst (checkForDuplicateTerminals config base picked s)); auto.
Qed.

(** X9. Unless the answer of the prompt is replace, a launch disposes of
    nothing: the live terminals after it are those live before, in their
    order, followed by the terminals it has created, in the order of their
    creation. *)
Theorem launch_keeps_live_terminals config base picked s :
  picked <> Some ReplaceExisting ->
  let s' := exec (launchTerminals config base picked) s in
  window_terminals s'
  = (window_terminals s ++ created (events_since s s'))%list.
Proof. intros Hp. apply (keeps_live_launch config base picked s Hp). Qed.

Lemma filter_filter {A} (f g : A -> bool) (l : list A) :
  filter f (filter g l) = filter (fun x => g x && f x) l.
Proof.
  induction l as [|a l IH]; [reflexivity|]. cbn.
  destruct (g a); cbn; [destruct (f a)|]; now rewrite IH.
Qed.

Lemma forEach_dispose (registry : list Terminal) :
  forall s,
    let s' := snd (forEach dispose registry s) in
    window_terminals s'
      = filter (fun u => negb (tracked registry u)) (window_terminals s)
    /\ trace s' = (trace s ++ map (fun t => Dispose (term_id t)) registry)%list
    /\ this_terminals s' = this_terminals s
    /\ next_id s' = next_id s /\ clock s' = clock s /\ timers s' = timers s.
Proof.
  induction registry as [|t registry IH]; intros s; cbv zeta.
  - cbn. rewrite app_nil_r. repeat split.
    induction (window_terminals s) as [|u l IHl]; cbn; congruence.
  - cbn [forEach]. unfold bind.
    destruct (dispose t s) as [u s1] eqn:Hd.
    assert (Hs1 : s1 = snd (dispose t s)) by now rewrite Hd.
    destruct (IH s1) as (W & T & R & N & C & M). cbv zeta in *.
    rewrite W, T, R, N, C, M, Hs1. cbn. rewrite filter_filter, <- app_assoc.
    repeat split. apply filter_ext. intros x. unfold tracked. cbn.
    rewrite negb_orb, Nat.eqb_sym. reflexivity.
Qed.

Lemma disposeTerminals_state s :
  let s' := exec disposeTerminals s in
  window_terminals s'
    = filter (fun u => negb (tracked (this_terminals s) u)) (window_terminals s)
  /\ this_terminals s' = []
  /\ trace s'
     = (trace s ++ map (fun t => Dispose (term_id t)) (this_terminals s))%list
  /\ timers s' = timers s /\ clock s' = clock s /\ next_id s' = next_id s.
Proof.
  cbv zeta. unfold exec, disposeTerminals.
  destruct (forEach_dispose (this_terminals s) s) as (W & T & _ & N & C & M).
  cbv zeta in *.
  destruct (forEach dispose (this_terminals s) s) as [u s1]. cbn in *.
  repeat split; assumption.
Qed.

(** X10. [disposeTerminals] takes from the live terminals those whose
    handle the registry holds, and no other: the rest stay, in their order;
    it records one dispose per handle, in the order of the registry, empties
    the registry, and touches neither timers nor clock. *)
Theorem disposeTerminals_removes_tracked s :
  let s' := exec disposeTerminals s in
  window_terminals s'
    = filter (fun u => negb (tracked (this_terminals s) u)) (window_terminals s)
  /\ this_terminals s' = []
  /\ trace s'
     = (trace s ++ map (fun t => Dispose (term_id t)) (this_terminals s))%list
  /\ timers s' = timers s /\ clock s' = clock s /\ next_id s' = next_id s.
Proof. apply disposeTerminals_state. Qed.

Lemma filter_tracked_none (registry l : list Terminal) :
  incl l registry ->
  filter (fun u => negb (tracked registry u)) l = [].
Proof.
  induction l as [|t l IH]; intros H; [reflexivity|]. cbn.
  assert (Ht : tracked registry t = true).
  { apply existsb_exists. exists t. split; [|apply Nat.eqb_refl].
    apply H. now left. }
  rewrite Ht. cbn. apply IH. intros x Hx. apply H. now right.
Qed.

(** X11. A launch whose answer is not replace, by a manager that tracked
    nothing before, is undone by [disposeTerminals] as far as the live
    terminals go: they are again those live before the launch. *)
Theorem dispose_undoes_launch config base picked s :
  ids_below s ->
  this_terminals s = [] ->
  picked <> Some ReplaceExisting ->
  window_terminals
    (exec disposeTerminals (exec (launchTerminals config base picked) s))
  = window_terminals s.
Proof.
  intros Hids Hreg Hp.
  set (s1 := exec (launchTerminals config base picked) s).
  destruct (books_launch config base picked s) as (E & T & I & N & _).
  destruct (keeps_live_launch config base picked s Hp) as [_ W].
  fold s1 in T, I, N, W.
  destruct (disposeTerminals_state s1) as (Wd & _). cbv zeta in Wd.
  rewrite Wd, T, Hreg, W. change ([] ++ born s s1)%list with (born s s1).
  rewrite filter_app.
  assert (Hold : filter (fun u => negb (tracked (born s s1) u)) (window_terminals s)
                 = window_terminals s).
  { apply forallb_filter_id. apply forallb_forall. intros x Hx.
    apply negb_true_iff. unfold tracked.
    destruct (existsb _ (born s s1)) eqn:Hex; [|reflexivity].
    apply existsb_exists in Hex as (t & Ht & Heq). apply Nat.eqb_eq in Heq.
    assert (Hs : In (term_id t) (seq (next_id s) (length (born s s1))))
      by (rewrite <- I; now apply in_map).
    apply in_seq in Hs. specialize (Hids x Hx). lia. }
  rewrite Hold, (filter_tracked_none (born s s1) (born s s1)) by apply incl_refl.
  apply app_nil_r.
Qed.

End LaunchLedger.

(** ** Names under skip and rename, and the pauses of a group *)

Section Policies.

Context {path : Path.Api} {host : Host}.

Lemma keeps_distinct_refl s : keeps_distinct s s.
Proof. split; [apply incl_refl | auto]. Qed.

Lemma keeps_distinct_trans s1 s2 s3 :
  keeps_distinct s1 s2 -> keeps_distinct s2 s3 -> keeps_distinct s1 s3.
Proof.
  intros [I1 N1] [I2 N2]. split; [eapply incl_tran; eassumption | auto].
Qed.

Lemma keeps_distinct_sleep s : keeps_distinct s (snd (sleep 200 s)).
Proof. split; [apply incl_refl | auto]. Qed.

Lemma fresh_when_skip_or_rename base action config s :
  action = Skip \/ action = Rename ->
  window_terminals (snd (createTerminal config base action s))
    = (window_terminals s ++ opt_list (fst (createTerminal config base action s)))%list
  /\ forall t, fst (createTerminal config base action s) = Some t ->
       ~ In (term_name t) (live_names s).
Proof.
  intros [->| ->]; [|apply createTerminal_rename_live].
  destruct (createTerminal_state config base Skip s)
    as (_ & _ & _ & _ & _ & _ & W).
  split; [apply W; discriminate|].
  intros t Ht. now apply (createTerminal_skip_fresh config base s t).
Qed.

Lemma keeps_distinct_one base action i config s :
  action = Skip \/ action = Rename ->
  keeps_distinct s (snd (launch_one i config base action s)).
Proof.
  intros Ha. unfold keeps_distinct, live_names. rewrite launch_one_live.
  destruct (fresh_when_skip_or_rename base action config s Ha) as [W Hf].
  rewrite W. split; [apply incl_appl, incl_refl|]. intros Hnd. rewrite map_app.
  destruct (fst (createTerminal config base action s)) as [t|]; cbn.
  - apply NoDup_app; auto.
    + repeat constructor. intros [].
    + intros a Ha' [<-|[]]. now apply (Hf t).
  - now rewrite app_nil_r.
Qed.

(** X12. When the prompt is answered with skip or with rename, a launch
    keeps every terminal that was live, and if the live names were
    pairwise distinct before it they are so after it: no terminal is
    created under a name held by a terminal live before the launch or
    created earlier in it, a name requested twice included. *)
Theorem skip_and_rename_keep_names_distinct config base picked s :
  duplicates config base s <> [] ->
  picked = Some SkipExisting \/ picked = Some RenameNew ->
  NoDup (live_names s) ->
  let s' := exec (launchTerminals config base picked) s in
  NoDup (live_names s') /\ incl (window_terminals s) (window_terminals s').
Proof.
  intros Hd Hp Hnd. cbv zeta. rewrite launchTerminals_exec.
  rewrite checkForDuplicateTerminals_state.
  destruct (duplicates config base s) as [|d ds]; [contradiction|].
  cbn [fst snd].
  set (s1 := snd (emit (ShowQuickPick (placeHolder (length (d :: ds)))) s)).
  assert (H : forall a, a = Skip \/ a = Rename ->
                        keeps_distinct s (exec (launch_requests config base a) s1)).
  { intros a Ha.
    apply (keeps_distinct_trans s s1); [split; [apply incl_refl | auto]|].
    apply induction_requests.
    - apply keeps_distinct_refl.
    - apply keeps_distinct_trans.
    - intros i c s0. now apply keeps_distinct_one.
    - apply keeps_distinct_sleep. }
  destruct Hp as [->| ->]; cbn [value].
  - destruct (H Skip) as [I N]; auto.
  - destruct (H Rename) as [I N]; auto.
Qed.

Lemma launch_one_clock i config base action s :
  let r := fst (launch_one i config base action s) in
  let s' := snd (launch_one i config base action s) in
  clock s' = clock s
  /\ next_id s' = next_id s + length (opt_list r).
Proof.
  cbv zeta.
  destruct (launch_one_state i config base action s) as (_ & N & C & _).
  destruct (createTerminal_state config base action s) as (_ & N' & _ & C' & _).
  cbv zeta in *. rewrite launch_one_result. split; congruence.
Qed.

Lemma ungrouped_clock base action ts :
  forall i s, clock (exec (launchTerminals_loop i ts base action) s) = clock s.
Proof.
  induction ts as [|config rest IH]; intros i s; [reflexivity|].
  rewrite launchTerminals_loop_cons, IH.
  apply (launch_one_clock i config base action s).
Qed.

Lemma group_loop_clock base action len ts :
  forall i s,
    i + length ts = len ->
    let s' := exec (launchTerminalGroup_loop i len ts base action) s in
    let n := Z.of_nat (next_id s' - next_id s) in
    (200 * n - 200 <= clock s' - clock s <= 200 * n)%Z
    /\ (0 <= clock s' - clock s <= 200 * Z.of_nat (length ts - 1))%Z
    /\ next_id s <= next_id s' <= next_id s + length ts.
Proof.
  induction ts as [|config rest IH]; intros i s Hlen; cbv zeta.
  - unfold exec. cbn [launchTerminalGroup_loop ret snd length]. lia.
  - unfold exec. cbn [launchTerminalGroup_loop]. unfold bind.
    destruct (launch_one_clock i config base action s) as [C N]. cbv zeta in *.
    cbn [length] in Hlen.
    specialize (IH (S i)).
    assert (Hgo : forall s2,
      (clock s2 = clock s
       /\ next_id s2 = next_id s /\ fst (launch_one i config base action s) = None)
      \/ (clock s2 = clock s /\ next_id s2 = next_id s + 1 /\ rest = [])
      \/ (clock s2 = (clock s + 200)%Z /\ next_id s2 = next_id s + 1 /\ rest <> []) ->
      let s' := snd (launchTerminalGroup_loop (S i) len rest base action s2) in
      let n := Z.of_nat (next_id s' - next_id s) in
      (200 * n - 200 <= clock s' - clock s <= 200 * n)%Z
      /\ (0 <= clock s' - clock s
          <= 200 * Z.of_nat (length (config :: rest) - 1))%Z
      /\ next_id s <= next_id s' <= next_id s + length (config :: rest)).
    { intros s2 Hs2. specialize (IH s2 ltac:(lia)). cbv zeta in *.
      unfold exec in IH.
      set (s' := snd (launchTerminalGroup_loop (S i) len rest base action s2)) in *.
      clearbody s'. destruct IH as ((A1 & A2) & (B1 & B2) & (D1 & D2)).
      destruct rest as [|c' rest']; cbn [length] in *;
        destruct Hs2 as [(H1 & H2 & _)|[(H1 & H2 & H3)|(H1 & H2 & H3)]];
        try discriminate; try contradiction; repeat split; lia. }
    destruct (launch_one i config base action s) as [[t|] s1];
      cbn [fst snd opt_list length] in *.
    + destruct (i <? len - 1)%nat eqn:Hi.
      * apply Nat.ltb_lt in Hi. apply Hgo. right. right.
        cbn. repeat split; try lia. intros ->. cbn in Hlen. lia.
      * apply Nat.ltb_ge in Hi. apply Hgo. right. left.
        repeat split; try lia. destruct rest; [reflexivity | cbn in Hlen; lia].
    + apply Hgo. left. repeat split; lia.
Qed.

(** Bounds on the time a group takes. *)
Lemma group_clock_bounds base action group s :
  let ts := match group_terminals group with Some ts => ts | None => [] end in
  let s' := exec (launchTerminalGroup group base action) s in
  let n := Z.of_nat (length (created (events_since s s'))) in
  (200 * n - 200 <= clock s' - clock s <= 200 * n)%Z
  /\ (0 <= clock s' - clock s <= 200 * Z.of_nat (length ts - 1))%Z
  /\ forall i ungrouped,
       clock (exec (launchTerminals_loop i ungrouped base action) s) = clock s.
Proof.
  cbv zeta.
  assert (Hb : books s (exec (launchTerminalGroup group base action) s)).
  { apply induction_group.
    - apply books_refl.
    - apply books_trans.
    - intros i c s0. apply books_one.
    - apply books_sleep. }
  destruct Hb as (_ & _ & _ & N & _). fold (born s (exec (launchTerminalGroup group base action) s)).
  assert (Hn : length (born s (exec (launchTerminalGroup group base action) s))
               = next_id (exec (launchTerminalGroup group base action) s) - next_id s)
    by lia.
  rewrite Hn. clear Hn N.
  split; [|split; [|intros i ungrouped; apply ungrouped_clock]];
    unfold launchTerminalGroup;
    destruct (group_terminals group) as [[|config rest]|];
    try (unfold exec; cbn [ret snd length]; lia);
    destruct (group_loop_clock base action (length (config :: rest))
                (config :: rest) 0 s eq_refl) as (A & B & _);
    assumption.
Qed.

Lemma group_loop_front base action front :
  forall i final s len,
    len = i + length front + 1 ->
    exec (launchTerminalGroup_loop i len (front ++ [final]) base action) s
    = snd (launch_one (i + length front) final base action
             (launched_with_pauses base action i front s)).
Proof.
  induction front as [|config rest IH]; intros i final s len Hlen.
  - cbn [Datatypes.app Datatypes.length launched_with_pauses]. unfold exec.
    cbn [launchTerminalGroup_loop]. unfold bind. rewrite Nat.add_0_r.
    destruct (launch_one i final base action s) as [[t|] s1]; [|reflexivity].
    replace (i <? len - 1)%nat with false; [reflexivity|].
    symmetry. apply Nat.ltb_ge. cbn in Hlen. lia.
  - cbn [Datatypes.app Datatypes.length launched_with_pauses]. unfold exec.
    cbn [launchTerminalGroup_loop]. unfold bind.
    specialize (IH (S i) final).
    replace (i + S (length rest)) with (S i + length rest) by lia.
    destruct (launch_one i config base action s) as [[t|] s1]; cbn [fst snd].
    + replace (i <? len - 1)%nat with true
        by (symmetry; apply Nat.ltb_lt; cbn in Hlen; lia).
      rewrite <- (IH (snd (sleep 200 s1)) len) by (cbn in Hlen; lia).
      reflexivity.
    + rewrite <- (IH s1 len) by (cbn in Hlen; lia). reflexivity.
Qed.

Lemma born_same_trace (s s1 s2 : State) :
  trace s2 = trace s1 ->
  extends s s1 -> extends s s2 /\ born s s2 = born s s1.
Proof.
  unfold extends, born, events_since. intros ->. auto.
Qed.

Lemma launched_with_pauses_clock base action front :
  forall i s,
    extends s (launched_with_pauses base action i front s)
    /\ clock (launched_with_pauses base action i front s)
       = (clock s
          + 200 * Z.of_nat
                    (length (born s (launched_with_pauses base action i front s))))%Z.
Proof.
  induction front as [|config rest IH]; intros i s.
  - cbn [launched_with_pauses]. destruct (extends_refl s) as [E B].
    split; [exact E|]. unfold born. rewrite B. cbn. lia.
  - cbn [launched_with_pauses].
    destruct (launch_one_born i config base action s) as [E1 B1].
    destruct (launch_one_clock i config base action s) as [C1 _].
    cbv zeta in C1. rewrite <- launch_one_result with (i := i) in B1.
    set (s2 := match fst (launch_one i config base action s) with
               | Some _ => exec (sleep 200) (snd (launch_one i config base action s))
               | None => snd (launch_one i config base action s)
               end).
    assert (T2 : trace s2 = trace (snd (launch_one i config base action s)))
      by (unfold s2; now destruct (fst (launch_one i config base action s))).
    destruct (born_same_trace s _ s2 T2 E1) as [E2 B2].
    destruct (IH (S i) s2) as [E3 C3].
    split; [exact (proj1 (extends_trans s s2 _ E2 E3))|].
    rewrite C3, (born_trans s s2 _ E2 E3), length_app, B2, B1.
    unfold s2.
    destruct (fst (launch_one i config base action s));
      cbn [opt_list Datatypes.length exec sleep snd clock]; rewrite ?C1; lia.
Qed.

(** X13. The terminals of the ungrouped list are created with no pause.
    In a group a pause of 200 ms follows each terminal created, except one
    created from the last entry: the group is launched as its entries
    before the last are, each with its pause when it gives a terminal,
    followed by the last entry with no pause; so the group takes 200 ms
    for each terminal created from an entry other than the last, that is
    200 * n ms or 200 ms less when it creates n terminals. *)
Theorem group_pauses base action group front final s :
  group_terminals group = Some (front ++ [final])%list ->
  let mid := launched_with_pauses base action 0 front s in
  let s' := exec (launchTerminalGroup group base action) s in
  s' = snd (launch_one (length front) final base action mid)
  /\ clock mid
     = (clock s + 200 * Z.of_nat (length (created (events_since s mid))))%Z
  /\ clock s' = clock mid
  /\ created (events_since s s')
     = (created (events_since s mid)
        ++ opt_list (fst (createTerminal final base action mid)))%list
  /\ forall i ungrouped,
       clock (exec (launchTerminals_loop i ungrouped base action) s) = clock s.
Proof.
  intros Hg. cbv zeta.
  assert (Hrun : exec (launchTerminalGroup group base action) s
                 = snd (launch_one (length front) final base action
                          (launched_with_pauses base action 0 front s))).
  { unfold launchTerminalGroup. rewrite Hg.
    destruct (front ++ [final])%list as [|c l] eqn:E;
      [now destruct front|].
    rewrite <- E.
    apply (group_loop_front base action front 0 final s).
    rewrite length_app. cbn. lia. }
  destruct (launched_with_pauses_clock base action front 0 s) as [E C].
  destruct (launch_one_born (length front) final base action
              (launched_with_pauses base action 0 front s)) as [E1 B1].
  destruct (launch_one_clock (length front) final base action
              (launched_with_pauses base action 0 front s)) as [C1 _].
  cbv zeta in C1.
  split; [exact Hrun|]. split; [exact C|]. rewrite Hrun.
  split; [exact C1|]. split; [|intros i ungrouped; apply ungrouped_clock].
  fold (born s (snd (launch_one (length front) final base action
                       (launched_with_pauses base action 0 front s)))).
  now rewrite (born_trans s _ _ E E1), B1.
Qed.

Lemma createTerminal_plain config base s :
  unresolvable config base = false ->
  (forall o, createTerminal_throws o = None) ->
  exists t,
    fst (createTerminal config base Proceed s) = Some t
    /\ term_options t
       = terminalOptions config (effective_name config base)
           (resolve_cwd config base).
Proof.
  intros Hu Hh. rewrite createTerminal_eq, Hu.
  assert (H : exists t,
    fst (create_as config base (effective_name config base) s) = Some t
    /\ term_options t
       = terminalOptions config (effective_name config base)
           (resolve_cwd config base)).
  { unfold create_as. rewrite Hh. cbn. eexists. split; reflexivity. }
  destruct (find _ (window_terminals s)); exact H.
Qed.

Lemma plain_one base i config s :
  unresolvable config base = false ->
  (forall o, createTerminal_throws o = None) ->
  extends s (snd (launch_one i config base Proceed s))
  /\ map term_options (born s (snd (launch_one i config base Proceed s)))
     = [options_of base config].
Proof.
  intros Hu Hh. destruct (launch_one_born i config base Proceed s) as [E B].
  split; [exact E|]. rewrite B.
  destruct (createTerminal_plain config base s Hu Hh) as (t & -> & Ho).
  cbn. now rewrite Ho.
Qed.

Lemma plain_trans s1 s2 s3 l1 l2 :
  extends s1 s2 /\ map term_options (born s1 s2) = l1 ->
  extends s2 s3 /\ map term_options (born s2 s3) = l2 ->
  extends s1 s3 /\ map term_options (born s1 s3) = (l1 ++ l2)%list.
Proof.
  intros [E1 B1] [E2 B2]. split; [apply (extends_trans s1 s2 s3 E1 E2)|].
  now rewrite (born_trans s1 s2 s3 E1 E2), map_app, B1, B2.
Qed.

Lemma plain_same s s' :
  trace s' = trace s ->
  extends s s' /\ map term_options (born s s') = [].
Proof.
  intros H. assert (E : trace s' = (trace s ++ [])%list) by now rewrite app_nil_r.
  split; [exact (extends_by _ _ _ E)|].
  unfold born. now rewrite (events_since_app _ _ _ E).
Qed.

Lemma plain_ungrouped base ts :
  (forall c, In c ts -> unresolvable c base = false) ->
  (forall o, createTerminal_throws o = None) ->
  forall i s,
    extends s (exec (launchTerminals_loop i ts base Proceed) s)
    /\ map term_options (born s (exec (launchTerminals_loop i ts base Proceed) s))
       = map (options_of base) ts.
Proof.
  intros Hu Hh. induction ts as [|config rest IH]; intros i s.
  - now apply plain_same.
  - rewrite launchTerminals_loop_cons.
    apply (plain_trans s (snd (launch_one i config base Proceed s)) _
             [options_of base config] (map (options_of base) rest)).
    + apply plain_one; auto. apply Hu. now left.
    + apply IH. intros c Hc. apply Hu. now right.
Qed.

Lemma plain_group_loop base len ts :
  (forall c, In c ts -> unresolvable c base = false) ->
  (forall o, createTerminal_throws o = None) ->
  forall i s,
    extends s (exec (launchTerminalGroup_loop i len ts base Proceed) s)
    /\ map term_options
         (born s (exec (launchTerminalGroup_loop i len ts base Proceed) s))
       = map (options_of base) ts.
Proof.
  intros Hu Hh. induction ts as [|config rest IH]; intros i s.
  - now apply plain_same.
  - destruct (launchTerminalGroup_loop_cons base Proceed i len config rest s)
      as (s1 & E & T & _).
    rewrite E.
    apply (plain_trans s (snd (launch_one i config base Proceed s)) _
             [options_of base config] (map (options_of base) rest)).
    + apply plain_one; auto. apply Hu. now left.
    + rewrite <- (app_nil_l (map (options_of base) rest)).
      apply (plain_trans _ s1 _ [] (map (options_of base) rest)).
      * now apply plain_same.
      * apply IH. intros c Hc. apply Hu. now right.
Qed.

Lemma plain_groups base gs :
  (forall c, In c (group_requests gs) -> unresolvable c base = false) ->
  (forall o, createTerminal_throws o = None) ->
  forall s,
    extends s
      (exec (forEach (fun group => launchTerminalGroup group base Proceed) gs) s)
    /\ map term_options
         (born s
            (exec (forEach (fun group => launchTerminalGroup group base Proceed) gs) s))
       = map (options_of base) (group_requests gs).
Proof.
  intros Hu Hh. induction gs as [|g gs IH]; intros s.
  - now apply plain_same.
  - unfold exec. cbn [forEach]. unfold bind.
    assert (Hg : extends s (exec (launchTerminalGroup g base Proceed) s)
                 /\ map term_options
                      (born s (exec (launchTerminalGroup g base Proceed) s))
                    = map (options_of base)
                        (match group_terminals g with Some ts => ts | None => [] end)).
    { unfold launchTerminalGroup.
      destruct (group_terminals g) as [[|c rest]|] eqn:Hgt;
        try (now apply plain_same).
      apply plain_group_loop; auto. intros c' Hc'. apply Hu.
      unfold group_requests. cbn [flat_map]. rewrite Hgt.
      apply in_or_app. now left. }
    unfold exec in Hg.
    destruct (launchTerminalGroup g base Proceed s) as [u s1]. cbn [snd] in *.
    unfold group_requests. cbn [flat_map]. rewrite map_app.
    apply (plain_trans s s1); [exact Hg|].
    apply IH. intros c Hc. apply Hu. unfold group_requests. cbn [flat_map].
    apply in_or_app. now right.
Qed.

Lemma terminalNames_requests config base :
  terminalNames config base
  = map (fun c => effective_name c base) (requests config).
Proof.
  unfold terminalNames, requests, group_requests.
  destruct (groups config) as [[|g gs]|].
  - destruct (terminals config) as [[|t ts]|]; reflexivity.
  - induction (g :: gs) as [|g' gs' IH]; [reflexivity|].
    cbn [flat_map]. rewrite map_app, IH.
    now destruct (group_terminals g').
  - destruct (terminals config) as [[|t ts]|]; reflexivity.
Qed.

Lemma duplicates_none config base s :
  duplicates config base s = [] <->
  forall n, In n (terminalNames config base) -> ~ In n (live_names s).
Proof.
  unfold duplicates, findExistingTerminal. cbn [fst].
  induction (terminalNames config base) as [|n l IH]; cbn [filter].
  - split; [intros _ n [] | reflexivity].
  - destruct (find (fun t => term_name t =? n) (window_terminals s)) eqn:Hf.
    + split; [discriminate|]. intros H. exfalso.
      apply (H n); [now left|].
      destruct (in_dec string_dec n (live_names s)) as [Hin|Hnot]; [exact Hin|].
      apply find_name_none in Hnot. congruence.
    + apply find_name_none in Hf. rewrite IH. split.
      * intros H m [<-|Hm]; auto.
      * intros H m Hm. apply H. now right.
Qed.

(** X14. When no requested name is held by a live terminal, every request
    can resolve its directory and the host refuses none, a launch shows no
    prompt and creates one terminal per request, in the order of the
    requests, each with the options of its request under its effective
    name: two requests of the same name give two terminals of that name. *)
Theorem launch_creates_every_request config base picked s :
  duplicates config base s = [] ->
  (forall c, In c (requests config) -> unresolvable c base = false) ->
  (forall o, createTerminal_throws o = None) ->
  let s' := exec (launchTerminals config base picked) s in
  map term_options (created (events_since s s'))
    = map (options_of base) (requests config)
  /\ map term_name (created (events_since s s')) = terminalNames config base.
Proof.
  intros Hd Hu Hh. cbv zeta. rewrite launchTerminals_exec.
  rewrite checkForDuplicateTerminals_state, Hd. cbn [fst snd].
  assert (H : extends s (exec (launch_requests config base Proceed) s)
              /\ map term_options
                   (born s (exec (launch_requests config base Proceed) s))
                 = map (options_of base) (requests config)).
  { unfold launch_requests, requests in *.
    destruct (groups config) as [[|g gs]|].
    - destruct (terminals config) as [[|t ts]|]; try (now apply plain_same).
      now apply plain_ungrouped.
    - now apply plain_groups.
    - destruct (terminals config) as [[|t ts]|]; try (now apply plain_same).
      now apply plain_ungrouped. }
  destruct H as [_ H]. unfold born in H. split; [exact H|].
  rewrite terminalNames_requests.
  change term_name with (fun t => opt_name (term_options t)).
  rewrite <- (map_map term_options opt_name), H, map_map. reflexivity.
Qed.

End Policies.

(** ** The check, and requests that give no terminal or replace one *)

Section Requests.

Context {path : Path.Api} {host : Host}.

(** X15. The check before a launch answers proceed exactly when no
    requested effective name is held by a live terminal, and then it shows
    no prompt and leaves the state as it is; the prompt, once shown, never
    gives proceed, whatever is picked. *)
Theorem check_proceeds_iff_no_collision config base picked s :
  (fst (checkForDuplicateTerminals config base picked s) = Proceed
   <-> forall c, In c (requests config) ->
                 ~ In (effective_name c base) (live_names s))
  /\ (fst (checkForDuplicateTerminals config base picked s) = Proceed
      <-> snd (checkForDuplicateTerminals config base picked s) = s
          /\ duplicates config base s = []).
Proof.
  assert (Hnone : duplicates config base s = [] <->
                  forall c, In c (requests config) ->
                            ~ In (effective_name c base) (live_names s)).
  { rewrite duplicates_none, terminalNames_requests. split.
    - intros H c Hc. apply H. now apply (in_map (fun c => effective_name c base)).
    - intros H n Hn. apply in_map_iff in Hn as (c & <- & Hc). now apply H. }
  rewrite <- Hnone, checkForDuplicateTerminals_state.
  destruct (duplicates config base s) as [|d ds]; cbn [fst snd].
  - split; split; auto.
  - assert (Hne : match picked with
                  | Some action => value action
                  | None => Cancel
                  end <> Proceed)
      by (destruct picked as [[]|]; discriminate).
    split; split; intros H; try contradiction; try discriminate.
    destruct H; discriminate.
Qed.

Lemma forEach_empty_groups base action gs :
  group_requests gs = [] ->
  forall s, forEach (fun group => launchTerminalGroup group base action) gs s
            = (tt, s).
Proof.
  induction gs as [|g gs IH]; intros H s; [reflexivity|].
  unfold group_requests in H. cbn [flat_map] in H.
  apply app_eq_nil in H as [Hg Hgs].
  cbn [forEach]. unfold bind, launchTerminalGroup.
  destruct (group_terminals g) as [[|c rest]|]; try discriminate;
    cbn; now apply IH.
Qed.

(** X16. A configuration with groups none of which has a terminal launches
    nothing at all, whatever its ungrouped list holds: no prompt, no
    terminal, the state is left as it was. *)
Theorem empty_groups_launch_nothing config base picked s g gs :
  groups config = Some (g :: gs) ->
  group_requests (g :: gs) = [] ->
  launchTerminals config base picked s = (tt, s).
Proof.
  intros Hg He.
  assert (Hr : requests config = []) by (unfold requests; now rewrite Hg).
  assert (Hd : duplicates config base s = []).
  { unfold duplicates. now rewrite terminalNames_requests, Hr. }
  rewrite launchTerminals_eq, checkForDuplicateTerminals_state, Hd.
  cbn [fst snd]. unfold launch_requests. rewrite Hg.
  now apply forEach_empty_groups.
Qed.

(** X17. A request that gives no terminal, being skipped, unable to
    resolve its directory or refused by the host, adds nothing to the
    registry, to the timers or to the clock, is not shown, and both loops
    go on with the next entry from the state it leaves. *)
Theorem request_without_terminal config base action s :
  fst (createTerminal config base action s) = None ->
  let s1 := snd (createTerminal config base action s) in
  this_terminals s1 = this_terminals s
  /\ timers s1 = timers s
  /\ clock s1 = clock s
  /\ next_id s1 = next_id s
  /\ (forall i rest,
        exec (launchTerminals_loop i (config :: rest) base action) s
        = exec (launchTerminals_loop (S i) rest base action) s1)
  /\ (forall i len rest,
        exec (launchTerminalGroup_loop i len (config :: rest) base action) s
        = exec (launchTerminalGroup_loop (S i) len rest base action) s1).
Proof.
  intros Hr. cbv zeta.
  destruct (createTerminal_state config base action s)
    as (T & N & _ & C & M & _).
  cbv zeta in *. rewrite Hr in *. cbn in N. rewrite app_nil_r in M.
  repeat split; try assumption; try lia.
  - intros i rest. rewrite launchTerminals_loop_cons. unfold launch_one, bind.
    destruct (createTerminal config base action s) as [r s1]. cbn in Hr.
    now subst r.
  - intros i len rest. unfold exec. cbn [launchTerminalGroup_loop].
    unfold launch_one, bind.
    destruct (createTerminal config base action s) as [r s1]. cbn in Hr.
    now subst r.
Qed.

Lemma filter_one_out (e : Terminal) (l : list Terminal) :
  NoDup (map term_id l) -> In e l ->
  length (filter (fun u => negb (term_id u =? term_id e)%nat) l) + 1 = length l
  /\ ~ In e (filter (fun u => negb (term_id u =? term_id e)%nat) l).
Proof.
  intros Hnd Hin. split.
  - induction l as [|a l IH]; [contradiction|].
    inversion Hnd as [|x xs Hx Hnd' E]; subst. cbn.
    destruct (Nat.eqb_spec (term_id a) (term_id e)) as [Heq|Hne]; cbn.
    + rewrite Nat.add_1_r. f_equal. f_equal.
      apply forallb_filter_id. apply forallb_forall. intros u Hu.
      apply negb_true_iff, Nat.eqb_neq. intros Hc. apply Hx.
      rewrite Heq, <- Hc. now apply in_map.
    + destruct Hin as [->|Hin]; [contradiction|]. now rewrite IH.
  - intros H. apply filter_In in H as [_ H]. now rewrite Nat.eqb_refl in H.
Qed.

(** X18. Under the replace policy a request whose name is held by a live
    terminal disposes of that terminal before it asks the host for the new
    one: when the host accepts, the new terminal takes its place under the
    same name and the number of live terminals is unchanged; when the host
    refuses, the old terminal is gone all the same and there is one live
    terminal less. *)
Theorem replace_disposes_first config base s existing :
  NoDup (map term_id (window_terminals s)) ->
  ids_below s ->
  unresolvable config base = false ->
  find (fun u => term_name u =? effective_name config base) (window_terminals s)
    = Some existing ->
  let r := fst (createTerminal config base Replace s) in
  let s' := snd (createTerminal config base Replace s) in
  ~ In existing (window_terminals s')
  /\ match r with
     | Some t =>
         window_terminals s'
         = (filter (fun u => negb (term_id u =? term_id existing)%nat)
                   (window_terminals s) ++ [t])%list
         /\ term_name t = term_name existing
         /\ length (window_terminals s') = length (window_terminals s)
     | None =>
         window_terminals s'
         = filter (fun u => negb (term_id u =? term_id existing)%nat)
                  (window_terminals s)
         /\ length (window_terminals s') + 1 = length (window_terminals s)
     end.
Proof.
  intros Hnd Hids Hu Hf. cbv zeta. rewrite createTerminal_eq, Hu, Hf.
  pose proof (find_some _ _ Hf) as [Hin Hname].
  apply String.eqb_eq in Hname.
  destruct (filter_one_out existing (window_terminals s) Hnd Hin) as [Hlen Hout].
  destruct (create_as_state config base (effective_name config base)
              (snd (dispose existing s))) as (_ & _ & C & _ & _ & W & _).
  cbv zeta in *. cbn [dispose snd window_terminals next_id] in *.
  rewrite W.
  destruct (fst (create_as config base (effective_name config base) _)) as [t|];
    cbn [opt_list].
  - destruct (C t eq_refl) as [Hid Hopt]. split; [|split; [|split]].
    + intros H. apply in_app_or in H as [H|[<-|[]]]; [contradiction|].
      specialize (Hids _ Hin). lia.
    + reflexivity.
    + unfold term_name at 1. rewrite Hopt. cbn. now symmetry.
    + rewrite length_app. cbn. lia.
  - rewrite app_nil_r. repeat split; auto.
Qed.

End Requests.

(** ** Scripts, name prefixes and colours *)

Section Details.

Context {path : Path.Api} {host : Host}.

(** X19. For a terminal created from a request with a non-empty script,
    the one text scheduled is the script path, due when the grace period
    ends; a relative script is joined to the working directory the terminal
    was given, when it has a non-empty one, and only otherwise to the base
    path or the workspace folder. *)
Theorem script_joined_to_terminal_cwd config base action s t :
  fst (createTerminal config base action s) = Some t ->
  Js.truthy (script config) = true ->
  let s' := snd (createTerminal config base action s) in
  let dir :=
    str (Js.or_else (Js.or_else (opt_cwd (term_options t)) (basePath_of base))
                    (Some EmptyString)) in
  timers s'
  = (timers s
     ++ [{| due := clock s + 500;
            target := term_id t;
            text := if Path.isAbsolute (str (script config))
                    then str (script config)
                    else Path.join dir (str (script config)) |}])%list.
Proof.
  intros Ht Hs. cbv zeta.
  destruct (createTerminal_state config base action s) as (_ & _ & _ & _ & M & _).
  destruct (createTerminal_events config base action s) as (_ & _ & _ & _ & Hm).
  destruct (Hm t Ht) as (n & Hopt & _).
  cbv zeta in M. rewrite M, Ht. f_equal.
  unfold executeTerminalCommands. rewrite Hs. cbn [map].
  unfold timer_of, script_base, grace. cbn [dispatch_offset dispatch_text].
  rewrite Hopt. cbn [opt_cwd terminalOptions]. now rewrite Z.add_0_r.
Qed.

Lemma string_app_assoc (a b c : string) : (a ++ b) ++ c = a ++ b ++ c.
Proof. induction a as [|x a IH]; cbn; [reflexivity | now rewrite IH]. Qed.

Lemma prefix_appended (p x : string) : String.prefix p (p ++ x) = true.
Proof.
  induction p as [|c p IH]; cbn.
  - now destruct x.
  - destruct (Ascii.ascii_dec c c); [exact IH | contradiction].
Qed.

(** X20. A launch with a base path asks for names that all start with the
    project prefix, the basename of the path between brackets and a space;
    when no live terminal has a name starting with that prefix, the check
    finds no duplicate, shows no prompt and answers proceed, whatever the
    names in the configuration are. *)
Theorem prefixed_names_meet_prefixed_only config base picked s :
  Js.truthy base = true ->
  (forall n, In n (live_names s) ->
             Js.startsWith ("[" ++ Path.basename (str base) ++ "] ") n = false) ->
  checkForDuplicateTerminals config base picked s = (Proceed, s).
Proof.
  intros Hb Hlive.
  assert (Hd : duplicates config base s = []).
  { apply duplicates_none. intros n Hn Hin.
    rewrite terminalNames_requests in Hn. apply in_map_iff in Hn as (c & <- & _).
    specialize (Hlive _ Hin). unfold effective_name in Hlive. rewrite Hb in Hlive.
    unfold Js.startsWith in Hlive.
    replace ("[" ++ Path.basename (str base) ++ "] " ++ name c)
      with (("[" ++ Path.basename (str base) ++ "] ") ++ name c) in Hlive.
    - rewrite prefix_appended in Hlive. discriminate.
    - cbn. f_equal. now rewrite string_app_assoc. }
  now rewrite checkForDuplicateTerminals_state, Hd.
Qed.

(** X21. On the nine colours of the configuration type, [getTerminalColor]
    gives a colour of the host by its name, never falls back to the
    foreground colour, and it sends two colours to the same colour of the
    host exactly when they are equal or are orange and yellow, or purple
    and pink. *)
Theorem colours_collapse_in_pairs :
  Forall (fun c => getTerminalColor c <> ThemeColor_of "terminal.foreground")
         ConfigInitializer.colors
  /\ Forall
       (fun c1 =>
          Forall (fun c2 =>
                    ThemeColor_eqb (getTerminalColor c1) (getTerminalColor c2)
                    = (c1 =? c2) || collapsing c1 c2)
                 ConfigInitializer.colors)
       ConfigInitializer.colors
  /\ Forall (fun c => exists id, getTerminalColor c = ThemeColor_of id)
            ConfigInitializer.colors.
Proof.
  split; [|split].
  - repeat constructor; discriminate.
  - repeat constructor.
  - repeat constructor; eexists; reflexivity.
Qed.

End Details.

(** ** Configurations written by the initializer *)

Section Initializer.

Import ConfigInitializer.

Context {path : Path.Api} {host : Host}.

Lemma trimStart_head (s : string) :
  Js.trimStart s = EmptyString
  \/ exists c r, Js.trimStart s = String c r /\ Js.is_white_space c = false.
Proof.
  induction s as [|c r IH]; [now left|].
  cbn [Js.trimStart]. destruct (Js.is_white_space c) eqn:E; [exact IH|].
  right. now exists c, r.
Qed.

Lemma trimEnd_head (c : ascii) (r : string) :
  Js.is_white_space c = false ->
  exists r', Js.trimEnd (String c r) = String c r'.
Proof.
  intros E. cbn [Js.trimEnd]. rewrite E.
  destruct (Js.trimEnd r); eexists; reflexivity.
Qed.

Lemma trimEnd_idempotent (s : string) : Js.trimEnd (Js.trimEnd s) = Js.trimEnd s.
Proof.
  induction s as [|c r IH]; [reflexivity|].
  cbn [Js.trimEnd]. destruct (Js.trimEnd r) as [|d r'] eqn:E.
  - destruct (Js.is_white_space c) eqn:W; [reflexivity|].
    cbn [Js.trimEnd]. now rewrite W.
  - change (Js.trimEnd (String c (String d r')))
      with (match Js.trimEnd (String d r') with
            | EmptyString =>
                if Js.is_white_space c then EmptyString else String c EmptyString
            | r'' => String c r''
            end).
    now rewrite IH.
Qed.

Lemma trim_idempotent (s : string) : Js.trim (Js.trim s) = Js.trim s.
Proof.
  unfold Js.trim.
  destruct (trimStart_head s) as [-> | (c & r & -> & W)]; [reflexivity|].
  destruct (trimEnd_head c r W) as (r' & E).
  rewrite E. cbn [Js.trimStart]. rewrite W, <- E. apply trimEnd_idempotent.
Qed.

Lemma trimmed_field_clean (text : option string) (v : string) :
  trimmed_field text = Some v -> v <> EmptyString /\ Js.trim v = v.
Proof.
  unfold trimmed_field.
  destruct (Js.truthy text); [|discriminate]. cbn [andb].
  destruct (Js.truthy (Some (Js.trim (str text)))) eqn:E; [|discriminate].
  intros [= <-]. split; [|apply trim_idempotent].
  intros H. rewrite H in E. discriminate.
Qed.

Lemma terminal_of_dispatch (n : string) (a : Answers) (basePath : string) :
  executeTerminalCommands (terminal_of n a) basePath
  = match command (terminal_of n a) with
    | Some c => [SendText c]
    | None => []
    end.
Proof.
  unfold executeTerminalCommands. cbn [script commands terminal_of Js.truthy command].
  destruct (trimmed_field (ans_command a)) as [v|] eqn:E; [|reflexivity].
  destruct (trimmed_field_clean _ _ E) as [Hv _].
  destruct v; [contradiction | reflexivity].
Qed.

(** X22. A configuration written by the quick setup holds one ungrouped
    terminal and no group, so that terminal is what a launch requests; its
    name is the non-empty name answered; a working directory or a command it
    holds is non-empty and already trimmed; it has neither script nor
    command list, so what is sent to it is its command alone, at once. *)
Theorem quickSetup_one_clean_terminal (a : Answers) (cfg : TerminalLauncherConfig) :
  quickSetup a = Some cfg ->
  exists t,
    groups cfg = None /\ terminals cfg = Some [t] /\ requests cfg = [t]
    /\ ans_name a = Some (name t) /\ name t <> EmptyString
    /\ (forall v, cwd t = Some v -> v <> EmptyString /\ Js.trim v = v)
    /\ (forall v, command t = Some v -> v <> EmptyString /\ Js.trim v = v)
    /\ forall basePath,
         executeTerminalCommands t basePath
         = match command t with Some c => [SendText c] | None => [] end.
Proof.
  unfold quickSetup. destruct (ans_name a) as [[|c n]|] eqn:E; try discriminate.
  cbn [Js.truthy]. intros [= <-].
  exists (terminal_of (String c n) a). cbn [groups terminals name str].
  repeat split; try reflexivity; try discriminate.
  - now apply trimmed_field_clean in H.
  - now apply trimmed_field_clean in H.
  - now apply trimmed_field_clean in H.
  - now apply trimmed_field_clean in H.
  - apply terminal_of_dispatch.
Qed.

Lemma advancedSetup_loop_rounds (rounds : list Round) :
  forall acc, exists k,
    k <= length rounds
    /\ advancedSetup_loop rounds acc
       = (acc ++ map (fun r => terminal_of (str (ans_name (answers r))) (answers r))
                     (firstn k rounds))%list
    /\ Forall (fun r => Js.truthy (ans_name (answers r)) = true) (firstn k rounds)
    /\ Forall (fun r => continueAdding r = Some true) (firstn (k - 1) rounds).
Proof.
  induction rounds as [|r rest IH]; intros acc.
  - exists 0. cbn. rewrite app_nil_r. repeat split; auto.
  - cbn [advancedSetup_loop].
    destruct (Js.truthy (ans_name (answers r))) eqn:E.
    + assert (Hstop :
        exists k, k <= length (r :: rest)
          /\ (acc ++ [terminal_of (str (ans_name (answers r))) (answers r)])%list
             = (acc ++ map (fun r => terminal_of (str (ans_name (answers r)))
                                                  (answers r))
                           (firstn k (r :: rest)))%list
          /\ Forall (fun r => Js.truthy (ans_name (answers r)) = true)
                    (firstn k (r :: rest))
          /\ Forall (fun r => continueAdding r = Some true)
                    (firstn (k - 1) (r :: rest))).
      { exists 1. cbn. repeat split; auto; lia. }
      destruct (continueAdding r) as [[|]|] eqn:C; try exact Hstop.
      destruct (IH (acc ++ [terminal_of (str (ans_name (answers r))) (answers r)])%list)
        as (k & K & -> & F1 & F2).
      exists (S k). cbn [firstn map length]. rewrite <- app_assoc. cbn [app].
      repeat split; auto; [lia|].
      replace (S k - 1) with k by lia.
      destruct k as [|k']; [constructor|].
      cbn [firstn]. constructor; [exact C|].
      now replace (S k' - 1) with k' in F2 by lia.
    + exists 0. cbn. rewrite app_nil_r. repeat split; auto; lia.
Qed.

(** X23. A configuration written by the advanced setup holds no ungrouped
    terminal and one group, never empty, under the non-empty group name
    answered: its terminals are those of the first rounds, one per round
    and in order, each round with a non-empty name and each round but the
    last used answering that another terminal follows; every one of them
    holds only non-empty, trimmed working directory and command, and neither
    script nor command list. *)
Theorem advancedSetup_one_filled_group groupName rounds cfg :
  advancedSetup groupName rounds = Some cfg ->
  exists ts k,
    terminals cfg = None
    /\ groups cfg = Some [{| group_name := groupName; group_terminals := Some ts |}]
    /\ Js.truthy groupName = true
    /\ requests cfg = ts
    /\ 1 <= k <= length rounds /\ length ts = k
    /\ map (fun t => Some (name t)) ts
       = map (fun r => ans_name (answers r)) (firstn k rounds)
    /\ Forall (fun r => continueAdding r = Some true) (firstn (k - 1) rounds)
    /\ Forall (fun t =>
                 name t <> EmptyString
                 /\ (forall v, cwd t = Some v -> v <> EmptyString /\ Js.trim v = v)
                 /\ (forall v, command t = Some v ->
                               v <> EmptyString /\ Js.trim v = v)
                 /\ script t = None /\ commands t = None) ts.
Proof.
  unfold advancedSetup. destruct (Js.truthy groupName) eqn:G; [|discriminate].
  destruct (advancedSetup_loop_rounds rounds []) as (k & K & E & F1 & F2).
  rewrite app_nil_l in E.
  destruct (advancedSetup_loop rounds []) as [|t ts] eqn:L; [discriminate|].
  intros [= <-]. exists (t :: ts), k. cbn [terminals groups].
  assert (Hlen : length (t :: ts) = k).
  { rewrite E, length_map, length_firstn. lia. }
  repeat split; auto.
  - unfold requests. cbn [groups group_requests flat_map group_terminals].
    apply app_nil_r.
  - cbn [length] in Hlen. lia.
  - rewrite E, map_map. apply map_ext_Forall.
    revert F1. apply Forall_impl. intros r Hr. cbn [name terminal_of].
    now destruct (ans_name (answers r)) as [[|]|].
  - rewrite E. apply Forall_map. revert F1. apply Forall_impl. intros r Hr.
    cbn [name cwd command script commands terminal_of].
    repeat split; auto;
      try (match goal with H : trimmed_field _ = Some _ |- _ =>
             now apply trimmed_field_clean in H end).
    destruct (ans_name (answers r)) as [[|]|]; cbn in *; discriminate.
Qed.

Lemma launched_from_members base cs ts :
  launched_from base cs ts ->
  Forall (fun t => exists c, In c cs /\ made_from base c t) ts.
Proof.
  induction 1 as [| c cs ts _ IH | c cs t ts Hm _ IH].
  - constructor.
  - revert IH. apply Forall_impl. intros t (c' & Hin & Hc'). exists c'. split; auto.
    now right.
  - constructor.
    + exists c. split; [now left | exact Hm].
    + revert IH. apply Forall_impl. intros t' (c' & Hin & Hc'). exists c'.
      split; auto. now right.
Qed.

Lemma launched_from_none base cs : launched_from base cs [].
Proof. induction cs; constructor; auto. Qed.

Lemma launch_born_from_requests config base picked s :
  launched_from base (requests config)
    (born s (exec (launchTerminals config base picked) s)).
Proof.
  rewrite launchTerminals_exec.
  destruct (checkForDuplicateTerminals_events config base picked s)
    as (e0 & T0 & C0 & _).
  set (s1 := snd (checkForDuplicateTerminals config base picked s)) in *.
  set (a := fst (checkForDuplicateTerminals config base picked s)).
  assert (Hgo : launched_from base (requests config)
                  (born s (exec (launch_requests config base a) s1))).
  { unfold launch_requests, requests.
    destruct (groups config) as [[|g gs]|].
    - destruct (terminals config) as [[|t ts]|].
      + unfold born. change (exec (ret tt) s1) with s1.
        rewrite (events_since_app _ _ _ T0), C0. constructor.
      + destruct (launchTerminals_loop_events base a (t :: ts) 0 s1)
          as (evs & T & L & _).
        unfold born. rewrite T0, <- app_assoc in T.
        rewrite (events_since_app _ _ _ T), created_app, C0. exact L.
      + unfold born. change (exec (ret tt) s1) with s1.
        rewrite (events_since_app _ _ _ T0), C0. constructor.
    - destruct (forEach_group_events base a (g :: gs) s1) as (evs & T & L & _).
      unfold born. rewrite T0, <- app_assoc in T.
      rewrite (events_since_app _ _ _ T), created_app, C0. exact L.
    - destruct (terminals config) as [[|t ts]|].
      + unfold born. change (exec (ret tt) s1) with s1.
        rewrite (events_since_app _ _ _ T0), C0. constructor.
      + destruct (launchTerminals_loop_events base a (t :: ts) 0 s1)
          as (evs & T & L & _).
        unfold born. rewrite T0, <- app_assoc in T.
        rewrite (events_since_app _ _ _ T), created_app, C0. exact L.
      + unfold born. change (exec (ret tt) s1) with s1.
        rewrite (events_since_app _ _ _ T0), C0. constructor. }
  destruct a; try exact Hgo.
  unfold born. rewrite (events_since_app _ _ _ T0), C0. apply launched_from_none.
Qed.

(** X24. Launching the example template of the initializer, from any
    state, with any base path and any answer to the duplicate prompt, never
    creates a terminal from its ungrouped request [Tests]: the terminals
    created are made from the three requests of its group, one each at most
    and in their order. *)
Theorem template_tests_never_launched base picked s :
  let s' := exec (launchTerminals createExampleTemplate base picked) s in
  (exists ts,
     groups createExampleTemplate
       = Some [{| group_name := Some "Full Stack Development";
                  group_terminals := Some ts |}]
     /\ launched_from base ts (created (events_since s s')))
  /\ length (created (events_since s s')) <= 3
  /\ forall tests,
       terminals createExampleTemplate = Some [tests] ->
       ~ Exists (made_from base tests) (created (events_since s s')).
Proof.
  cbv zeta.
  pose proof (launch_born_from_requests createExampleTemplate base picked s) as L.
  unfold born in L.
  set (made := created (events_since s
                 (exec (launchTerminals createExampleTemplate base picked) s))) in *.
  split; [|split].
  - eexists. split; [reflexivity|]. exact L.
  - clear -L. cbn in L.
    repeat match goal with
           | H : launched_from _ _ _ |- _ => inversion H; subst; clear H
           end; cbn; lia.
  - intros tests [= <-] Hex.
    apply launched_from_members in L. rewrite Forall_forall in L.
    apply Exists_exists in Hex as (t & Hin & (n & Hn & _)).
    destruct (L t Hin) as (c & Hc & (n' & Hn' & _)).
    rewrite Hn in Hn'. apply (f_equal opt_iconPath) in Hn'.
    cbn in Hc. destruct Hc as [<-|[<-|[<-|[]]]]; cbn in Hn'; discriminate.
Qed.

End Initializer.

(** ** The parser and the text of its input *)

Section ParserText.

Import ConfigParser ParserSpec.

Lemma prefix_char (a c : ascii) (r : string) :
  String.prefix (String a "") (String c r) = Ascii.eqb a c.
Proof.
  change (String.prefix (String a "") (String c r))
    with (if Ascii.ascii_dec a c then String.prefix "" r else false).
  destruct (Ascii.ascii_dec a c) as [->|Hne].
  - rewrite Ascii.eqb_refl. now destruct r.
  - symmetry. now apply Ascii.eqb_neq.
Qed.

Lemma comment_startsWith (l : string) :
  Js.startsWith "#" (Js.trim l) = comment l.
Proof.
  unfold comment, Js.trim, Js.startsWith.
  destruct (trimStart_head l) as [-> | (c & r & -> & W)]; [reflexivity|].
  destruct (trimEnd_head c r W) as (r' & ->).
  rewrite prefix_char. apply Ascii.eqb_sym.
Qed.

Lemma endsWith_char_drop (c : ascii) (r : string) :
  Js.endsWith (String c "") r = true -> r = Js.drop_last r ++ String c "".
Proof.
  induction r as [|x r IH]; [discriminate|].
  cbn [Js.endsWith]. intros H. apply orb_true_iff in H as [H|H].
  - apply String.eqb_eq in H. injection H as -> ->. reflexivity.
  - destruct r as [|y r]; [discriminate|].
    cbn [Js.drop_last append]. f_equal. now apply IH.
Qed.

Lemma name_in_brackets_form (line n : string) :
  name_in_brackets line = Some n <-> Js.trim line = "[" ++ n ++ "]".
Proof.
  unfold name_in_brackets. destruct (Js.trim line) as [|c r].
  - split; [discriminate | now destruct n].
  - split.
    + destruct (Ascii.eqb_spec c "[") as [->|]; [|discriminate].
      cbn [andb]. destruct (Js.endsWith "]" r) eqn:E; [|discriminate].
      intros [= <-]. cbn. f_equal. now apply endsWith_char_drop.
    + cbn. intros [= -> ->]. rewrite Ascii.eqb_refl, endsWith_appended.
      cbn. now rewrite drop_last_appended.
Qed.

Lemma header_name (l : string) :
  header l = match name_in_brackets l with Some _ => true | None => false end
  /\ forall n, name_in_brackets l = Some n -> n = Js.slice_1_m1 (Js.trim l).
Proof.
  unfold header, is_header, name_in_brackets, Js.startsWith.
  destruct (Js.trim l) as [|c r]; [now split|].
  rewrite prefix_char, (Ascii.eqb_sym "[" c). cbn [Js.endsWith Js.slice_1_m1].
  destruct (Ascii.eqb_spec c "[") as [->|]; cbn [andb].
  - change (String "[" r =? "]") with false. cbn [orb].
    destruct (Js.endsWith "]" r); split; try reflexivity; congruence.
  - split; [reflexivity | discriminate].
Qed.

Lemma keep_false_no_name (l : string) :
  keep_line l = false -> name_in_brackets l = None.
Proof.
  unfold keep_line, name_in_brackets, Js.startsWith.
  destruct (Js.trim l) as [|c r]; [reflexivity|].
  rewrite prefix_char. cbn [Js.truthy andb].
  destruct (Ascii.eqb_spec "#" c) as [<-|]; [reflexivity | discriminate].
Qed.

Lemma block_body_filter (raw : list string) :
  body_of (filter keep_line raw) = filter keep_line (block_body raw).
Proof.
  induction raw as [|l rest IH]; [reflexivity|].
  cbn [filter block_body]. destruct (keep_line l) eqn:K.
  - cbn [body_of]. rewrite (proj1 (header_name l)).
    destruct (name_in_brackets l); [reflexivity|].
    cbn [filter]. now rewrite K, IH.
  - rewrite (keep_false_no_name l K). cbn [filter]. now rewrite K.
Qed.

(** The sections the parser reads are the blocks of the text, less the
    blank lines and the comments. *)
Lemma blocks_sections (raw : list string) :
  Forall2 (fun blk sec =>
             fst blk = Js.slice_1_m1 (Js.trim (fst sec))
             /\ snd sec = filter keep_line (snd blk))
          (blocks raw) (sections (filter keep_line raw)).
Proof.
  induction raw as [|l rest IH]; [constructor|].
  cbn [filter blocks]. destruct (keep_line l) eqn:K.
  - cbn [sections]. destruct (header_name l) as [-> Hn].
    destruct (name_in_brackets l) as [n|]; [|exact IH].
    constructor; [|exact IH]. cbn. split; [now apply Hn|].
    apply block_body_filter.
  - rewrite (keep_false_no_name l K). exact IH.
Qed.

Lemma includes_cut (key rest : string) :
  Js.includes "=" (key ++ "=" ++ rest) = true.
Proof.
  induction key as [|c key IH];
    [cbn [append]; rewrite includes_char_cons; reflexivity|].
  cbn [append]. rewrite includes_char_cons. cbn [append] in IH.
  rewrite IH. apply orb_true_r.
Qed.

Lemma key_of_cut (key rest : string) :
  Js.includes "=" key = false -> key_of (key ++ "=" ++ rest) = key.
Proof.
  unfold key_of. induction key as [|c key IH]; [reflexivity|].
  rewrite includes_char_cons. intros H.
  apply orb_false_iff in H as [Hc Hk]. specialize (IH Hk).
  cbn [append Js.split] in *. rewrite Ascii.eqb_sym, Hc.
  destruct (Js.split "=" (key ++ String "=" rest)) as [|h t];
    [|now rewrite IH].
  now rewrite <- IH.
Qed.

Lemma keys_written_assigns (body : list string) (k : string) :
  In k (keys_written (filter keep_line body)) <->
  exists l, In l body /\ assigns k l.
Proof.
  unfold keys_written, assigns. rewrite in_map_iff. split.
  - intros (l & <- & Hl). apply filter_In in Hl as [Hl Hi].
    apply filter_In in Hl as [Hl K]. exists l. split; [exact Hl|].
    unfold keep_line in K. apply andb_true_iff in K as [_ K].
    rewrite comment_startsWith in K. split; [now destruct (comment l)|].
    destruct (split_first "="%char (Js.trim l))
      as [[Hn _] | (key & rest & E & Hk & _ & Hs)]; [congruence|].
    exists key, rest. unfold key_of. rewrite Hs. auto.
  - intros (l & Hl & Hc & key & rest & E & Hk & <-).
    exists l. rewrite E, (key_of_cut key rest Hk). split; [reflexivity|].
    apply filter_In. split; [|rewrite E; apply includes_cut].
    apply filter_In. split; [exact Hl|].
    unfold keep_line. rewrite comment_startsWith, Hc, E.
    now destruct key.
Qed.

Lemma split_no_separator (sep : ascii) (s : string) :
  Forall (fun l => Js.includes (String sep "") l = false) (Js.split sep s).
Proof.
  induction s as [|c r IH]; [repeat constructor|].
  cbn [Js.split]. destruct (Ascii.eqb c sep) eqn:E.
  - constructor; [reflexivity | exact IH].
  - destruct (Js.split sep r) as [|h t].
    + repeat constructor. rewrite includes_char_cons, Ascii.eqb_sym, E.
      reflexivity.
    + inversion IH as [|? ? Hh Ht]; subst. constructor; [|exact Ht].
      now rewrite includes_char_cons, Ascii.eqb_sym, E.
Qed.

(** C8. For every custom-format input string, read as the lines between
    its line feeds: the output terminal sequence holds one record for each
    line of the trimmed form [[NAME]], in the order of these lines, and no
    other record; the record has the name NAME, and it carries a key
    exactly when a line that is no comment and reads [key = value], with
    that recognized key, stands between its header and the next one.
    While the lines are read the open record alone is missing from the
    output, so that each record is pushed once, when the next header comes
    or when the input ends. *)
Theorem parseCustomFormat_flushes_each_record_once (content : string) :
  Js.join (String "010" "") (text_lines content) = content
  /\ Forall (fun l => Js.includes (String "010" "") l = false)
            (text_lines content)
  /\ (forall line n,
        name_in_brackets line = Some n <-> Js.trim line = "[" ++ n ++ "]")
  /\ (exists records,
        terminals (parseCustomFormat content) = Some records
        /\ map name records = map fst (blocks (text_lines content))
        /\ Forall2
             (fun blk r =>
                name r = fst blk
                /\ forall k, In k (keys_set r) <->
                             In k recognized
                             /\ exists l, In l (snd blk) /\ assigns k l)
             (blocks (text_lines content)) records)
  /\ groups (parseCustomFormat content) = None
  /\ terminals (parseCustomFormat content)
     = Some (map record_of (sections (lines_of content)))
  /\ map fst (sections (lines_of content)) = filter header (lines_of content)
  /\ (forall n,
        pushed (fold_left step (firstn n (lines_of content)) start)
          = removelast (map record_of (sections (firstn n (lines_of content))))).
Proof.
  destruct (parseCustomFormat_by_sections content)
    as (P1 & P2 & P3 & P4 & P5 & P6).
  assert (Hrec : Forall2
             (fun blk r =>
                name r = fst blk
                /\ forall k, In k (keys_set r) <->
                             In k recognized
                             /\ exists l, In l (snd blk) /\ assigns k l)
             (blocks (text_lines content))
             (map record_of (sections (lines_of content)))).
  { unfold lines_of. fold (text_lines content).
    induction (blocks_sections (text_lines content))
      as [|blk sec bs secs [Hn Hb] _ IH]; [constructor|].
    cbn [map]. constructor; [|exact IH].
    destruct (P6 sec) as [N K]. split; [congruence|].
    intros k. rewrite K, Hb, keys_written_assigns. tauto. }
  split; [apply join_split|].
  split; [apply split_no_separator|].
  split; [apply name_in_brackets_form|].
  split.
  - exists (map record_of (sections (lines_of content))).
    split; [now rewrite P1, P2|]. split; [|exact Hrec].
    clear -Hrec. induction Hrec as [|blk r bs rs [Hn _] _ IH]; [reflexivity|].
    cbn. now rewrite Hn, IH.
  - split; [exact P3|]. split; [now rewrite P1, P2|]. split; assumption.
Qed.

End ParserText.

(** ** The properties above on concrete inputs *)

Section Instances.

Import Sample Cases ConfigParser ParserSpec ConfigInitializer.

Ltac below :=
  let t := fresh "t" in
  let H := fresh "H" in
  intros t H; cbn in H;
  repeat (destruct H as [<-|H]; [cbn; lia|]); destruct H.

Ltac distinct :=
  cbn; repeat (constructor; [cbn; intuition discriminate|]); constructor.

Lemma key_value_cut_at_first_equals_witness :
  exists rest,
    "cwd = a=b" = key_of "cwd = a=b" ++ "=" ++ rest
    /\ Js.includes "=" (key_of "cwd = a=b") = false
    /\ value_of "cwd = a=b" = Js.trim rest.
Proof. exact (key_value_cut_at_first_equals "cwd = a=b" eq_refl). Defined.

Lemma comment_lines_ignored_witness :
  parseCustomFormat ("[A]" ++ LF ++ "# note" ++ LF ++ "command = ls")
  = parseCustomFormat ("[A]" ++ LF ++ "command = ls").
Proof.
  exact (comment_lines_ignored "[A]" "# note" "command = ls" eq_refl eq_refl).
Defined.

Lemma lines_before_first_header_dropped_witness :
  parseCustomFormat "cwd = /x"
  = {| version := None; groups := None; terminals := Some [] |}
  /\ parseCustomFormat ("cwd = /x" ++ LF ++ "[A]") = parseCustomFormat "[A]".
Proof.
  refine (lines_before_first_header_dropped "cwd = /x" "[A]" _).
  intros l H. cbn in H. destruct H as [<-|[]]. reflexivity.
Defined.

Lemma header_names_verbatim_witness :
  parseCustomFormat "  [ A ]  "
  = {| version := None; groups := None; terminals := Some [new_terminal " A "] |}.
Proof. exact (header_names_verbatim "  [ A ]  " " A " eq_refl eq_refl). Defined.

Lemma commands_line_always_dispatched_witness :
  exists records c cs,
    terminals (parseCustomFormat commands_text) = Some records
    /\ In (record_of ("[A]", ["commands = a; b"])) records
    /\ commands (record_of ("[A]", ["commands = a; b"])) = Some (c :: cs)
    /\ forall basePath,
         map dispatch_text
           (executeTerminalCommands (record_of ("[A]", ["commands = a; b"]))
                                    basePath)
         = c :: cs.
Proof.
  refine (commands_line_always_dispatched commands_text
            ("[A]", ["commands = a; b"]) _ _ eq_refl).
  - left. reflexivity.
  - left. reflexivity.
Defined.

Lemma launch_schedules_for_created_only_witness :
  exists new,
    timers (exec (launchTerminals (ungrouped [single_command]) None None)
                 (state_with ["B"]))
    = new
    /\ Forall
         (fun tm =>
            (exists t,
               In t (created
                       (events_since (state_with ["B"])
                          (exec (launchTerminals (ungrouped [single_command])
                                                 None None)
                                (state_with ["B"]))))
               /\ target tm = term_id t)
            /\ forall u, In u (window_terminals (state_with ["B"])) ->
                         target tm <> term_id u)
         new.
Proof.
  refine (launch_schedules_for_created_only (ungrouped [single_command])
            None None (state_with ["B"]) _).
  below.
Defined.

Lemma launch_keeps_live_terminals_witness :
  window_terminals (exec (launchTerminals both_filled None None) (state_with ["Z"]))
  = [terminal 0 "Z"; terminal 1 "A"; terminal 2 "B"].
Proof.
  refine (launch_keeps_live_terminals both_filled None None (state_with ["Z"]) _).
  discriminate.
Defined.

Lemma dispose_undoes_launch_witness :
  window_terminals
    (exec disposeTerminals
          (exec (launchTerminals both_filled None None) (state_with ["Z"])))
  = [terminal 0 "Z"].
Proof.
  refine (dispose_undoes_launch both_filled None None (state_with ["Z"])
            _ eq_refl _).
  - below.
  - discriminate.
Defined.

Lemma skip_and_rename_keep_names_distinct_witness :
  NoDup (live_names
           (exec (launchTerminals (ungrouped [simple "A"; simple "B"]) None
                                  (Some RenameNew))
                 (state_with ["A"])))
  /\ incl (window_terminals (state_with ["A"]))
          (window_terminals
             (exec (launchTerminals (ungrouped [simple "A"; simple "B"]) None
                                    (Some RenameNew))
                   (state_with ["A"]))).
Proof.
  refine (skip_and_rename_keep_names_distinct
            (ungrouped [simple "A"; simple "B"]) None (Some RenameNew)
            (state_with ["A"]) _ (or_intror eq_refl) _).
  - cbn. discriminate.
  - distinct.
Defined.

Lemma group_pauses_witness :
  exec (launchTerminalGroup (group_of [simple "A"; simple "B"]) None Proceed)
       (state_with [])
  = snd (launch_one 1 (simple "B") None Proceed
           (launched_with_pauses None Proceed 0 [simple "A"] (state_with [])))
  /\ clock (launched_with_pauses None Proceed 0 [simple "A"] (state_with []))
     = 200%Z
  /\ clock (exec (launchTerminalGroup (group_of [simple "A"; simple "B"])
                                      None Proceed)
                 (state_with []))
     = 200%Z
  /\ map term_name
       (created
          (events_since (state_with [])
             (exec (launchTerminalGroup (group_of [simple "A"; simple "B"])
                                        None Proceed)
                   (state_with []))))
     = ["A"; "B"].
Proof.
  destruct (group_pauses None Proceed (group_of [simple "A"; simple "B"])
              [simple "A"] (simple "B") (state_with []) eq_refl)
    as (A & B & C & D & _).
  split; [exact A|]. split; [reflexivity|]. split; [reflexivity|].
  rewrite D. reflexivity.
Defined.

Lemma launch_creates_every_request_witness :
  map term_options
    (created (events_since (state_with [])
                (exec (launchTerminals both_filled None None) (state_with []))))
  = [named "A"; named "B"]
  /\ map term_name
       (created (events_since (state_with [])
                   (exec (launchTerminals both_filled None None) (state_with []))))
     = ["A"; "B"].
Proof.
  refine (launch_creates_every_request both_filled None None (state_with [])
            eq_refl _ (fun _ => eq_refl)).
  intros c H. cbn in H. destruct H as [<-|[<-|[]]]; reflexivity.
Defined.

Lemma empty_groups_launch_nothing_witness :
  launchTerminals empty_group None None (state_with ["C"])
  = (tt, state_with ["C"]).
Proof.
  exact (empty_groups_launch_nothing empty_group None None (state_with ["C"])
           (group_of []) [] eq_refl eq_refl).
Defined.

Lemma request_without_terminal_witness :
  this_terminals (snd (createTerminal relative_cwd None Proceed (state_with [])))
  = []
  /\ timers (snd (createTerminal relative_cwd None Proceed (state_with []))) = []
  /\ clock (snd (createTerminal relative_cwd None Proceed (state_with []))) = 0%Z
  /\ next_id (snd (createTerminal relative_cwd None Proceed (state_with []))) = 0
  /\ (forall i rest,
        exec (launchTerminals_loop i (relative_cwd :: rest) None Proceed)
             (state_with [])
        = exec (launchTerminals_loop (S i) rest None Proceed)
               (snd (createTerminal relative_cwd None Proceed (state_with []))))
  /\ (forall i len rest,
        exec (launchTerminalGroup_loop i len (relative_cwd :: rest) None Proceed)
             (state_with [])
        = exec (launchTerminalGroup_loop (S i) len rest None Proceed)
               (snd (createTerminal relative_cwd None Proceed (state_with [])))).
Proof.
  exact (request_without_terminal relative_cwd None Proceed (state_with [])
           eq_refl).
Defined.

Lemma replace_disposes_first_witness :
  ~ In (terminal 0 "A")
       (window_terminals
          (snd (createTerminal (simple "A") None Replace (state_with ["A"; "B"]))))
  /\ window_terminals
       (snd (createTerminal (simple "A") None Replace (state_with ["A"; "B"])))
     = [terminal 1 "B"; terminal 2 "A"]
  /\ term_name (terminal 2 "A") = term_name (terminal 0 "A")
  /\ length
       (window_terminals
          (snd (createTerminal (simple "A") None Replace (state_with ["A"; "B"]))))
     = 2.
Proof.
  refine (replace_disposes_first (simple "A") None (state_with ["A"; "B"])
            (terminal 0 "A") _ _ eq_refl eq_refl).
  - distinct.
  - below.
Defined.

Lemma script_joined_to_terminal_cwd_witness :
  timers (snd (createTerminal script_request (Some "/p") Proceed (state_with [])))
  = [{| due := 500; target := 0; text := "/p/backend/run.sh" |}].
Proof.
  exact (script_joined_to_terminal_cwd script_request (Some "/p") Proceed
           (state_with [])
           {| term_id := 0;
              term_options :=
                terminalOptions script_request "[p] A" (Some "/p/backend") |}
           eq_refl eq_refl).
Defined.

Lemma prefixed_names_meet_prefixed_only_witness :
  checkForDuplicateTerminals (ungrouped [simple "A"]) (Some "/p/proj") None
    (state_with ["A"])
  = (Proceed, state_with ["A"]).
Proof.
  refine (prefixed_names_meet_prefixed_only (ungrouped [simple "A"])
            (Some "/p/proj") None (state_with ["A"]) eq_refl _).
  intros n H. cbn in H. destruct H as [<-|[]]. reflexivity.
Defined.

Lemma quickSetup_one_clean_terminal_witness :
  exists t,
    groups {| version := Some "1.0"; groups := None;
              terminals := Some [terminal_of "Dev" quick_answers] |} = None
    /\ terminals {| version := Some "1.0"; groups := None;
                    terminals := Some [terminal_of "Dev" quick_answers] |}
       = Some [t]
    /\ requests {| version := Some "1.0"; groups := None;
                   terminals := Some [terminal_of "Dev" quick_answers] |}
       = [t]
    /\ ans_name quick_answers = Some (name t) /\ name t <> EmptyString
    /\ (forall v, cwd t = Some v -> v <> EmptyString /\ Js.trim v = v)
    /\ (forall v, command t = Some v -> v <> EmptyString /\ Js.trim v = v)
    /\ forall basePath,
         executeTerminalCommands t basePath
         = match command t with Some c => [SendText c] | None => [] end.
Proof.
  exact (quickSetup_one_clean_terminal quick_answers
           {| version := Some "1.0"; groups := None;
              terminals := Some [terminal_of "Dev" quick_answers] |}
           eq_refl).
Defined.

Lemma advancedSetup_one_filled_group_witness :
  advancedSetup (Some "Stack") three_rounds
  = Some {| version := Some "1.0";
            groups := Some [{| group_name := Some "Stack";
                               group_terminals := Some [simple "Api"; simple "Web"] |}];
            terminals := None |}
  /\ exists ts k,
       groups {| version := Some "1.0";
                 groups := Some [{| group_name := Some "Stack";
                                    group_terminals :=
                                      Some [simple "Api"; simple "Web"] |}];
                 terminals := None |}
       = Some [{| group_name := Some "Stack"; group_terminals := Some ts |}]
       /\ 1 <= k <= length three_rounds /\ length ts = k
       /\ map (fun t => Some (name t)) ts
          = map (fun r => ans_name (answers r)) (firstn k three_rounds)
       /\ Forall (fun r => continueAdding r = Some true)
                 (firstn (k - 1) three_rounds).
Proof.
  split; [reflexivity|].
  destruct (advancedSetup_one_filled_group (Some "Stack") three_rounds
              {| version := Some "1.0";
                 groups := Some [{| group_name := Some "Stack";
                                    group_terminals :=
                                      Some [simple "Api"; simple "Web"] |}];
                 terminals := None |}
              eq_refl)
    as (ts & k & _ & G & _ & _ & K & L & N & F & _).
  exists ts, k. repeat split; try assumption; apply K.
Defined.

End Instances.
